(** * rbac-controller: binding expansion and the RBACRule reconciler

    A shallow embedding of [internal/parser/parser.go] and
    [internal/controller/rbacrule_controller.go], together with the API types
    of [api/v1alpha1] they work on, and the part of the Kubernetes client
    machinery they call (an in-memory object store with injectable request
    failures, label selectors, [slices.Index] and [slices.Delete]).

    Go packages become modules of the same name, Go structs become records
    with the Go field names, methods that talk to the cluster become
    computations in the monad [client.M], which threads the cluster state, the
    clock, the log and pending request failures, and in which a Go panic is an
    outcome of its own. *)

From stdpp Require Import gmap strings list.
From Stdlib Require Import ZArith.

(** ** Packages of this repository whose files are not part of the sources *)

Module constants.
(** [constants.RBACRuleLabel], the key of the ownership label. The file that
    declares it is not available; the controller only needs it to be one fixed
    string. *)
Class Labels := { RBACRuleLabel : string }.
End constants.

Module utils.
(** Modelled from the spec: [utils.GenerateName] is called by the parser but
    its file is missing. The spec says that generated object names are
    "derived deterministically from (ruleName, bindingName, objectKind,
    roleName)", so it is taken to be an arbitrary function of these four
    strings. *)
Class Names := { GenerateName : string → string → string → string → string }.
End utils.

(** ** k8s.io/apimachinery: validation of label keys and values

    [labels.NewRequirement] checks the syntax of the key and of every value
    (qualified names, at most 63 characters, ...). The two checks are kept
    abstract. *)
Module validation.
Class LabelSyntax := {
  validateLabelKey : string → bool;
  validateLabelValue : string → bool
}.
End validation.

(** ** Errors *)

Inductive error :=
| ErrNotFound (what : string)
| ErrAlreadyExists (what : string)
| ErrRequest (msg : string)            (* any other failure of an API request *)
| ErrInvalid (msg : string)            (* field validation, label selectors *)
| ErrWrap (msg : string) (cause : error). (* fmt.Errorf with %w *)

Module apierrors.
Fixpoint IsNotFound (e : error) : bool :=
  match e with
  | ErrNotFound _ => true
  | ErrWrap _ c => IsNotFound c
  | _ => false
  end.

Fixpoint IsAlreadyExists (e : error) : bool :=
  match e with
  | ErrAlreadyExists _ => true
  | ErrWrap _ c => IsAlreadyExists c
  | _ => false
  end.
End apierrors.

(** ** time

    A [time.Time] is represented by its instant, in nanoseconds since the
    zero [Time] (January 1, year 1, 00:00 UTC), so that [time.Time{}] is [0];
    a [time.Duration] is a number of nanoseconds, of any size (Go saturates
    a difference that does not fit 64 bits). *)
Module time.
Definition Time := Z.
Definition Duration := Z.
Definition zero : Time := 0%Z.
Definition IsZeroValue (t : Time) : bool := bool_decide (t = zero).
Definition After (t u : Time) : bool := bool_decide (u < t)%Z.
Definition Before (t u : Time) : bool := bool_decide (t < u)%Z.
(** A [Duration] is an int64 count of nanoseconds. *)
Definition minDuration : Duration := (-9223372036854775808)%Z.
Definition maxDuration : Duration := 9223372036854775807%Z.
(** [Time.Sub]: the difference [t - u], or the nearest of [minDuration] and
    [maxDuration] when the difference is not a [Duration]. *)
Definition Sub (t u : Time) : Duration :=
  if bool_decide (t - u < minDuration)%Z then minDuration
  else if bool_decide (maxDuration < t - u)%Z then maxDuration
  else (t - u)%Z.
Definition Millisecond : Duration := 1000000%Z.
End time.

(** ** k8s.io/apimachinery/pkg/labels *)

Module labels.
Inductive Operator := OpEquals | OpIn | OpNotIn | OpExists | OpDoesNotExist.

Record Requirement := {
  key : string;
  operator : Operator;
  strValues : list string
}.

(** [Nothing] matches no label set; a list of requirements matches the label
    sets that meet all of them, so that the empty list is [Everything]. *)
Inductive Selector :=
| Nothing
| Requirements (rs : list Requirement).

Definition Everything : Selector := Requirements [].

Definition hasValue (r : Requirement) (v : string) : bool :=
  bool_decide (v ∈ strValues r).

(** [Requirement.Matches] *)
Definition requirementMatches (r : Requirement) (ls : gmap string string) : bool :=
  match operator r with
  | OpIn | OpEquals =>
      match ls !! key r with Some v => hasValue r v | None => false end
  | OpNotIn =>
      match ls !! key r with Some v => negb (hasValue r v) | None => true end
  | OpExists => bool_decide (is_Some (ls !! key r))
  | OpDoesNotExist => negb (bool_decide (is_Some (ls !! key r)))
  end.

Definition Matches (s : Selector) (ls : gmap string string) : bool :=
  match s with
  | Nothing => false
  | Requirements rs => forallb (λ r, requirementMatches r ls) rs
  end.

Section WithSyntax.
Context `{validation.LabelSyntax}.

(** [labels.NewRequirement]: the key, the number of values the operator
    allows, and every value are checked. *)
Definition NewRequirement (k : string) (op : Operator) (vals : list string)
  : Requirement + error :=
  let arity_ok :=
    match op with
    | OpIn | OpNotIn => negb (bool_decide (length vals = 0))
    | OpEquals => bool_decide (length vals = 1)
    | OpExists | OpDoesNotExist => bool_decide (length vals = 0)
    end in
  if validation.validateLabelKey k && arity_ok
     && forallb validation.validateLabelValue vals
  then inl {| key := k; operator := op; strValues := vals |}
  else inr (ErrInvalid "invalid label selector requirement").
End WithSyntax.

(** [labels.SelectorFromSet]: one equality requirement per entry, no
    validation. *)
Definition SelectorFromSet (set : gmap string string) : Selector :=
  Requirements
    ((λ kv, {| key := kv.1; operator := OpEquals; strValues := [kv.2] |})
       <$> map_to_list set).
End labels.

(** ** k8s.io/apimachinery/pkg/apis/meta/v1 *)

Module metav1.
Module OwnerReference.
Record t := {
  APIVersion : string;
  Kind : string;
  Name : string;
  UID : string;
  Controller : bool;
  BlockOwnerDeletion : bool
}.
End OwnerReference.

Module ObjectMeta.
Record t := {
  Name : string;
  Namespace : string;
  UID : string;
  Labels : gmap string string;
  OwnerReferences : list OwnerReference.t;
  DeletionTimestamp : option time.Time;
  Finalizers : list string
}.

Definition empty : t :=
  {| Name := ""; Namespace := ""; UID := ""; Labels := ∅;
     OwnerReferences := []; DeletionTimestamp := None; Finalizers := [] |}.

Definition withFinalizers (m : t) (fs : list string) : t :=
  {| Name := Name m; Namespace := Namespace m; UID := UID m;
     Labels := Labels m; OwnerReferences := OwnerReferences m;
     DeletionTimestamp := DeletionTimestamp m; Finalizers := fs |}.

Definition withDeletionTimestamp (m : t) (d : option time.Time) : t :=
  {| Name := Name m; Namespace := Namespace m; UID := UID m;
     Labels := Labels m; OwnerReferences := OwnerReferences m;
     DeletionTimestamp := d; Finalizers := Finalizers m |}.
End ObjectMeta.

Module LabelSelectorRequirement.
Record t := {
  Key : string;
  Operator : string;
  Values : list string
}.
End LabelSelectorRequirement.

(** [MatchLabels] is a Go map: [None] is the nil map, [Some ∅] a map that was
    given but has no entry. *)
Module LabelSelector.
Record t := {
  MatchLabels : option (gmap string string);
  MatchExpressions : list LabelSelectorRequirement.t
}.

Definition zero : t := {| MatchLabels := None; MatchExpressions := [] |}.

Definition lenMatchLabels (ls : t) : nat :=
  match MatchLabels ls with None => 0 | Some m => size m end.
End LabelSelector.

Definition operatorOf (s : string) : option labels.Operator :=
  if bool_decide (s = "In") then Some labels.OpIn
  else if bool_decide (s = "NotIn") then Some labels.OpNotIn
  else if bool_decide (s = "Exists") then Some labels.OpExists
  else if bool_decide (s = "DoesNotExist") then Some labels.OpDoesNotExist
  else None.

(** Results of a list of fallible steps, up to the first error. *)
Fixpoint collect {A B : Type} (f : A → B + error) (l : list A) : list B + error :=
  match l with
  | [] => inl []
  | x :: l' =>
      match f x with
      | inr e => inr e
      | inl y =>
          match collect f l' with
          | inr e => inr e
          | inl ys => inl (y :: ys)
          end
      end
  end.

Section WithSyntax.
Context `{validation.LabelSyntax}.

(** [metav1.LabelSelectorAsSelector], for a selector that is not the nil
    pointer (the parser always passes the address of a struct field). *)
Definition LabelSelectorAsSelector (ps : LabelSelector.t) : labels.Selector + error :=
  if bool_decide (LabelSelector.lenMatchLabels ps
                  + length (LabelSelector.MatchExpressions ps) = 0)
  then inl labels.Everything
  else
    match collect (λ kv, labels.NewRequirement kv.1 labels.OpEquals [kv.2])
            (map_to_list (default ∅ (LabelSelector.MatchLabels ps))) with
    | inr e => inr e
    | inl rs1 =>
        match collect
                (λ expr,
                   match operatorOf (LabelSelectorRequirement.Operator expr) with
                   | None => inr (ErrInvalid "not a valid label selector operator")
                   | Some op =>
                       labels.NewRequirement (LabelSelectorRequirement.Key expr) op
                         (LabelSelectorRequirement.Values expr)
                   end)
                (LabelSelector.MatchExpressions ps) with
        | inr e => inr e
        | inl rs2 => inl (labels.Requirements (rs1 ++ rs2))
        end
    end.
End WithSyntax.

(** [metav1.NewControllerRef] *)
Definition NewControllerRef (owner : ObjectMeta.t) (apiVersion kind : string)
  : OwnerReference.t :=
  {| OwnerReference.APIVersion := apiVersion;
     OwnerReference.Kind := kind;
     OwnerReference.Name := ObjectMeta.Name owner;
     OwnerReference.UID := ObjectMeta.UID owner;
     OwnerReference.Controller := true;
     OwnerReference.BlockOwnerDeletion := true |}.
End metav1.

(** ** k8s.io/api/core/v1 and k8s.io/api/rbac/v1 *)

Module corev1.
Module Namespace.
Record t := { ObjectMeta : metav1.ObjectMeta.t }.
End Namespace.

Module ServiceAccount.
Record t := { ObjectMeta : metav1.ObjectMeta.t }.
End ServiceAccount.
End corev1.

Module rbacv1.
Module Subject.
Record t := {
  Kind : string;
  APIGroup : string;
  Name : string;
  Namespace : string
}.
End Subject.

Module RoleRef.
Record t := {
  APIGroup : string;
  Kind : string;
  Name : string
}.
End RoleRef.

Module RoleBinding.
Record t := {
  ObjectMeta : metav1.ObjectMeta.t;
  Subjects : list Subject.t;
  RoleRef : RoleRef.t
}.
End RoleBinding.

Module ClusterRoleBinding.
Record t := {
  ObjectMeta : metav1.ObjectMeta.t;
  Subjects : list Subject.t;
  RoleRef : RoleRef.t
}.
End ClusterRoleBinding.
End rbacv1.

(** ** api/v1alpha1: the RBACRule resource *)

Module v1alpha1.
Definition SubjectType := string.
Definition User : SubjectType := "User".
Definition Group : SubjectType := "Group".
Definition ServiceAccount : SubjectType := "ServiceAccount".

Definition GroupVersion : string := "rbac-controller.ggh41th.io/v1alpha1".

Module Subject.
Record t := {
  Kind : SubjectType;
  Name : string;
  Namespaces : list string;
  NameSpaceSelector : metav1.LabelSelector.t;
  NamespaceMatchExpression : string
}.
End Subject.

Module RoleBinding.
Record t := {
  Role : string;
  ClusterRole : string;
  Namespaces : list string;
  NameSpaceSelector : metav1.LabelSelector.t;
  NamespaceMatchExpression : string
}.
End RoleBinding.

Module ClusterRoleBinding.
Record t := { ClusterRole : string }.
End ClusterRoleBinding.

Module Binding.
Record t := {
  Name : string;
  Subjects : list Subject.t;
  RoleBindings : list RoleBinding.t;
  ClusterRoleBindings : list ClusterRoleBinding.t
}.
End Binding.

Module RBACRuleSpec.
Record t := {
  Bindings : list Binding.t;
  StartTime : time.Time;
  EndTime : time.Time;
  CreateSA : bool
}.
End RBACRuleSpec.

(** [Conditions] is never read or written by the controller and is left out. *)
Module RBACRuleStatus.
Record t := {
  RoleBindings : list string;
  ClusterRoleBindings : list string
}.
End RBACRuleStatus.

Module RBACRule.
Record t := {
  ObjectMeta : metav1.ObjectMeta.t;
  Spec : RBACRuleSpec.t;
  Status : RBACRuleStatus.t
}.

Definition withMeta (r : t) (m : metav1.ObjectMeta.t) : t :=
  {| ObjectMeta := m; Spec := Spec r; Status := Status r |}.

Definition withStatus (r : t) (s : RBACRuleStatus.t) : t :=
  {| ObjectMeta := ObjectMeta r; Spec := Spec r; Status := s |}.
End RBACRule.
End v1alpha1.

(** ** The cluster, the clock and the log

    What the reconciler sees of the outside world: the objects the API server
    stores, by kind and in the order it lists them; the readings the clock
    will give to successive calls of [time.Now]; the fate of the coming API
    requests ([Some e] makes the next request fail with [e] before it touches
    the store); and the log written so far. *)

Module logr.
Inductive Entry :=
| Info (msg : string)
| Error (err : error) (msg : string).
End logr.

Module client.
Record World := {
  wNamespaces : list corev1.Namespace.t;
  wServiceAccounts : list corev1.ServiceAccount.t;
  wRoleBindings : list rbacv1.RoleBinding.t;
  wClusterRoleBindings : list rbacv1.ClusterRoleBinding.t;
  wRBACRules : list v1alpha1.RBACRule.t;
  wClock : nat → time.Time;
  wTicks : nat;
  wFaults : list (option error);
  wLog : list logr.Entry
}.

Definition setNamespaces (l : list corev1.Namespace.t) (w : World) : World :=
  {| wNamespaces := l; wServiceAccounts := wServiceAccounts w;
     wRoleBindings := wRoleBindings w;
     wClusterRoleBindings := wClusterRoleBindings w;
     wRBACRules := wRBACRules w; wClock := wClock w; wTicks := wTicks w;
     wFaults := wFaults w; wLog := wLog w |}.

Definition setServiceAccounts (l : list corev1.ServiceAccount.t) (w : World) : World :=
  {| wNamespaces := wNamespaces w; wServiceAccounts := l;
     wRoleBindings := wRoleBindings w;
     wClusterRoleBindings := wClusterRoleBindings w;
     wRBACRules := wRBACRules w; wClock := wClock w; wTicks := wTicks w;
     wFaults := wFaults w; wLog := wLog w |}.

Definition setRoleBindings (l : list rbacv1.RoleBinding.t) (w : World) : World :=
  {| wNamespaces := wNamespaces w; wServiceAccounts := wServiceAccounts w;
     wRoleBindings := l;
     wClusterRoleBindings := wClusterRoleBindings w;
     wRBACRules := wRBACRules w; wClock := wClock w; wTicks := wTicks w;
     wFaults := wFaults w; wLog := wLog w |}.

Definition setClusterRoleBindings (l : list rbacv1.ClusterRoleBinding.t) (w : World) : World :=
  {| wNamespaces := wNamespaces w; wServiceAccounts := wServiceAccounts w;
     wRoleBindings := wRoleBindings w;
     wClusterRoleBindings := l;
     wRBACRules := wRBACRules w; wClock := wClock w; wTicks := wTicks w;
     wFaults := wFaults w; wLog := wLog w |}.

Definition setRBACRules (l : list v1alpha1.RBACRule.t) (w : World) : World :=
  {| wNamespaces := wNamespaces w; wServiceAccounts := wServiceAccounts w;
     wRoleBindings := wRoleBindings w;
     wClusterRoleBindings := wClusterRoleBindings w;
     wRBACRules := l; wClock := wClock w; wTicks := wTicks w;
     wFaults := wFaults w; wLog := wLog w |}.

Definition setTicks (n : nat) (w : World) : World :=
  {| wNamespaces := wNamespaces w; wServiceAccounts := wServiceAccounts w;
     wRoleBindings := wRoleBindings w;
     wClusterRoleBindings := wClusterRoleBindings w;
     wRBACRules := wRBACRules w; wClock := wClock w; wTicks := n;
     wFaults := wFaults w; wLog := wLog w |}.

Definition setFaults (fs : list (option error)) (w : World) : World :=
  {| wNamespaces := wNamespaces w; wServiceAccounts := wServiceAccounts w;
     wRoleBindings := wRoleBindings w;
     wClusterRoleBindings := wClusterRoleBindings w;
     wRBACRules := wRBACRules w; wClock := wClock w; wTicks := wTicks w;
     wFaults := fs; wLog := wLog w |}.

Definition setLog (l : list logr.Entry) (w : World) : World :=
  {| wNamespaces := wNamespaces w; wServiceAccounts := wServiceAccounts w;
     wRoleBindings := wRoleBindings w;
     wClusterRoleBindings := wClusterRoleBindings w;
     wRBACRules := wRBACRules w; wClock := wClock w; wTicks := wTicks w;
     wFaults := wFaults w; wLog := l |}.

(** *** The monad: state passing, with Go's panic as a second outcome *)

Inductive outcome (A : Type) :=
| Done (a : A)
| Panic (msg : string).
Arguments Done {A} a.
Arguments Panic {A} msg.

Definition M (A : Type) : Type := World → outcome A * World.

#[global] Instance M_ret : MRet M := λ A a w, (Done a, w).

#[global] Instance M_bind : MBind M := λ A B f c w,
  match c w with
  | (Done a, w') => f a w'
  | (Panic msg, w') => (Panic msg, w')
  end.

Definition modify (f : World → World) : M unit := λ w, (Done tt, f w).
Definition read {A : Type} (f : World → A) : M A := λ w, (Done (f w), w).
Definition panic {A : Type} (msg : string) : M A := λ w, (Panic msg, w).

(** The next API request: whether the request itself fails. *)
Definition request : M (option error) := λ w,
  match wFaults w with
  | [] => (Done None, w)
  | f :: fs => (Done f, setFaults fs w)
  end.

(** [time.Now] and [time.Until] *)
Definition Now : M time.Time := λ w,
  (Done (wClock w (wTicks w)), setTicks (S (wTicks w)) w).

Definition Until (t : time.Time) : M time.Duration :=
  now ← Now; mret (time.Sub t now).

(** [Log.Info] and [Log.Error]; the key/value pairs of an entry are dropped. *)
Definition LogInfo (msg : string) : M unit :=
  modify (λ w, setLog (wLog w ++ [logr.Info msg]) w).

Definition LogError (err : error) (msg : string) : M unit :=
  modify (λ w, setLog (wLog w ++ [logr.Error err msg]) w).

(** *** Objects and their stores *)

(** [client.Object]: everything the store needs of an object is its metadata.
    [applyUpdate stored sent] is what an update request leaves in the store:
    for a kind with a status subresource the stored status is kept. *)
Class Object (A : Type) := {
  GetObjectMeta : A → metav1.ObjectMeta.t;
  SetObjectMeta : metav1.ObjectMeta.t → A → A;
  objects : World → list A;
  setObjects : list A → World → World;
  applyUpdate : A → A → A
}.

#[global] Instance Namespace_Object : Object corev1.Namespace.t := {|
  GetObjectMeta := corev1.Namespace.ObjectMeta;
  SetObjectMeta m _ := {| corev1.Namespace.ObjectMeta := m |};
  objects := wNamespaces;
  setObjects := setNamespaces;
  applyUpdate _ sent := sent
|}.

#[global] Instance ServiceAccount_Object : Object corev1.ServiceAccount.t := {|
  GetObjectMeta := corev1.ServiceAccount.ObjectMeta;
  SetObjectMeta m _ := {| corev1.ServiceAccount.ObjectMeta := m |};
  objects := wServiceAccounts;
  setObjects := setServiceAccounts;
  applyUpdate _ sent := sent
|}.

#[global] Instance RoleBinding_Object : Object rbacv1.RoleBinding.t := {|
  GetObjectMeta := rbacv1.RoleBinding.ObjectMeta;
  SetObjectMeta m x :=
    {| rbacv1.RoleBinding.ObjectMeta := m;
       rbacv1.RoleBinding.Subjects := rbacv1.RoleBinding.Subjects x;
       rbacv1.RoleBinding.RoleRef := rbacv1.RoleBinding.RoleRef x |};
  objects := wRoleBindings;
  setObjects := setRoleBindings;
  applyUpdate _ sent := sent
|}.

#[global] Instance ClusterRoleBinding_Object : Object rbacv1.ClusterRoleBinding.t := {|
  GetObjectMeta := rbacv1.ClusterRoleBinding.ObjectMeta;
  SetObjectMeta m x :=
    {| rbacv1.ClusterRoleBinding.ObjectMeta := m;
       rbacv1.ClusterRoleBinding.Subjects := rbacv1.ClusterRoleBinding.Subjects x;
       rbacv1.ClusterRoleBinding.RoleRef := rbacv1.ClusterRoleBinding.RoleRef x |};
  objects := wClusterRoleBindings;
  setObjects := setClusterRoleBindings;
  applyUpdate _ sent := sent
|}.

(** RBACRule is declared with [+kubebuilder:subresource:status]: an update of
    the resource leaves the stored status as it is. *)
#[global] Instance RBACRule_Object : Object v1alpha1.RBACRule.t := {|
  GetObjectMeta := v1alpha1.RBACRule.ObjectMeta;
  SetObjectMeta m x := v1alpha1.RBACRule.withMeta x m;
  objects := wRBACRules;
  setObjects := setRBACRules;
  applyUpdate stored sent :=
    v1alpha1.RBACRule.withStatus sent (v1alpha1.RBACRule.Status stored)
|}.

(** [types.NamespacedName] *)
Definition NamespacedName : Type := string * string.

Section Store.
Context {A : Type} `{Object A}.

Definition keyOf (x : A) : NamespacedName :=
  (metav1.ObjectMeta.Namespace (GetObjectMeta x),
   metav1.ObjectMeta.Name (GetObjectMeta x)).

Definition lookupKey (k : NamespacedName) (l : list A) : option A :=
  head (filter (λ x, keyOf x = k) l).

Fixpoint replaceKey (x : A) (l : list A) : list A :=
  match l with
  | [] => []
  | y :: l' =>
      if bool_decide (keyOf y = keyOf x) then x :: l' else y :: replaceKey x l'
  end.

Definition removeKey (k : NamespacedName) (l : list A) : list A :=
  filter (λ x, keyOf x ≠ k) l.

(** An object that is being deleted and has no finalizer left is gone. *)
Definition finalized (x : A) : bool :=
  bool_decide (is_Some (metav1.ObjectMeta.DeletionTimestamp (GetObjectMeta x)))
  && bool_decide (metav1.ObjectMeta.Finalizers (GetObjectMeta x) = []).

(** [Client.Get] *)
Definition Get (k : NamespacedName) : M (A + error) :=
  f ← request;
  match f with
  | Some e => mret (inr e)
  | None =>
      l ← read objects;
      match lookupKey k l with
      | Some x => mret (inl x)
      | None => mret (inr (ErrNotFound k.2))
      end
  end.

(** [Client.List] with a label selector, in all namespaces *)
Definition List (sel : labels.Selector) : M (list A + error) :=
  f ← request;
  match f with
  | Some e => mret (inr e)
  | None =>
      l ← read objects;
      mret (inl (filter
                   (λ x, labels.Matches sel
                           (metav1.ObjectMeta.Labels (GetObjectMeta x)) = true) l))
  end.

(** [Client.Create] *)
Definition Create (x : A) : M (option error) :=
  f ← request;
  match f with
  | Some e => mret (Some e)
  | None =>
      l ← read objects;
      match lookupKey (keyOf x) l with
      | Some _ => mret (Some (ErrAlreadyExists (keyOf x).2))
      | None => modify (setObjects (l ++ [x]));; mret None
      end
  end.

(** [Client.Update]: on success the caller's object is overwritten with what
    the server stored. *)
Definition Update (x : A) : M (A * option error) :=
  f ← request;
  match f with
  | Some e => mret (x, Some e)
  | None =>
      l ← read objects;
      match lookupKey (keyOf x) l with
      | None => mret (x, Some (ErrNotFound (keyOf x).2))
      | Some stored =>
          let x' := applyUpdate stored x in
          modify (setObjects
                    (if finalized x' then removeKey (keyOf x) l
                     else replaceKey x' l));;
          mret (x', None)
      end
  end.

(** [Client.Delete]: an object with finalizers is only marked as being
    deleted. *)
Definition Delete (x : A) : M (option error) :=
  f ← request;
  match f with
  | Some e => mret (Some e)
  | None =>
      l ← read objects;
      match lookupKey (keyOf x) l with
      | None => mret (Some (ErrNotFound (keyOf x).2))
      | Some stored =>
          let m := GetObjectMeta stored in
          if bool_decide (metav1.ObjectMeta.Finalizers m = [])
          then modify (setObjects (removeKey (keyOf x) l));; mret None
          else
            t ← read (λ w, wClock w (wTicks w));
            let d := match metav1.ObjectMeta.DeletionTimestamp m with
                     | Some d => Some d
                     | None => Some t
                     end in
            modify (setObjects
                      (replaceKey
                         (SetObjectMeta (metav1.ObjectMeta.withDeletionTimestamp m d) stored)
                         l));;
            mret None
      end
  end.
End Store.

(** [Client.Status().Update] of an RBACRule: only the status is stored. *)
Definition StatusUpdate (x : v1alpha1.RBACRule.t)
  : M (v1alpha1.RBACRule.t * option error) :=
  f ← request;
  match f with
  | Some e => mret (x, Some e)
  | None =>
      l ← read wRBACRules;
      match lookupKey (keyOf x) l with
      | None => mret (x, Some (ErrNotFound (keyOf x).2))
      | Some stored =>
          let x' := v1alpha1.RBACRule.withStatus stored (v1alpha1.RBACRule.Status x) in
          modify (setRBACRules (replaceKey x' l));;
          mret (x', None)
      end
  end.
End client.

(** ** slices *)

Module slices.
(** [slices.Index]: the first index of [v], or -1. *)
Fixpoint Index (s : list string) (v : string) : Z :=
  match s with
  | [] => (-1)%Z
  | x :: s' =>
      if bool_decide (x = v) then 0%Z
      else let i := Index s' v in
           if bool_decide (i = (-1)%Z) then (-1)%Z else (i + 1)%Z
  end.

(** [slices.Delete s i j] removes [s[i:j]]; it panics unless
    [0 <= i <= j <= len(s)], and leaves [s] as it is when [i = j]. *)
Definition Delete (s : list string) (i j : Z) : client.M (list string) :=
  if bool_decide (0 ≤ i ∧ i ≤ j ∧ j ≤ Z.of_nat (length s))%Z
  then
    if bool_decide (i = j) then mret s
    else mret (take (Z.to_nat i) s ++ drop (Z.to_nat j) s)
  else client.panic "slice bounds out of range".
End slices.

(** ** strings *)

Module strings.
(** [strings.Join] *)
Fixpoint Join (elems : list string) (sep : string) : string :=
  match elems with
  | [] => ""
  | [x] => x
  | x :: rest => x +:+ sep +:+ Join rest sep
  end.
End strings.

(** ** internal/parser *)

Module parser.
Import client.

Definition RBACApiGroup : string := "rbac.authorization.k8s.io".
Definition CRB : string := "ClusterRole".
Definition RB : string := "Role".

(** The [Parser] struct; its embedded client is the monad. *)
Record Parser := {
  Subjects : list rbacv1.Subject.t;
  RoleBindings : list rbacv1.RoleBinding.t;
  ClusterRoleBindings : list rbacv1.ClusterRoleBinding.t
}.

(** [&parser.Parser{Client: r.Client}] *)
Definition new : Parser :=
  {| Subjects := []; RoleBindings := []; ClusterRoleBindings := [] |}.

Definition appendSubjects (p : Parser) (l : list rbacv1.Subject.t) : Parser :=
  {| Subjects := Subjects p ++ l; RoleBindings := RoleBindings p;
     ClusterRoleBindings := ClusterRoleBindings p |}.

Definition appendRoleBinding (p : Parser) (rb : rbacv1.RoleBinding.t) : Parser :=
  {| Subjects := Subjects p; RoleBindings := RoleBindings p ++ [rb];
     ClusterRoleBindings := ClusterRoleBindings p |}.

Definition appendClusterRoleBinding (p : Parser) (crb : rbacv1.ClusterRoleBinding.t) : Parser :=
  {| Subjects := Subjects p; RoleBindings := RoleBindings p;
     ClusterRoleBindings := ClusterRoleBindings p ++ [crb] |}.

Section WithExternals.
Context `{validation.LabelSyntax} `{utils.Names}.

(** [retrieveNamespaces]: the names of the namespaces the selector matches.
    The list request is only made when the selector has a match expression
    or a non-nil [MatchLabels] map. *)
Definition retrieveNamespaces (ls : metav1.LabelSelector.t)
  : M (list string * option error) :=
  if bool_decide (0 < length (metav1.LabelSelector.MatchExpressions ls))
     || bool_decide (metav1.LabelSelector.MatchLabels ls ≠ None)
  then
    match metav1.LabelSelectorAsSelector ls with
    | inr err =>
        mret ([], Some (ErrWrap "failed to extract a selector from the label selector" err))
    | inl selector =>
        r ← List (A := corev1.Namespace.t) selector;
        match r with
        | inr err => mret ([], Some (ErrWrap "failed to list namespaces metadata" err))
        | inl items =>
            mret ((λ i, metav1.ObjectMeta.Name (corev1.Namespace.ObjectMeta i)) <$> items,
                  None)
        end
    end
  else mret ([], None).

Definition userSubject (kind name : string) : rbacv1.Subject.t :=
  {| rbacv1.Subject.APIGroup := RBACApiGroup;
     rbacv1.Subject.Kind := kind;
     rbacv1.Subject.Name := name;
     rbacv1.Subject.Namespace := "" |}.

Definition serviceAccountSubject (name n : string) : rbacv1.Subject.t :=
  {| rbacv1.Subject.APIGroup := "";
     rbacv1.Subject.Kind := v1alpha1.ServiceAccount;
     rbacv1.Subject.Name := name;
     rbacv1.Subject.Namespace := n |}.

(** [parseSubjects] *)
Fixpoint parseSubjects (p : Parser) (subjects : list v1alpha1.Subject.t)
    (RBACLabels : gmap string string) (ownerRef : list metav1.OwnerReference.t)
  : M (Parser * option error) :=
  match subjects with
  | [] => mret (p, None)
  | s :: rest =>
      if bool_decide (v1alpha1.Subject.Kind s = v1alpha1.User) then
        parseSubjects
          (appendSubjects p [userSubject v1alpha1.User (v1alpha1.Subject.Name s)])
          rest RBACLabels ownerRef
      else if bool_decide (v1alpha1.Subject.Kind s = v1alpha1.Group) then
        parseSubjects
          (appendSubjects p [userSubject v1alpha1.Group (v1alpha1.Subject.Name s)])
          rest RBACLabels ownerRef
      else if bool_decide (v1alpha1.Subject.Kind s = v1alpha1.ServiceAccount) then
        '(ns, err) ← retrieveNamespaces (v1alpha1.Subject.NameSpaceSelector s);
        let ns := ns ++ v1alpha1.Subject.Namespaces s in
        match err with
        | Some e => mret (p, Some e)
        | None =>
            parseSubjects
              (foldl (λ p n,
                        appendSubjects p
                          [serviceAccountSubject (v1alpha1.Subject.Name s) n])
                 p ns)
              rest RBACLabels ownerRef
        end
      else parseSubjects p rest RBACLabels ownerRef
  end.

Definition generatedMeta (name ns : string) (RBACLabels : gmap string string)
    (ownerRef : list metav1.OwnerReference.t) : metav1.ObjectMeta.t :=
  {| metav1.ObjectMeta.Name := name;
     metav1.ObjectMeta.Namespace := ns;
     metav1.ObjectMeta.UID := "";
     metav1.ObjectMeta.Labels := RBACLabels;
     metav1.ObjectMeta.OwnerReferences := ownerRef;
     metav1.ObjectMeta.DeletionTimestamp := None;
     metav1.ObjectMeta.Finalizers := [] |}.

Definition roleRef (kind name : string) : rbacv1.RoleRef.t :=
  {| rbacv1.RoleRef.APIGroup := RBACApiGroup;
     rbacv1.RoleRef.Kind := kind;
     rbacv1.RoleRef.Name := name |}.

(** The struct literal of [parseCRBs]. *)
Definition clusterRoleBinding (subjects : list rbacv1.Subject.t)
    (RBACRuleName BindingName : string) (RBACLabels : gmap string string)
    (ownerRef : list metav1.OwnerReference.t)
    (crb : v1alpha1.ClusterRoleBinding.t) : rbacv1.ClusterRoleBinding.t :=
  {| rbacv1.ClusterRoleBinding.ObjectMeta :=
       generatedMeta
         (utils.GenerateName RBACRuleName BindingName CRB
            (v1alpha1.ClusterRoleBinding.ClusterRole crb))
         "" RBACLabels ownerRef;
     rbacv1.ClusterRoleBinding.Subjects := subjects;
     rbacv1.ClusterRoleBinding.RoleRef :=
       roleRef CRB (v1alpha1.ClusterRoleBinding.ClusterRole crb) |}.

(** [parseCRBs] *)
Definition parseCRBs (p : Parser) (RBACRuleName BindingName : string)
    (CRBs : list v1alpha1.ClusterRoleBinding.t)
    (RBACLabels : gmap string string) (ownerRef : list metav1.OwnerReference.t)
  : Parser :=
  foldl
    (λ p crb,
       appendClusterRoleBinding p
         (clusterRoleBinding (Subjects p) RBACRuleName BindingName RBACLabels
            ownerRef crb))
    p CRBs.

(** The struct literal of the two inner loops of [parseRBs]: the name is
    generated with the kind [RB] in both, the role reference has the kind
    [refKind]. *)
Definition roleBinding (subjects : list rbacv1.Subject.t)
    (RBACRuleName BindingName : string) (RBAClabels : gmap string string)
    (ownerRef : list metav1.OwnerReference.t)
    (refKind role n : string) : rbacv1.RoleBinding.t :=
  {| rbacv1.RoleBinding.ObjectMeta :=
       generatedMeta (utils.GenerateName RBACRuleName BindingName RB role)
         n RBAClabels ownerRef;
     rbacv1.RoleBinding.Subjects := subjects;
     rbacv1.RoleBinding.RoleRef := roleRef refKind role |}.

(** One inner loop of [parseRBs]: [for _, n := range ns]. *)
Definition emitRoleBindings (p : Parser) (RBACRuleName BindingName : string)
    (refKind role : string) (ns : list string)
    (RBAClabels : gmap string string) (ownerRef : list metav1.OwnerReference.t)
  : Parser :=
  foldl
    (λ p n,
       appendRoleBinding p
         (roleBinding (Subjects p) RBACRuleName BindingName RBAClabels ownerRef
            refKind role n))
    p ns.

(** [parseRBs] *)
Fixpoint parseRBs (p : Parser) (RBACRuleName BindingName : string)
    (RBs : list v1alpha1.RoleBinding.t)
    (RBAClabels : gmap string string) (ownerRef : list metav1.OwnerReference.t)
  : M (Parser * option error) :=
  match RBs with
  | [] => mret (p, None)
  | rb :: rest =>
      '(ns, err) ← retrieveNamespaces (v1alpha1.RoleBinding.NameSpaceSelector rb);
      let ns := ns ++ v1alpha1.RoleBinding.Namespaces rb in
      match err with
      | Some e => mret (p, Some e)
      | None =>
          let p :=
            if bool_decide (v1alpha1.RoleBinding.ClusterRole rb ≠ "")
            then emitRoleBindings p RBACRuleName BindingName CRB
                   (v1alpha1.RoleBinding.ClusterRole rb) ns RBAClabels ownerRef
            else p in
          let p :=
            if bool_decide (v1alpha1.RoleBinding.Role rb ≠ "")
            then emitRoleBindings p RBACRuleName BindingName RB
                   (v1alpha1.RoleBinding.Role rb) ns RBAClabels ownerRef
            else p in
          parseRBs p RBACRuleName BindingName rest RBAClabels ownerRef
      end
  end.

(** [Parse] *)
Definition Parse (p : Parser) (binding : v1alpha1.Binding.t)
    (RBACLabels : gmap string string) (ownerRef : list metav1.OwnerReference.t)
    (RBACRuleName : string) : M (Parser * option error) :=
  '(p, err) ←
    (if bool_decide (0 < length (v1alpha1.Binding.Subjects binding))
     then parseSubjects p (v1alpha1.Binding.Subjects binding) RBACLabels ownerRef
     else mret (p, None));
  match err with
  | Some e => mret (p, Some e)
  | None =>
      let p :=
        if bool_decide (0 < length (v1alpha1.Binding.ClusterRoleBindings binding))
        then parseCRBs p RBACRuleName (v1alpha1.Binding.Name binding)
               (v1alpha1.Binding.ClusterRoleBindings binding) RBACLabels ownerRef
        else p in
      if bool_decide (0 < length (v1alpha1.Binding.RoleBindings binding))
      then parseRBs p RBACRuleName (v1alpha1.Binding.Name binding)
             (v1alpha1.Binding.RoleBindings binding) RBACLabels ownerRef
      else mret (p, None)
  end.
End WithExternals.
End parser.

(** ** sigs.k8s.io/controller-runtime: results and finalizers *)

Module ctrl.
Module Result.
Record t := {
  Requeue : bool;
  RequeueAfter : time.Duration
}.
End Result.

(** [ctrl.Result{}] and [ctrl.Result{RequeueAfter: d}] *)
Definition noRequeue : Result.t :=
  {| Result.Requeue := false; Result.RequeueAfter := 0%Z |}.

Definition requeueAfter (d : time.Duration) : Result.t :=
  {| Result.Requeue := false; Result.RequeueAfter := d |}.
End ctrl.

Module controllerutil.
Definition ContainsFinalizer (m : metav1.ObjectMeta.t) (finalizer : string) : bool :=
  bool_decide (finalizer ∈ metav1.ObjectMeta.Finalizers m).

Definition AddFinalizer (m : metav1.ObjectMeta.t) (finalizer : string)
  : metav1.ObjectMeta.t :=
  if ContainsFinalizer m finalizer then m
  else metav1.ObjectMeta.withFinalizers m
         (metav1.ObjectMeta.Finalizers m ++ [finalizer]).

Definition RemoveFinalizer (m : metav1.ObjectMeta.t) (finalizer : string)
  : metav1.ObjectMeta.t :=
  metav1.ObjectMeta.withFinalizers m
    (filter (λ f, f ≠ finalizer) (metav1.ObjectMeta.Finalizers m)).
End controllerutil.

(** ** internal/controller *)

Module controller.
Import client.

Definition RBACRuleFinalizer : string := "rbac-controller.io/cleanup-rbac-rule".
Definition ControllerName : string := "RBACRule-controller".

(** What a loop of [Reconcile] hands back: [Some] of the values of a [return]
    inside the loop, [None] when the loop ran to its end. *)
Definition Return : Type := option (ctrl.Result.t * option error).

Definition retryDelay : time.Duration := (500 * time.Millisecond)%Z.

Definition withRoleBindings (r : v1alpha1.RBACRule.t) (l : list string)
  : v1alpha1.RBACRule.t :=
  v1alpha1.RBACRule.withStatus r
    {| v1alpha1.RBACRuleStatus.RoleBindings := l;
       v1alpha1.RBACRuleStatus.ClusterRoleBindings :=
         v1alpha1.RBACRuleStatus.ClusterRoleBindings (v1alpha1.RBACRule.Status r) |}.

Definition withClusterRoleBindings (r : v1alpha1.RBACRule.t) (l : list string)
  : v1alpha1.RBACRule.t :=
  v1alpha1.RBACRule.withStatus r
    {| v1alpha1.RBACRuleStatus.RoleBindings :=
         v1alpha1.RBACRuleStatus.RoleBindings (v1alpha1.RBACRule.Status r);
       v1alpha1.RBACRuleStatus.ClusterRoleBindings := l |}.

Definition statusRoleBindings (r : v1alpha1.RBACRule.t) : list string :=
  v1alpha1.RBACRuleStatus.RoleBindings (v1alpha1.RBACRule.Status r).

Definition statusClusterRoleBindings (r : v1alpha1.RBACRule.t) : list string :=
  v1alpha1.RBACRuleStatus.ClusterRoleBindings (v1alpha1.RBACRule.Status r).

Definition ruleName (r : v1alpha1.RBACRule.t) : string :=
  metav1.ObjectMeta.Name (v1alpha1.RBACRule.ObjectMeta r).

Definition ruleNamespace (r : v1alpha1.RBACRule.t) : string :=
  metav1.ObjectMeta.Namespace (v1alpha1.RBACRule.ObjectMeta r).

(** [checkNamespace]: the namespace is created when it does not exist. *)
Definition checkNamespace (name : string) (ownerRef : list metav1.OwnerReference.t)
  : M (option error) :=
  r ← Get (A := corev1.Namespace.t) ("", name);
  match r with
  | inr err =>
      if apierrors.IsNotFound err then
        Create
          {| corev1.Namespace.ObjectMeta :=
               {| metav1.ObjectMeta.Name := name;
                  metav1.ObjectMeta.Namespace := "";
                  metav1.ObjectMeta.UID := "";
                  metav1.ObjectMeta.Labels := ∅;
                  metav1.ObjectMeta.OwnerReferences := ownerRef;
                  metav1.ObjectMeta.DeletionTimestamp := None;
                  metav1.ObjectMeta.Finalizers := [] |} |}
      else mret (Some err)
  | inl _ => mret None
  end.

(** Create, and update instead when the object already exists: the common
    body of [createSA], [createCRB] and [createCR]. *)
Definition createOrUpdate {A : Type} `{Object A} (x : A) : M (option error) :=
  err ← Create x;
  match err with
  | Some e =>
      if apierrors.IsAlreadyExists e
      then '(_, err) ← Update x; mret err
      else mret (Some e)
  | None => mret None
  end.

(** [createSA] *)
Definition createSA (name ns : string) (RBACLAbel : gmap string string)
    (ownerRef : list metav1.OwnerReference.t) : M (option error) :=
  createOrUpdate
    {| corev1.ServiceAccount.ObjectMeta :=
         {| metav1.ObjectMeta.Name := name;
            metav1.ObjectMeta.Namespace := ns;
            metav1.ObjectMeta.UID := "";
            metav1.ObjectMeta.Labels := RBACLAbel;
            metav1.ObjectMeta.OwnerReferences := ownerRef;
            metav1.ObjectMeta.DeletionTimestamp := None;
            metav1.ObjectMeta.Finalizers := [] |} |}.

(** [createCRB] *)
Definition createCRB (crb : rbacv1.ClusterRoleBinding.t) : M (option error) :=
  createOrUpdate crb.

(** [createCR] *)
Definition createCR (cr : rbacv1.RoleBinding.t) : M (option error) :=
  createOrUpdate cr.

(** [deleteServiceAccounts] *)
Fixpoint deleteServiceAccountItems (items : list corev1.ServiceAccount.t)
  : M (option error) :=
  match items with
  | [] => mret None
  | sa :: rest =>
      err ← Delete sa;
      match err with
      | Some e =>
          if negb (apierrors.IsNotFound e)
          then LogError e "failed to delete service account";; mret (Some e)
          else deleteServiceAccountItems rest
      | None => deleteServiceAccountItems rest
      end
  end.

Definition deleteServiceAccounts (ls : labels.Selector) : M (option error) :=
  r ← List (A := corev1.ServiceAccount.t) ls;
  match r with
  | inr err => LogError err "error listing Rule's serviceaccounts";; mret (Some err)
  | inl items => deleteServiceAccountItems items
  end.

(** [deleteBindings], first loop: [for _, rb := range rbs.Items] *)
Fixpoint deleteRoleBindingItems (items : list rbacv1.RoleBinding.t)
    (RBACRule : v1alpha1.RBACRule.t) : M (v1alpha1.RBACRule.t * option error) :=
  match items with
  | [] => mret (RBACRule, None)
  | rb :: rest =>
      err ← Delete rb;
      match err with
      | Some e => LogError e "failed to delete roleBinding";; mret (RBACRule, Some e)
      | None =>
          let i := slices.Index (statusRoleBindings RBACRule)
                     (metav1.ObjectMeta.Name (rbacv1.RoleBinding.ObjectMeta rb)) in
          s ← slices.Delete (statusRoleBindings RBACRule) i i;
          '(RBACRule, err) ← Update (withRoleBindings RBACRule s);
          match err with
          | Some e =>
              LogError e "failed to remove role binding from status";;
              mret (RBACRule, Some e)
          | None => deleteRoleBindingItems rest RBACRule
          end
      end
  end.

(** [deleteBindings], second loop: [for _, crb := range crbs.Items] *)
Fixpoint deleteClusterRoleBindingItems (items : list rbacv1.ClusterRoleBinding.t)
    (RBACRule : v1alpha1.RBACRule.t) : M (v1alpha1.RBACRule.t * option error) :=
  match items with
  | [] => mret (RBACRule, None)
  | crb :: rest =>
      err ← Delete crb;
      match err with
      | Some e =>
          LogError e "failed to delete clusterRoleBinding";; mret (RBACRule, Some e)
      | None =>
          let i := slices.Index (statusClusterRoleBindings RBACRule)
                     (metav1.ObjectMeta.Name (rbacv1.ClusterRoleBinding.ObjectMeta crb)) in
          s ← slices.Delete (statusClusterRoleBindings RBACRule) i i;
          '(RBACRule, err) ← Update (withClusterRoleBindings RBACRule s);
          match err with
          | Some e =>
              LogError e "failed to remove cluster role binding from status";;
              mret (RBACRule, Some e)
          | None => deleteClusterRoleBindingItems rest RBACRule
          end
      end
  end.

(** [deleteBindings]; the rule is handed back as the calls left it. *)
Definition deleteBindings (RBACRule : v1alpha1.RBACRule.t) (ls : labels.Selector)
  : M (v1alpha1.RBACRule.t * option error) :=
  '(RBACRule, err) ←
    (if bool_decide (0 < length (statusRoleBindings RBACRule)) then
       r ← List (A := rbacv1.RoleBinding.t) ls;
       match r with
       | inr err => LogError err "failed to list role bindings";; mret (RBACRule, Some err)
       | inl items => deleteRoleBindingItems items RBACRule
       end
     else mret (RBACRule, None));
  match err with
  | Some e => mret (RBACRule, Some e)
  | None =>
      if bool_decide (0 < length (statusClusterRoleBindings RBACRule)) then
        r ← List (A := rbacv1.ClusterRoleBinding.t) ls;
        match r with
        | inr err => LogError err "failed to list role bindings";; mret (RBACRule, Some err)
        | inl items => deleteClusterRoleBindingItems items RBACRule
        end
      else mret (RBACRule, None)
  end.

Section WithExternals.
Context `{validation.LabelSyntax} `{utils.Names} `{constants.Labels}.

(** The selector of the deletion sweep. *)
Definition sweepSelector (RBACRule : v1alpha1.RBACRule.t) : labels.Selector :=
  labels.SelectorFromSet
    {[ constants.RBACRuleLabel :=
         strings.Join [ruleName RBACRule; ruleNamespace RBACRule] "-" ]}.

(** [reconcileDelete] *)
Definition reconcileDelete (RBACRule : v1alpha1.RBACRule.t) : M (option error) :=
  LogInfo "Deleting RBACRule";;
  '(RBACRule, err) ←
    (if controllerutil.ContainsFinalizer (v1alpha1.RBACRule.ObjectMeta RBACRule)
          RBACRuleFinalizer
     then
       let ls := sweepSelector RBACRule in
       '(RBACRule, err) ← deleteBindings RBACRule ls;
       match err with
       | Some e => LogError e "failed to delete bindings";; mret (RBACRule, Some e)
       | None =>
           err ← deleteServiceAccounts ls;
           match err with
           | Some e =>
               LogError e "failed to delete ServiceAccounts";; mret (RBACRule, Some e)
           | None => mret (RBACRule, None)
           end
       end
     else mret (RBACRule, None));
  match err with
  | Some e => mret (Some e)
  | None =>
      '(_, err) ←
        Update
          (v1alpha1.RBACRule.withMeta RBACRule
             (controllerutil.RemoveFinalizer
                (v1alpha1.RBACRule.ObjectMeta RBACRule) RBACRuleFinalizer));
      match err with
      | Some e => LogError e "failed to remove finalizer from RBACRule";; mret (Some e)
      | None => mret None
      end
  end.

(** The labels put on generated objects, and their owner reference. *)
Definition ownershipLabels (RBACRule : v1alpha1.RBACRule.t) : gmap string string :=
  {[ constants.RBACRuleLabel := ruleName RBACRule ]}.

Definition controllerRef (RBACRule : v1alpha1.RBACRule.t)
  : list metav1.OwnerReference.t :=
  [metav1.NewControllerRef (v1alpha1.RBACRule.ObjectMeta RBACRule)
     v1alpha1.GroupVersion "RBACRule"].

(** [Reconcile], [for _, s := range p.Subjects] *)
Fixpoint reconcileSubjects (subjects : list rbacv1.Subject.t)
    (RBAClabels : gmap string string) (ownerRef : list metav1.OwnerReference.t)
  : M Return :=
  match subjects with
  | [] => mret None
  | s :: rest =>
      if bool_decide (rbacv1.Subject.Kind s = v1alpha1.ServiceAccount) then
        err ← checkNamespace (rbacv1.Subject.Namespace s) ownerRef;
        match err with
        | Some e =>
            LogError e "Failed to create namespace";;
            mret (Some (ctrl.requeueAfter retryDelay, None))
        | None =>
            err ← createSA (rbacv1.Subject.Name s) (rbacv1.Subject.Namespace s)
                    RBAClabels ownerRef;
            match err with
            | Some e =>
                LogError e "Failed to create SA";;
                mret (Some (ctrl.requeueAfter retryDelay, None))
            | None => reconcileSubjects rest RBAClabels ownerRef
            end
        end
      else reconcileSubjects rest RBAClabels ownerRef
  end.

(** [Reconcile], [for _, crb := range p.ClusterRoleBindings] *)
Fixpoint reconcileClusterRoleBindings (crbs : list rbacv1.ClusterRoleBinding.t)
    (RBACRule : v1alpha1.RBACRule.t) : M (v1alpha1.RBACRule.t * Return) :=
  match crbs with
  | [] => mret (RBACRule, None)
  | crb :: rest =>
      err ← createCRB crb;
      match err with
      | Some e =>
          LogError e "Failed to create CRB";;
          mret (RBACRule, Some (ctrl.requeueAfter retryDelay, None))
      | None =>
          let name := metav1.ObjectMeta.Name (rbacv1.ClusterRoleBinding.ObjectMeta crb) in
          if bool_decide (slices.Index (statusClusterRoleBindings RBACRule) name = (-1)%Z)
          then
            '(RBACRule, err) ←
              StatusUpdate
                (withClusterRoleBindings RBACRule
                   (statusClusterRoleBindings RBACRule ++ [name]));
            match err with
            | Some e =>
                LogError e "Failed to update RBACRule status";;
                mret (RBACRule, Some (ctrl.noRequeue, Some e))
            | None => reconcileClusterRoleBindings rest RBACRule
            end
          else reconcileClusterRoleBindings rest RBACRule
      end
  end.

(** [Reconcile], [for _, rb := range p.RoleBindings] *)
Fixpoint reconcileRoleBindings (rbs : list rbacv1.RoleBinding.t)
    (RBACRule : v1alpha1.RBACRule.t) : M (v1alpha1.RBACRule.t * Return) :=
  match rbs with
  | [] => mret (RBACRule, None)
  | rb :: rest =>
      err ← createCR rb;
      match err with
      | Some e =>
          LogError e "Failed to create RB";;
          mret (RBACRule, Some (ctrl.requeueAfter retryDelay, Some e))
      | None =>
          let id :=
            metav1.ObjectMeta.Namespace (rbacv1.RoleBinding.ObjectMeta rb)
            +:+ "/" +:+ metav1.ObjectMeta.Name (rbacv1.RoleBinding.ObjectMeta rb) in
          if bool_decide (slices.Index (statusRoleBindings RBACRule) id = (-1)%Z)
          then
            '(RBACRule, err) ←
              StatusUpdate
                (withRoleBindings RBACRule (statusRoleBindings RBACRule ++ [id]));
            match err with
            | Some e =>
                LogError e "Failed to update RBACRule status";;
                mret (RBACRule, Some (ctrl.noRequeue, Some e))
            | None => reconcileRoleBindings rest RBACRule
            end
          else reconcileRoleBindings rest RBACRule
      end
  end.

(** [Reconcile], what the loop over the bindings does with the contents of
    the parser: the three loops over [p.Subjects], [p.ClusterRoleBindings] and
    [p.RoleBindings]. *)
Definition reconcileParsed (p : parser.Parser) (RBACRule : v1alpha1.RBACRule.t)
    (RBAClabels : gmap string string) (ownerRef : list metav1.OwnerReference.t)
  : M (v1alpha1.RBACRule.t * Return) :=
  ret ← reconcileSubjects (parser.Subjects p) RBAClabels ownerRef;
  match ret with
  | Some r => mret (RBACRule, Some r)
  | None =>
      '(RBACRule, ret) ←
        reconcileClusterRoleBindings (parser.ClusterRoleBindings p) RBACRule;
      match ret with
      | Some r => mret (RBACRule, Some r)
      | None => reconcileRoleBindings (parser.RoleBindings p) RBACRule
      end
  end.

(** [Reconcile], [for _, b := range RBACRule.Spec.Bindings]: a fresh parser
    for every binding; an error of [Parse] is logged, and the loop goes on
    with what the parser holds. *)
Fixpoint reconcileBindings (bindings : list v1alpha1.Binding.t)
    (RBACRule : v1alpha1.RBACRule.t)
    (RBAClabels : gmap string string) (ownerRef : list metav1.OwnerReference.t)
  : M (v1alpha1.RBACRule.t * Return) :=
  match bindings with
  | [] => mret (RBACRule, None)
  | b :: rest =>
      '(p, err) ← parser.Parse parser.new b RBAClabels ownerRef (ruleName RBACRule);
      match err with
      | Some e => LogError e "failed to parse RBACBinding"
      | None => mret tt
      end;;
      '(RBACRule, ret) ← reconcileParsed p RBACRule RBAClabels ownerRef;
      match ret with
      | Some r => mret (RBACRule, Some r)
      | None => reconcileBindings rest RBACRule RBAClabels ownerRef
      end
  end.

(** [t != (time.Time{}) && t.After(time.Now())]: the clock is read only when
    [t] is set. *)
Definition setAndAfterNow (t : time.Time) : M bool :=
  if time.IsZeroValue t then mret false
  else now ← Now; mret (time.After t now).

(** [Reconcile], from [end := RBACRule.Spec.EndTime.Time] on *)
Definition reconcileEnd (RBACRule : v1alpha1.RBACRule.t)
  : M (ctrl.Result.t * option error) :=
  let end_ := v1alpha1.RBACRuleSpec.EndTime (v1alpha1.RBACRule.Spec RBACRule) in
  future ← setAndAfterNow end_;
  if (future : bool) then
    period ← Until end_;
    LogInfo "Rule will be scheduled for deletion";;
    mret (ctrl.requeueAfter period, None)
  else
    now ← Now;
    if time.Before end_ now then
      err ← Delete RBACRule;
      match err with
      | Some e => LogError e "error deleting resource";; mret (ctrl.noRequeue, None)
      | None => mret (ctrl.noRequeue, None)
      end
    else mret (ctrl.noRequeue, None).

(** [Reconcile]. A nil [Spec.Bindings] is the empty list: the test
    [RBACRule.Spec.Bindings != nil] only guards a loop that has nothing to do
    then. *)
Definition Reconcile (req : NamespacedName) : M (ctrl.Result.t * option error) :=
  r ← Get (A := v1alpha1.RBACRule.t) req;
  match r with
  | inr err =>
      if apierrors.IsNotFound err
      then LogInfo "Rule might been deleted";; mret (ctrl.noRequeue, None)
      else mret (ctrl.noRequeue, Some err)
  | inl RBACRule =>
      '(RBACRule, err) ←
        (if bool_decide (metav1.ObjectMeta.DeletionTimestamp
                           (v1alpha1.RBACRule.ObjectMeta RBACRule) = None)
            && negb (controllerutil.ContainsFinalizer
                       (v1alpha1.RBACRule.ObjectMeta RBACRule) RBACRuleFinalizer)
         then
           '(RBACRule, err) ←
             Update
               (v1alpha1.RBACRule.withMeta RBACRule
                  (controllerutil.AddFinalizer
                     (v1alpha1.RBACRule.ObjectMeta RBACRule) RBACRuleFinalizer));
           match err with
           | Some e => LogError e "failed to add finalizer";; mret (RBACRule, Some e)
           | None => mret (RBACRule, None)
           end
         else mret (RBACRule, None));
      match err with
      | Some e => mret (ctrl.noRequeue, Some e)
      | None =>
          if bool_decide (metav1.ObjectMeta.DeletionTimestamp
                            (v1alpha1.RBACRule.ObjectMeta RBACRule) ≠ None)
          then err ← reconcileDelete RBACRule; mret (ctrl.noRequeue, err)
          else
            let start :=
              v1alpha1.RBACRuleSpec.StartTime (v1alpha1.RBACRule.Spec RBACRule) in
            pending ← setAndAfterNow start;
            if (pending : bool) then
              period ← Until start;
              LogInfo "Rule shouldn't be active yet , waiting for start time";;
              mret (ctrl.requeueAfter period, None)
            else
              '(RBACRule, ret) ←
                reconcileBindings
                  (v1alpha1.RBACRuleSpec.Bindings (v1alpha1.RBACRule.Spec RBACRule))
                  RBACRule (ownershipLabels RBACRule) (controllerRef RBACRule);
              match ret with
              | Some r => mret r
              | None => reconcileEnd RBACRule
              end
      end
  end.
End WithExternals.
End controller.

(** ** k8s.io/apimachinery/pkg/util/validation: label values *)

Module labelvalue.




End labelvalue.

(** ** internal/webhook/v1alpha1 *)

Module runtime.
(** [runtime.Object], as far as the webhook tells objects apart: an RBACRule,
    or an object of another type, of which the name of the type is kept. *)
Inductive Object :=
| RBACRule (r : v1alpha1.RBACRule.t)
| Other (type : string).
End runtime.

Module webhook.
Import client.

(** [RBACRuleCustomValidator.ValidateCreate]. The warnings are always nil and
    are left out; an error of [fmt.Errorf] without [%w] is an [ErrInvalid];
    the line of the package logger goes to the log of the world. *)
Definition ValidateCreate (obj : runtime.Object) : M (option error) :=
  match obj with
  | runtime.Other type =>
      mret (Some (ErrInvalid ("expected a RBACRule object but got " +:+ type)))
  | runtime.RBACRule rbacrule =>
      LogInfo "Validation for RBACRule upon creation";;
      now ← Now;
      if time.After now (v1alpha1.RBACRuleSpec.StartTime (v1alpha1.RBACRule.Spec rbacrule))
      then mret (Some (ErrInvalid "start time should not be earlier than now"))
      else if time.After
                (v1alpha1.RBACRuleSpec.StartTime (v1alpha1.RBACRule.Spec rbacrule))
                (v1alpha1.RBACRuleSpec.EndTime (v1alpha1.RBACRule.Spec rbacrule))
      then mret (Some (ErrInvalid "start time should not be higher than end time"))
      else mret None
  end.
End webhook.

(** * Vocabulary of the properties *)

Module expansion.
Section WithSyntax.
Context `{validation.LabelSyntax} `{utils.Names}.

Definition namespaceNames (items : list corev1.Namespace.t) : list string :=
  (λ i, metav1.ObjectMeta.Name (corev1.Namespace.ObjectMeta i)) <$> items.

(** The names [retrieveNamespaces] answers for a selector in a cluster whose
    namespaces are [cluster], when neither the conversion of the selector nor
    the list request fails. *)
Definition matching (cluster : list corev1.Namespace.t)
    (ls : metav1.LabelSelector.t) : list string :=
  if bool_decide (0 < length (metav1.LabelSelector.MatchExpressions ls))
     || bool_decide (metav1.LabelSelector.MatchLabels ls ≠ None)
  then
    match metav1.LabelSelectorAsSelector ls with
    | inl selector =>
        namespaceNames
          (filter
             (λ x, labels.Matches selector
                     (metav1.ObjectMeta.Labels (corev1.Namespace.ObjectMeta x)) = true)
             cluster)
    | inr _ => []
    end
  else [].

(** The namespace list of a subject or of a role binding spec: what the
    selector matches, followed by the explicit list. *)
Definition resolved (cluster : list corev1.Namespace.t)
    (ls : metav1.LabelSelector.t) (explicit : list string) : list string :=
  matching cluster ls ++ explicit.

(** The subjects one declared subject expands to. *)
Definition subjectsOf (cluster : list corev1.Namespace.t)
    (s : v1alpha1.Subject.t) : list rbacv1.Subject.t :=
  if bool_decide (v1alpha1.Subject.Kind s = v1alpha1.User) then
    [parser.userSubject v1alpha1.User (v1alpha1.Subject.Name s)]
  else if bool_decide (v1alpha1.Subject.Kind s = v1alpha1.Group) then
    [parser.userSubject v1alpha1.Group (v1alpha1.Subject.Name s)]
  else if bool_decide (v1alpha1.Subject.Kind s = v1alpha1.ServiceAccount) then
    parser.serviceAccountSubject (v1alpha1.Subject.Name s)
      <$> resolved cluster (v1alpha1.Subject.NameSpaceSelector s)
            (v1alpha1.Subject.Namespaces s)
  else [].

(** The RoleBindings one role binding spec expands to. *)
Definition roleBindingsOf (cluster : list corev1.Namespace.t)
    (subjects : list rbacv1.Subject.t) (RBACRuleName BindingName : string)
    (RBACLabels : gmap string string) (ownerRef : list metav1.OwnerReference.t)
    (rb : v1alpha1.RoleBinding.t) : list rbacv1.RoleBinding.t :=
  let ns := resolved cluster (v1alpha1.RoleBinding.NameSpaceSelector rb)
              (v1alpha1.RoleBinding.Namespaces rb) in
  (if bool_decide (v1alpha1.RoleBinding.ClusterRole rb ≠ "")
   then parser.roleBinding subjects RBACRuleName BindingName RBACLabels ownerRef
          parser.CRB (v1alpha1.RoleBinding.ClusterRole rb) <$> ns
   else [])
  ++
  (if bool_decide (v1alpha1.RoleBinding.Role rb ≠ "")
   then parser.roleBinding subjects RBACRuleName BindingName RBACLabels ownerRef
          parser.RB (v1alpha1.RoleBinding.Role rb) <$> ns
   else []).

Definition rbNamespace (rb : rbacv1.RoleBinding.t) : string :=
  metav1.ObjectMeta.Namespace (rbacv1.RoleBinding.ObjectMeta rb).

(** What the parser holds when the expansion of [b] stopped at an error:
    either it stopped at a ServiceAccount subject and holds the subjects
    expanded before it and nothing else, or it stopped at a role binding spec
    and holds all the subjects, all the ClusterRoleBindings and the
    RoleBindings of the specs before it. *)
Definition stoppedAt (cluster : list corev1.Namespace.t) (b : v1alpha1.Binding.t)
    (RBACLabels : gmap string string) (ownerRef : list metav1.OwnerReference.t)
    (RBACRuleName : string) (p : parser.Parser) : Prop :=
  (∃ pre s post,
     v1alpha1.Binding.Subjects b = pre ++ s :: post
     ∧ v1alpha1.Subject.Kind s = v1alpha1.ServiceAccount
     ∧ parser.Subjects p = pre ≫= subjectsOf cluster
     ∧ parser.ClusterRoleBindings p = []
     ∧ parser.RoleBindings p = [])
  ∨ (∃ pre rb post,
       v1alpha1.Binding.RoleBindings b = pre ++ rb :: post
       ∧ parser.Subjects p = v1alpha1.Binding.Subjects b ≫= subjectsOf cluster
       ∧ parser.ClusterRoleBindings p =
         (parser.clusterRoleBinding (parser.Subjects p) RBACRuleName
            (v1alpha1.Binding.Name b) RBACLabels ownerRef
            <$> v1alpha1.Binding.ClusterRoleBindings b)
       ∧ parser.RoleBindings p =
         pre ≫= roleBindingsOf cluster (parser.Subjects p) RBACRuleName
                  (v1alpha1.Binding.Name b) RBACLabels ownerRef).

(** How many of the two fields [role] and [clusterRole] are set. *)
Definition roleFields (rb : v1alpha1.RoleBinding.t) : nat :=
  (if bool_decide (v1alpha1.RoleBinding.ClusterRole rb ≠ "") then 1 else 0)
  + (if bool_decide (v1alpha1.RoleBinding.Role rb ≠ "") then 1 else 0).
End WithSyntax.
End expansion.

Module world.
Import client.

(** [c] run from [w] ends normally with the value [a] in the world [w']. *)
Definition returns {A : Type} (c : M A) (w : World) (a : A) (w' : World) : Prop :=
  c w = (Done a, w').

(** Nothing but the list of coming request failures differs. *)
Definition onlyRequests (w w' : World) : Prop :=
  wNamespaces w' = wNamespaces w ∧ wServiceAccounts w' = wServiceAccounts w
  ∧ wRoleBindings w' = wRoleBindings w
  ∧ wClusterRoleBindings w' = wClusterRoleBindings w
  ∧ wRBACRules w' = wRBACRules w
  ∧ wClock w' = wClock w ∧ wTicks w' = wTicks w ∧ wLog w' = wLog w.

(** Every computation of [c] relates the world before to the world after. *)
Definition keeps {A : Type} (R : relation World) (c : M A) : Prop :=
  ∀ w, R w (c w).2.

(** What identifies an object and its owner: namespace, name, labels and
    owner references. *)
Definition descr : Type :=
  string * string * gmap string string * list metav1.OwnerReference.t.

Definition describe {A : Type} `{Object A} (x : A) : descr :=
  (metav1.ObjectMeta.Namespace (GetObjectMeta x),
   metav1.ObjectMeta.Name (GetObjectMeta x),
   metav1.ObjectMeta.Labels (GetObjectMeta x),
   metav1.ObjectMeta.OwnerReferences (GetObjectMeta x)).

Definition labelsOf (d : descr) : gmap string string := d.1.2.
Definition ownersOf (d : descr) : list metav1.OwnerReference.t := d.2.

Inductive kind :=
| KNamespace | KServiceAccount | KRoleBinding | KClusterRoleBinding | KRBACRule.

(** Every object of type [A] in [w'] either is described like an object of
    [w], or satisfies [P]. *)
Definition fresh (A : Type) `{Object A} (P : descr → Prop) (w w' : World) : Prop :=
  ∀ x : A, x ∈ objects w' → describe x ∈ describe <$> objects (A := A) w ∨ P (describe x).

(** From [w] to [w'], the objects that appeared or whose name, namespace,
    labels or owners changed satisfy [P] at their kind. *)
Definition generates (P : kind → descr → Prop) (w w' : World) : Prop :=
  fresh corev1.Namespace.t (P KNamespace) w w'
  ∧ fresh corev1.ServiceAccount.t (P KServiceAccount) w w'
  ∧ fresh rbacv1.RoleBinding.t (P KRoleBinding) w w'
  ∧ fresh rbacv1.ClusterRoleBinding.t (P KClusterRoleBinding) w w'
  ∧ fresh v1alpha1.RBACRule.t (P KRBACRule) w w'.

(** What the proofs need of a kind of objects: its tag, and that replacing
    its store leaves the other stores alone. *)
Class Stored (A : Type) `{Object A} := {
  tag : kind;
  meta_set : ∀ m (x : A), GetObjectMeta (SetObjectMeta m x) = m;
  meta_update : ∀ stored sent : A,
    GetObjectMeta (applyUpdate stored sent) = GetObjectMeta sent;
  generates_set : ∀ P w (l : list A),
    (∀ x, x ∈ l → describe x ∈ describe <$> objects (A := A) w ∨ P tag (describe x)) →
    generates P w (setObjects l w)
}.
(** Every value [c] returns satisfies [Q]. *)
Definition post {A : Type} (c : M A) (Q : A → Prop) : Prop :=
  ∀ w a w', c w = (Done a, w') → Q a.

(** What a pass for the rule [name] may leave behind: at a generated
    ServiceAccount, RoleBinding or ClusterRoleBinding exactly the ownership
    label with the value [name], at a Namespace no label, at both an owner
    reference to [name]; rules are free. *)
Definition ownedBy `{constants.Labels} (name : string) (k : kind) (d : descr) : Prop :=
  match k with
  | KRBACRule => True
  | KNamespace =>
      labelsOf d = ∅ ∧ metav1.OwnerReference.Name <$> ownersOf d = [name]
  | _ =>
      labelsOf d = {[ constants.RBACRuleLabel := name ]}
      ∧ metav1.OwnerReference.Name <$> ownersOf d = [name]
  end.

(** The stores of the generated kinds are the same. *)
Definition sameGenerated (w w' : World) : Prop :=
  wNamespaces w' = wNamespaces w ∧ wServiceAccounts w' = wServiceAccounts w
  ∧ wRoleBindings w' = wRoleBindings w
  ∧ wClusterRoleBindings w' = wClusterRoleBindings w.

Ltac stored_laws :=
  first
    [ by intros ? []
    | by intros [] []
    | intros P w l Hl; repeat split;
      try (intros x Hx; left; by apply list_elem_of_fmap_2); exact Hl ].

#[global, refine] Instance Namespace_Stored : Stored corev1.Namespace.t :=
  {| tag := KNamespace |}.
Proof. all: stored_laws. Defined.

#[global, refine] Instance ServiceAccount_Stored : Stored corev1.ServiceAccount.t :=
  {| tag := KServiceAccount |}.
Proof. all: stored_laws. Defined.

#[global, refine] Instance RoleBinding_Stored : Stored rbacv1.RoleBinding.t :=
  {| tag := KRoleBinding |}.
Proof. all: stored_laws. Defined.

#[global, refine] Instance ClusterRoleBinding_Stored : Stored rbacv1.ClusterRoleBinding.t :=
  {| tag := KClusterRoleBinding |}.
Proof. all: stored_laws. Defined.

#[global, refine] Instance RBACRule_Stored : Stored v1alpha1.RBACRule.t :=
  {| tag := KRBACRule |}.
Proof. all: stored_laws. Defined.
End world.

(** ** A small cluster to run the code on *)

Module sample.
Import client.

Definition syntax : validation.LabelSyntax :=
  {| validation.validateLabelKey := λ k, negb (bool_decide (k = ""));
     validation.validateLabelValue := λ v, bool_decide (String.length v ≤ 63) |}.

Definition names : utils.Names :=
  {| utils.GenerateName := λ rule binding kind role,
       strings.Join [rule; binding; kind; role] "-" |}.

Definition ownership : constants.Labels :=
  {| constants.RBACRuleLabel := "rbac-controller.io/rbacrule" |}.

Definition namespace (name : string) (l : gmap string string) : corev1.Namespace.t :=
  {| corev1.Namespace.ObjectMeta :=
       {| metav1.ObjectMeta.Name := name;
          metav1.ObjectMeta.Namespace := "";
          metav1.ObjectMeta.UID := "";
          metav1.ObjectMeta.Labels := l;
          metav1.ObjectMeta.OwnerReferences := [];
          metav1.ObjectMeta.DeletionTimestamp := None;
          metav1.ObjectMeta.Finalizers := [] |} |}.

(** Three namespaces, two of them labelled [env=dev]; the clock reads 1000,
    1001, ...; no request fails. *)
Definition cluster : World :=
  {| wNamespaces :=
       [namespace "ns-1" {[ "env" := "dev" ]};
        namespace "ns-2" {[ "env" := "dev" ]};
        namespace "team-a" ∅];
     wServiceAccounts := [];
     wRoleBindings := [];
     wClusterRoleBindings := [];
     wRBACRules := [];
     wClock := λ n, (1000 + Z.of_nat n)%Z;
     wTicks := 0;
     wFaults := [];
     wLog := [] |}.

Definition matchLabels (m : option (gmap string string)) : metav1.LabelSelector.t :=
  {| metav1.LabelSelector.MatchLabels := m;
     metav1.LabelSelector.MatchExpressions := [] |}.

Definition envDev : metav1.LabelSelector.t := matchLabels (Some {[ "env" := "dev" ]}).

Definition serviceAccount (name : string) (ns : list string)
    (ls : metav1.LabelSelector.t) : v1alpha1.Subject.t :=
  {| v1alpha1.Subject.Kind := v1alpha1.ServiceAccount;
     v1alpha1.Subject.Name := name;
     v1alpha1.Subject.Namespaces := ns;
     v1alpha1.Subject.NameSpaceSelector := ls;
     v1alpha1.Subject.NamespaceMatchExpression := "" |}.

Definition user (name : string) : v1alpha1.Subject.t :=
  {| v1alpha1.Subject.Kind := v1alpha1.User;
     v1alpha1.Subject.Name := name;
     v1alpha1.Subject.Namespaces := [];
     v1alpha1.Subject.NameSpaceSelector := metav1.LabelSelector.zero;
     v1alpha1.Subject.NamespaceMatchExpression := "" |}.

Definition roleBinding (role clusterRole : string) (ns : list string)
    (ls : metav1.LabelSelector.t) : v1alpha1.RoleBinding.t :=
  {| v1alpha1.RoleBinding.Role := role;
     v1alpha1.RoleBinding.ClusterRole := clusterRole;
     v1alpha1.RoleBinding.Namespaces := ns;
     v1alpha1.RoleBinding.NameSpaceSelector := ls;
     v1alpha1.RoleBinding.NamespaceMatchExpression := "" |}.

Definition binding (name : string) (subjects : list v1alpha1.Subject.t)
    (rbs : list v1alpha1.RoleBinding.t) (crbs : list string) : v1alpha1.Binding.t :=
  {| v1alpha1.Binding.Name := name;
     v1alpha1.Binding.Subjects := subjects;
     v1alpha1.Binding.RoleBindings := rbs;
     v1alpha1.Binding.ClusterRoleBindings :=
       (λ c, {| v1alpha1.ClusterRoleBinding.ClusterRole := c |}) <$> crbs |}.

(** The scenario of the specification: a ServiceAccount selected by
    [env=dev], bound to the role [edit] in [team-a]. *)
Definition dev : v1alpha1.Binding.t :=
  binding "dev" [serviceAccount "sa1" [] envDev]
    [roleBinding "edit" "" ["team-a"] metav1.LabelSelector.zero] [].

(** A spec that sets [role] and [clusterRole] to the same name. *)
Definition both : v1alpha1.Binding.t :=
  binding "dev" [user "alice"]
    [roleBinding "edit" "edit" ["team-a"] metav1.LabelSelector.zero] [].

(** A ServiceAccount whose explicit namespace is also matched by its
    selector. *)
Definition overlap : v1alpha1.Binding.t :=
  binding "dev" [serviceAccount "sa1" ["ns-1"] envDev]
    [roleBinding "edit" "" ["team-a"] metav1.LabelSelector.zero] [].

(** A spec that sets both fields and lists the namespace [team-a] twice. *)
Definition twice : v1alpha1.Binding.t :=
  binding "dev" [user "alice"]
    [roleBinding "edit" "view" ["team-a"; "team-a"] metav1.LabelSelector.zero] [].
Definition request : NamespacedName := ("", "r").

(** The cluster-scoped rule [r]. *)
Definition rule (bindings : list v1alpha1.Binding.t) (start end_ : time.Time)
  : v1alpha1.RBACRule.t :=
  {| v1alpha1.RBACRule.ObjectMeta :=
       {| metav1.ObjectMeta.Name := "r";
          metav1.ObjectMeta.Namespace := "";
          metav1.ObjectMeta.UID := "uid-r";
          metav1.ObjectMeta.Labels := ∅;
          metav1.ObjectMeta.OwnerReferences := [];
          metav1.ObjectMeta.DeletionTimestamp := None;
          metav1.ObjectMeta.Finalizers := [] |};
     v1alpha1.RBACRule.Spec :=
       {| v1alpha1.RBACRuleSpec.Bindings := bindings;
          v1alpha1.RBACRuleSpec.StartTime := start;
          v1alpha1.RBACRuleSpec.EndTime := end_;
          v1alpha1.RBACRuleSpec.CreateSA := true |};
     v1alpha1.RBACRule.Status :=
       {| v1alpha1.RBACRuleStatus.RoleBindings := [];
          v1alpha1.RBACRuleStatus.ClusterRoleBindings := [] |} |}.

(** The sample cluster with one rule in it. *)
Definition install (r : v1alpha1.RBACRule.t) : World :=
  setRBACRules [r] cluster.

(** A user and a ServiceAccount in [team-a] and in the namespace [fresh],
    which does not exist yet, bound to the role [edit] in [team-a] and to the
    cluster role [view]. *)
Definition access : v1alpha1.Binding.t :=
  binding "b"
    [user "alice";
     serviceAccount "sa1" ["team-a"; "fresh"] metav1.LabelSelector.zero]
    [roleBinding "edit" "" ["team-a"] metav1.LabelSelector.zero]
    ["view"].

(** A selector with an operator that does not exist. *)
Definition malformed : metav1.LabelSelector.t :=
  {| metav1.LabelSelector.MatchLabels := None;
     metav1.LabelSelector.MatchExpressions :=
       [{| metav1.LabelSelectorRequirement.Key := "env";
           metav1.LabelSelectorRequirement.Operator := "Bogus";
           metav1.LabelSelectorRequirement.Values := [] |}] |}.

(** A binding whose role binding spec cannot be resolved, and one that is
    fine. *)
Definition broken : v1alpha1.Binding.t :=
  binding "bad"
    [serviceAccount "sa1" ["team-a"] metav1.LabelSelector.zero]
    [roleBinding "edit" "" [] malformed]
    ["view"].


(** A rule that is being deleted, with its finalizer, and what its status
    records. *)
Definition terminating (rbs crbs : list string) : v1alpha1.RBACRule.t :=
  {| v1alpha1.RBACRule.ObjectMeta :=
       {| metav1.ObjectMeta.Name := "r";
          metav1.ObjectMeta.Namespace := "";
          metav1.ObjectMeta.UID := "uid-r";
          metav1.ObjectMeta.Labels := ∅;
          metav1.ObjectMeta.OwnerReferences := [];
          metav1.ObjectMeta.DeletionTimestamp := Some 900%Z;
          metav1.ObjectMeta.Finalizers := [controller.RBACRuleFinalizer] |};
     v1alpha1.RBACRule.Spec :=
       {| v1alpha1.RBACRuleSpec.Bindings := [];
          v1alpha1.RBACRuleSpec.StartTime := 0%Z;
          v1alpha1.RBACRuleSpec.EndTime := 0%Z;
          v1alpha1.RBACRuleSpec.CreateSA := true |};
     v1alpha1.RBACRule.Status :=
       {| v1alpha1.RBACRuleStatus.RoleBindings := rbs;
          v1alpha1.RBACRuleStatus.ClusterRoleBindings := crbs |} |}.

(** Objects that carry the label value the sweep selects. *)
Definition sweptMeta (ns name : string) : metav1.ObjectMeta.t :=
  {| metav1.ObjectMeta.Name := name;
     metav1.ObjectMeta.Namespace := ns;
     metav1.ObjectMeta.UID := "";
     metav1.ObjectMeta.Labels :=
       {[ constants.RBACRuleLabel (Labels := ownership) := "r-" ]};
     metav1.ObjectMeta.OwnerReferences := [];
     metav1.ObjectMeta.DeletionTimestamp := None;
     metav1.ObjectMeta.Finalizers := [] |}.

Definition sweptClusterRoleBinding : rbacv1.ClusterRoleBinding.t :=
  {| rbacv1.ClusterRoleBinding.ObjectMeta := sweptMeta "" "crb-1";
     rbacv1.ClusterRoleBinding.Subjects := [];
     rbacv1.ClusterRoleBinding.RoleRef := parser.roleRef parser.CRB "view" |}.

Definition sweptRoleBinding : rbacv1.RoleBinding.t :=
  {| rbacv1.RoleBinding.ObjectMeta := sweptMeta "team-a" "rb-1";
     rbacv1.RoleBinding.Subjects := [];
     rbacv1.RoleBinding.RoleRef := parser.roleRef parser.RB "edit" |}.

(** What is left of a cluster, for short: names and the value of the
    ownership label. *)
Definition ownerLabel (m : metav1.ObjectMeta.t) : option string :=
  metav1.ObjectMeta.Labels m !! constants.RBACRuleLabel (Labels := ownership).

Definition labelled {A : Type} `{Object A} (l : list A) : list (string * string * option string) :=
  (λ x, (metav1.ObjectMeta.Namespace (GetObjectMeta x),
         metav1.ObjectMeta.Name (GetObjectMeta x),
         ownerLabel (GetObjectMeta x))) <$> l.
End sample.

(** * Vocabulary of the further properties *)

Module store.
Import client.
(** Writing the store of a kind and reading it back; the pending request
    failures are kept apart from the stores. *)
Class Laws (A : Type) `{Object A} := {
  objects_set : ∀ (l : list A) w, objects (setObjects l w) = l;
  faults_set : ∀ (l : list A) w, wFaults (setObjects l w) = wFaults w;
  set_objects : ∀ w, setObjects (objects (A := A) w) w = w
}.

#[global] Instance Namespace_Laws : Laws corev1.Namespace.t.
Proof. split; try done; by intros []. Defined.
#[global] Instance ServiceAccount_Laws : Laws corev1.ServiceAccount.t.
Proof. split; try done; by intros []. Defined.
#[global] Instance RoleBinding_Laws : Laws rbacv1.RoleBinding.t.
Proof. split; try done; by intros []. Defined.
#[global] Instance ClusterRoleBinding_Laws : Laws rbacv1.ClusterRoleBinding.t.
Proof. split; try done; by intros []. Defined.
#[global] Instance RBACRule_Laws : Laws v1alpha1.RBACRule.t.
Proof. split; try done; by intros []. Defined.

(** The kinds whose store is not the store of the namespaces. *)
Class Apart (A : Type) `{Object A} :=
  namespaces_set : ∀ (l : list A) w, wNamespaces (setObjects l w) = wNamespaces w.

#[global] Instance ServiceAccount_Apart : Apart corev1.ServiceAccount.t.
Proof. done. Defined.
#[global] Instance RoleBinding_Apart : Apart rbacv1.RoleBinding.t.
Proof. done. Defined.
#[global] Instance ClusterRoleBinding_Apart : Apart rbacv1.ClusterRoleBinding.t.
Proof. done. Defined.
#[global] Instance RBACRule_Apart : Apart v1alpha1.RBACRule.t.
Proof. done. Defined.

(** From [w] to [w'] no namespace was removed or changed: namespaces were
    only added behind the others. *)
Definition namespacesGrow (w w' : World) : Prop :=
  wNamespaces w `prefix_of` wNamespaces w'.

(** [c] ends normally in every world, and every value it returns satisfies
    [Q]. *)
Definition ensures {A : Type} (c : M A) (Q : A → Prop) : Prop :=
  ∀ w, ∃ a w', c w = (Done a, w') ∧ Q a.
End store.

Module shape.
(** The subjects a parser can hold: cluster-scoped users and groups of the
    RBAC API group, and ServiceAccounts of the core group. *)
Definition emitted (s : rbacv1.Subject.t) : Prop :=
  ((rbacv1.Subject.Kind s = "User" ∨ rbacv1.Subject.Kind s = "Group")
   ∧ rbacv1.Subject.Namespace s = ""
   ∧ rbacv1.Subject.APIGroup s = "rbac.authorization.k8s.io")
  ∨ (rbacv1.Subject.Kind s = "ServiceAccount" ∧ rbacv1.Subject.APIGroup s = "").

(** A selector that is not set. *)
Definition unset (ls : metav1.LabelSelector.t) : Prop :=
  metav1.LabelSelector.MatchLabels ls = None
  ∧ metav1.LabelSelector.MatchExpressions ls = [].

(** A ServiceAccount without finalizers: a delete request removes it at
    once. *)
Definition unprotected (sa : corev1.ServiceAccount.t) : Prop :=
  metav1.ObjectMeta.Finalizers (corev1.ServiceAccount.ObjectMeta sa) = [].
End shape.

Module bookkeeping.
(** What [Reconcile] records in the status for a RoleBinding and for a
    ClusterRoleBinding. *)
Definition roleBindingId (rb : rbacv1.RoleBinding.t) : string :=
  metav1.ObjectMeta.Namespace (rbacv1.RoleBinding.ObjectMeta rb)
  +:+ "/" +:+ metav1.ObjectMeta.Name (rbacv1.RoleBinding.ObjectMeta rb).

Definition clusterRoleBindingId (crb : rbacv1.ClusterRoleBinding.t) : string :=
  metav1.ObjectMeta.Name (rbacv1.ClusterRoleBinding.ObjectMeta crb).

(** From the status of [rule] to the status of [rule']: both lists were only
    appended to, and neither got a duplicate. *)
Definition extends (rule rule' : v1alpha1.RBACRule.t) : Prop :=
  controller.statusClusterRoleBindings rule
    `prefix_of` controller.statusClusterRoleBindings rule'
  ∧ controller.statusRoleBindings rule `prefix_of` controller.statusRoleBindings rule'
  ∧ (NoDup (controller.statusClusterRoleBindings rule) →
     NoDup (controller.statusClusterRoleBindings rule'))
  ∧ (NoDup (controller.statusRoleBindings rule) →
     NoDup (controller.statusRoleBindings rule')).

(** The results with which the loops of [Reconcile] leave a pass early: a
    retry after the fixed delay, or an error. *)
Definition asksRetry (ret : controller.Return) : Prop :=
  ∀ res err, ret = Some (res, err) →
    ctrl.Result.RequeueAfter res = controller.retryDelay
    ∨ (res = ctrl.noRequeue ∧ is_Some err).
End bookkeeping.

Module applying.
Import client.



End applying.

Module sweeping.
Import client.
(** From [w] to [w'] no stored status changed: every rule of [w'] has the
    status that the rule of its name had in [w]. *)
Definition statusKept (w w' : World) : Prop :=
  ∀ r', r' ∈ wRBACRules w' →
    ∃ r, r ∈ wRBACRules w ∧ keyOf r = keyOf r'
         ∧ v1alpha1.RBACRule.Status r = v1alpha1.RBACRule.Status r'.
End sweeping.

(** * Properties *)

Section Monad.
Import client world.

Lemma bind_returns {A B : Type} (c : M A) (f : A → M B) w b w' :
  returns (c ≫= f) w b w' ↔ ∃ a w1, returns c w a w1 ∧ returns (f a) w1 b w'.
Proof.
  unfold returns, mbind, M_bind. split.
  - destruct (c w) as [[a|msg] w1]; [eauto | discriminate].
  - intros (a & w1 & -> & Hf). exact Hf.
Qed.

Lemma ret_returns {A : Type} (a b : A) w w' :
  returns (mret a) w b w' ↔ a = b ∧ w = w'.
Proof. unfold returns, mret, M_ret. split; [by inversion 1 | by intros [-> ->]]. Qed.

Lemma keeps_ret {A : Type} (R : relation World) `{!Reflexive R} (a : A) :
  keeps R (mret a).
Proof. intros w. reflexivity. Qed.

Lemma keeps_bind {A B : Type} (R : relation World) `{!Transitive R}
    (c : M A) (f : A → M B) :
  keeps R c → (∀ a, keeps R (f a)) → keeps R (c ≫= f).
Proof.
  intros Hc Hf w. unfold mbind, M_bind.
  specialize (Hc w). destruct (c w) as [[a|msg] w1]; simpl in *; [|done].
  etrans; [exact Hc | apply Hf].
Qed.

Lemma keeps_read {A : Type} (R : relation World) `{!Reflexive R} (f : World → A) :
  keeps R (read f).
Proof. intros w. reflexivity. Qed.

Lemma keeps_panic {A : Type} (R : relation World) `{!Reflexive R} msg :
  keeps R (panic (A := A) msg).
Proof. intros w. reflexivity. Qed.

Lemma keeps_modify (R : relation World) (f : World → World) :
  (∀ w, R w (f w)) → keeps R (modify f).
Proof. intros Hf w. apply Hf. Qed.

#[global] Instance onlyRequests_refl : Reflexive onlyRequests.
Proof. by intros w. Qed.

#[global] Instance onlyRequests_trans : Transitive onlyRequests.
Proof. unfold onlyRequests. intros w1 w2 w3 ? ?. intuition congruence. Qed.

Lemma request_onlyRequests : keeps onlyRequests request.
Proof. intros w. unfold request. by destruct (wFaults w). Qed.
End Monad.

(** ** The parser *)

Section Parser.
Import client world expansion.
Context `{validation.LabelSyntax} `{utils.Names}.

Lemma retrieveNamespaces_spec (ls : metav1.LabelSelector.t) w :
  ∃ ns err w',
    parser.retrieveNamespaces ls w = (Done (ns, err), w')
    ∧ onlyRequests w w'
    ∧ (err = None → ns = matching (wNamespaces w) ls)
    ∧ (err ≠ None → ns = []).
Proof.
  unfold parser.retrieveNamespaces, matching.
  destruct (_ || _).
  - destruct (metav1.LabelSelectorAsSelector ls) as [sel|e].
    + unfold List, mbind, M_bind, request, read, mret, M_ret, onlyRequests.
      destruct (wFaults w) as [|[e|] fs] eqn:Hf; simpl;
        (do 3 eexists; split; [reflexivity|]; by repeat split).
    + do 3 eexists. split; [reflexivity|]. by repeat split.
  - do 3 eexists. split; [reflexivity|]. by repeat split.
Qed.

Lemma appendSubjects_nil p : parser.appendSubjects p [] = p.
Proof. destruct p. unfold parser.appendSubjects. simpl. by rewrite app_nil_r. Qed.

Lemma appendSubjects_app p l k :
  parser.appendSubjects (parser.appendSubjects p l) k = parser.appendSubjects p (l ++ k).
Proof. unfold parser.appendSubjects. simpl. by rewrite app_assoc. Qed.

Lemma foldl_appendSubjects (f : string → rbacv1.Subject.t) ns p :
  foldl (λ p n, parser.appendSubjects p [f n]) p ns = parser.appendSubjects p (f <$> ns).
Proof.
  revert p. induction ns as [|n ns IH]; intros p; simpl.
  - by rewrite appendSubjects_nil.
  - by rewrite IH, appendSubjects_app.
Qed.

(** [parseSubjects] never panics and touches nothing but the pending request
    failures; when it succeeds it has appended the expansion of every subject,
    when it fails it has appended the expansion of the subjects before the
    one whose namespaces could not be resolved. *)
Lemma parseSubjects_spec subjects : ∀ p L O w,
  ∃ p' err w',
    parser.parseSubjects p subjects L O w = (Done (p', err), w')
    ∧ onlyRequests w w'
    ∧ (err = None →
       p' = parser.appendSubjects p (subjects ≫= subjectsOf (wNamespaces w)))
    ∧ (err ≠ None →
       ∃ pre s post, subjects = pre ++ s :: post
         ∧ v1alpha1.Subject.Kind s = v1alpha1.ServiceAccount
         ∧ p' = parser.appendSubjects p (pre ≫= subjectsOf (wNamespaces w))).
Proof.
  induction subjects as [|s rest IH]; intros p L O w.
  - exists p, None, w. simpl. rewrite appendSubjects_nil. done.
  - cbn [parser.parseSubjects].
    assert (Hnext : ∀ q w1, onlyRequests w w1 →
      parser.appendSubjects p (subjectsOf (wNamespaces w) s) = q →
      ∃ p' err w',
        parser.parseSubjects q rest L O w1 = (Done (p', err), w')
        ∧ onlyRequests w w'
        ∧ (err = None →
           p' = parser.appendSubjects p ((s :: rest) ≫= subjectsOf (wNamespaces w)))
        ∧ (err ≠ None →
           ∃ pre s' post, s :: rest = pre ++ s' :: post
             ∧ v1alpha1.Subject.Kind s' = v1alpha1.ServiceAccount
             ∧ p' = parser.appendSubjects p (pre ≫= subjectsOf (wNamespaces w)))).
    { intros q w1 Hw1 <-.
      destruct (IH (parser.appendSubjects p (subjectsOf (wNamespaces w) s)) L O w1)
        as (p' & err & w' & Hrun & Hw & Hok & Hko).
      assert (Hcl : wNamespaces w1 = wNamespaces w) by apply Hw1.
      rewrite Hcl in *.
      exists p', err, w'. split; [done|]. split; [by etrans|]. split.
      - intros Herr. rewrite (Hok Herr), bind_cons. apply appendSubjects_app.
      - intros Herr. destruct (Hko Herr) as (pre & s' & post & -> & Hk & ->).
        exists (s :: pre), s', post. rewrite bind_cons.
        by rewrite appendSubjects_app. }
    repeat case_bool_decide.
    + apply Hnext; [done|]. unfold subjectsOf. by rewrite !bool_decide_true.
    + apply Hnext; [done|]. unfold subjectsOf.
      by rewrite bool_decide_false, bool_decide_true.
    + destruct (retrieveNamespaces_spec (v1alpha1.Subject.NameSpaceSelector s) w)
        as (ns & err & w1 & Hr & Hw1 & Hns & Hnil).
      unfold mbind, M_bind. rewrite Hr.
      destruct err as [e|].
      * exists p, (Some e), w1. split; [done|]. split; [done|]. split; [done|].
        intros _. exists [], s, rest. simpl. by rewrite appendSubjects_nil.
      * rewrite foldl_appendSubjects. apply Hnext; [done|].
        unfold subjectsOf, resolved.
        rewrite !bool_decide_false, bool_decide_true by done.
        by rewrite Hns.
    + apply Hnext; [done|]. unfold subjectsOf.
      rewrite !bool_decide_false by done. apply appendSubjects_nil.
Qed.
Lemma parseCRBs_spec p R B CRBs L O :
  parser.parseCRBs p R B CRBs L O =
  {| parser.Subjects := parser.Subjects p;
     parser.RoleBindings := parser.RoleBindings p;
     parser.ClusterRoleBindings :=
       parser.ClusterRoleBindings p
       ++ (parser.clusterRoleBinding (parser.Subjects p) R B L O <$> CRBs) |}.
Proof.
  unfold parser.parseCRBs. revert p.
  induction CRBs as [|crb CRBs IH]; intros p; simpl.
  - rewrite app_nil_r. by destruct p.
  - rewrite IH. simpl. by rewrite <- app_assoc.
Qed.

Lemma emitRoleBindings_spec p R B kind role ns L O :
  parser.emitRoleBindings p R B kind role ns L O =
  {| parser.Subjects := parser.Subjects p;
     parser.RoleBindings :=
       parser.RoleBindings p
       ++ (parser.roleBinding (parser.Subjects p) R B L O kind role <$> ns);
     parser.ClusterRoleBindings := parser.ClusterRoleBindings p |}.
Proof.
  unfold parser.emitRoleBindings. revert p.
  induction ns as [|n ns IH]; intros p; simpl.
  - rewrite app_nil_r. by destruct p.
  - rewrite IH. simpl. by rewrite <- app_assoc.
Qed.

(** [parseRBs] never panics, touches nothing but the pending request failures
    and leaves the subjects and the ClusterRoleBindings of the parser alone;
    it appends the expansion of every spec, or of the specs before the one
    whose namespaces could not be resolved. *)
Lemma parseRBs_spec R B L O RBs : ∀ p w,
  ∃ p' err w',
    parser.parseRBs p R B RBs L O w = (Done (p', err), w')
    ∧ onlyRequests w w'
    ∧ parser.Subjects p' = parser.Subjects p
    ∧ parser.ClusterRoleBindings p' = parser.ClusterRoleBindings p
    ∧ (err = None →
       parser.RoleBindings p' =
       parser.RoleBindings p
       ++ (RBs ≫= roleBindingsOf (wNamespaces w) (parser.Subjects p) R B L O))
    ∧ (err ≠ None →
       ∃ pre rb post, RBs = pre ++ rb :: post
         ∧ parser.RoleBindings p' =
           parser.RoleBindings p
           ++ (pre ≫= roleBindingsOf (wNamespaces w) (parser.Subjects p) R B L O)).
Proof.
  induction RBs as [|rb rest IH]; intros p w.
  - exists p, None, w. simpl. rewrite app_nil_r. done.
  - cbn [parser.parseRBs].
    destruct (retrieveNamespaces_spec (v1alpha1.RoleBinding.NameSpaceSelector rb) w)
      as (ns & err & w1 & Hr & Hw1 & Hns & Hnil).
    unfold mbind, M_bind. rewrite Hr.
    destruct err as [e|].
    + exists p, (Some e), w1. do 4 (split; [done|]). split; [done|].
      intros _. exists [], rb, rest. simpl. by rewrite app_nil_r.
    + rewrite Hns by done.
      match goal with |- context [parser.parseRBs ?q _ _ _ _ _ w1] =>
        destruct (IH q w1) as (p' & err & w' & -> & Hw & Hs & Hc & Hok & Hko);
        assert (Hq : parser.Subjects q = parser.Subjects p
                     ∧ parser.ClusterRoleBindings q = parser.ClusterRoleBindings p
                     ∧ parser.RoleBindings q =
                       parser.RoleBindings p
                       ++ roleBindingsOf (wNamespaces w) (parser.Subjects p) R B L O rb)
      end.
      { unfold roleBindingsOf, resolved.
        repeat case_bool_decide; rewrite ?emitRoleBindings_spec; simpl;
          rewrite ?app_nil_r, <- ?app_assoc; done. }
      destruct Hq as (Hqs & Hqc & Hqr).
      assert (Hcl : wNamespaces w1 = wNamespaces w) by apply Hw1.
      rewrite Hcl, Hqs, Hqc, Hqr in *.
      exists p', err, w'. split; [done|]. split; [by etrans|].
      split; [done|]. split; [done|]. split.
      * intros Herr. by rewrite (Hok Herr), bind_cons, app_assoc.
      * intros Herr. destruct (Hko Herr) as (pre & rb' & post & -> & ->).
        exists (rb :: pre), rb', post. by rewrite bind_cons, app_assoc.
Qed.

(** [Parse] on a fresh parser: it never panics and touches nothing but the
    pending request failures. *)
Lemma Parse_spec b L O R w :
  ∃ p err w',
    parser.Parse parser.new b L O R w = (Done (p, err), w')
    ∧ onlyRequests w w'
    ∧ (err = None →
       parser.Subjects p = v1alpha1.Binding.Subjects b ≫= subjectsOf (wNamespaces w)
       ∧ parser.ClusterRoleBindings p =
         (parser.clusterRoleBinding (parser.Subjects p) R (v1alpha1.Binding.Name b) L O
            <$> v1alpha1.Binding.ClusterRoleBindings b)
       ∧ parser.RoleBindings p =
         v1alpha1.Binding.RoleBindings b
           ≫= roleBindingsOf (wNamespaces w) (parser.Subjects p) R
                (v1alpha1.Binding.Name b) L O)
    ∧ (err ≠ None → stoppedAt (wNamespaces w) b L O R p).
Proof.
  unfold parser.Parse.
  set (subjects := v1alpha1.Binding.Subjects b).
  set (CRBs := v1alpha1.Binding.ClusterRoleBindings b).
  set (RBs := v1alpha1.Binding.RoleBindings b).
  assert (Hsub : ∃ p1 err1 w1,
    (if bool_decide (0 < length subjects)
     then parser.parseSubjects parser.new subjects L O
     else mret (parser.new, None)) w = (Done (p1, err1), w1)
    ∧ onlyRequests w w1
    ∧ (err1 = None → p1 = parser.appendSubjects parser.new
                             (subjects ≫= subjectsOf (wNamespaces w)))
    ∧ (err1 ≠ None →
       ∃ pre s post, subjects = pre ++ s :: post
         ∧ v1alpha1.Subject.Kind s = v1alpha1.ServiceAccount
         ∧ p1 = parser.appendSubjects parser.new
                  (pre ≫= subjectsOf (wNamespaces w)))).
  { case_bool_decide as Hlen.
    - apply parseSubjects_spec.
    - exists parser.new, None, w. destruct subjects; simpl in *; [done | lia]. }
  destruct Hsub as (p1 & err1 & w1 & Hrun & Hw1 & Hp1 & Hstop).
  unfold mbind, M_bind at 1. rewrite Hrun.
  destruct err1 as [e|].
  { exists p1, (Some e), w1. do 3 (split; [done|]). intros _. left.
    destruct Hstop as (pre & s & post & ? & ? & ->); [done|].
    by exists pre, s, post. }
  clear Hstop.
  rewrite (Hp1 eq_refl). clear Hrun Hp1 p1.
  set (subs := subjects ≫= subjectsOf (wNamespaces w)).
  set (p2 := if bool_decide (0 < length CRBs) then _ else _).
  assert (Hp2 : p2 = {| parser.Subjects := subs; parser.RoleBindings := [];
                        parser.ClusterRoleBindings :=
                          parser.clusterRoleBinding subs R (v1alpha1.Binding.Name b) L O
                            <$> CRBs |}).
  { subst p2. case_bool_decide as Hlen.
    - by rewrite parseCRBs_spec.
    - destruct CRBs; simpl in *; [done | lia]. }
  rewrite Hp2. clear Hp2 p2.
  assert (Hcl : wNamespaces w1 = wNamespaces w) by apply Hw1.
  case_bool_decide as Hlen.
  - match goal with |- context [parser.parseRBs ?q _ _ _ _ _ w1] =>
      destruct (parseRBs_spec R (v1alpha1.Binding.Name b) L O RBs q w1)
        as (p' & err & w' & -> & Hw & Hs & Hc & Hok & Hko) end.
    simpl in *. exists p', err, w'. split; [done|]. split; [by etrans|]. split.
    + intros Herr. rewrite Hs, Hc, (Hok Herr), Hcl. done.
    + intros Herr. right. destruct (Hko Herr) as (pre & rb & post & ? & Hpre).
      exists pre, rb, post. rewrite Hs, Hc, Hpre, Hcl. done.
  - eexists _, None, w1. split; [done|]. split; [done|]. split; [|done].
    intros _. simpl. destruct RBs; simpl in *; [done | lia].
Qed.
Lemma length_filter_bind {A B : Type} (P : B → Prop) `{!∀ x, Decision (P x)}
    (f : A → list B) (l : list A) :
  length (filter P (l ≫= f)) = sum_list ((λ x, length (filter P (f x))) <$> l).
Proof.
  induction l as [|x l IH]; [done|].
  rewrite bind_cons, filter_app, length_app, IH. done.
Qed.

Lemma filter_all {A : Type} (l : list A) : filter (λ _, True) l = l.
Proof. induction l as [|x l IH]; [done|]. rewrite filter_cons. simpl. by rewrite IH. Qed.

Lemma length_filter_roleBinding (P : string → Prop)
    `{d1 : !∀ x, Decision (P x)} `{d2 : !∀ rb, Decision (P (rbNamespace rb))}
    subjects R B L O kind role (ns : list string) :
  length (filter (λ rb, P (rbNamespace rb))
            (parser.roleBinding subjects R B L O kind role <$> ns))
  = length (filter P ns).
Proof.
  induction ns as [|n ns IH]; [done|].
  rewrite fmap_cons, !filter_cons.
  destruct (decide (P n)), (decide (P _)); simpl in *; try done; by rewrite IH.
Qed.

Lemma length_filter_roleBindingsOf (P : string → Prop)
    `{d1 : !∀ x, Decision (P x)} `{d2 : !∀ rb, Decision (P (rbNamespace rb))}
    cluster subjects R B L O rb :
  length (filter (λ x, P (rbNamespace x)) (roleBindingsOf cluster subjects R B L O rb))
  = length (filter P (resolved cluster (v1alpha1.RoleBinding.NameSpaceSelector rb)
                        (v1alpha1.RoleBinding.Namespaces rb)))
    * roleFields rb.
Proof.
  unfold roleBindingsOf, roleFields.
  rewrite filter_app, length_app.
  repeat case_bool_decide; rewrite ?(length_filter_roleBinding P); simpl; lia.
Qed.

Lemma Forall_roleBindingsOf_subjects cluster subjects R B L O rbs :
  Forall (λ rb, rbacv1.RoleBinding.Subjects rb = subjects)
    (rbs ≫= roleBindingsOf cluster subjects R B L O).
Proof.
  apply Forall_bind, Forall_forall. intros rb _. unfold roleBindingsOf.
  apply Forall_app. split; case_bool_decide; try apply Forall_nil_2;
    apply Forall_fmap, Forall_forall; done.
Qed.

(** C5 (amended): when the expansion of a binding succeeds, the parser holds,
    for every role binding spec in order, one RoleBinding per entry of the
    spec's resolved namespace list (what the selector matches, then the
    explicit list, duplicates kept) for the clusterRole field if it is set,
    then one per entry for the role field if it is set. Each is written out
    here: its namespace is the entry, its role reference has the kind
    ClusterRole or Role and the name of the field, its name is generated with
    the kind Role in both cases. So a namespace holds as many RoleBindings as
    it occurs in the resolved lists, times the number of fields set (two when
    both are), and every RoleBinding and ClusterRoleBinding lists all the
    expanded subjects of the binding. *)
Theorem C5_role_bindings_per_namespace_and_field b L O R w p w' :
  returns (parser.Parse parser.new b L O R) w (p, None) w' →
  parser.Subjects p = v1alpha1.Binding.Subjects b ≫= subjectsOf (wNamespaces w)
  ∧ parser.Subjects p
    = v1alpha1.Binding.Subjects b
        ≫= (λ s,
              if bool_decide (v1alpha1.Subject.Kind s = "User") then
                [{| rbacv1.Subject.APIGroup := "rbac.authorization.k8s.io";
                    rbacv1.Subject.Kind := "User";
                    rbacv1.Subject.Name := v1alpha1.Subject.Name s;
                    rbacv1.Subject.Namespace := "" |}]
              else if bool_decide (v1alpha1.Subject.Kind s = "Group") then
                [{| rbacv1.Subject.APIGroup := "rbac.authorization.k8s.io";
                    rbacv1.Subject.Kind := "Group";
                    rbacv1.Subject.Name := v1alpha1.Subject.Name s;
                    rbacv1.Subject.Namespace := "" |}]
              else if bool_decide (v1alpha1.Subject.Kind s = "ServiceAccount") then
                (λ n, {| rbacv1.Subject.APIGroup := "";
                         rbacv1.Subject.Kind := "ServiceAccount";
                         rbacv1.Subject.Name := v1alpha1.Subject.Name s;
                         rbacv1.Subject.Namespace := n |})
                  <$> resolved (wNamespaces w) (v1alpha1.Subject.NameSpaceSelector s)
                        (v1alpha1.Subject.Namespaces s)
              else [])
  ∧ parser.RoleBindings p =
    v1alpha1.Binding.RoleBindings b
      ≫= roleBindingsOf (wNamespaces w) (parser.Subjects p) R
           (v1alpha1.Binding.Name b) L O
  ∧ parser.RoleBindings p =
    v1alpha1.Binding.RoleBindings b
      ≫= (λ rb,
            let emit (kind role : string) :=
              (λ n,
                 {| rbacv1.RoleBinding.ObjectMeta :=
                      {| metav1.ObjectMeta.Name :=
                           utils.GenerateName R (v1alpha1.Binding.Name b) "Role" role;
                         metav1.ObjectMeta.Namespace := n;
                         metav1.ObjectMeta.UID := "";
                         metav1.ObjectMeta.Labels := L;
                         metav1.ObjectMeta.OwnerReferences := O;
                         metav1.ObjectMeta.DeletionTimestamp := None;
                         metav1.ObjectMeta.Finalizers := [] |};
                    rbacv1.RoleBinding.Subjects := parser.Subjects p;
                    rbacv1.RoleBinding.RoleRef :=
                      {| rbacv1.RoleRef.APIGroup := "rbac.authorization.k8s.io";
                         rbacv1.RoleRef.Kind := kind;
                         rbacv1.RoleRef.Name := role |} |})
                <$> resolved (wNamespaces w) (v1alpha1.RoleBinding.NameSpaceSelector rb)
                      (v1alpha1.RoleBinding.Namespaces rb) in
            (if bool_decide (v1alpha1.RoleBinding.ClusterRole rb ≠ "")
             then emit "ClusterRole" (v1alpha1.RoleBinding.ClusterRole rb) else [])
            ++ (if bool_decide (v1alpha1.RoleBinding.Role rb ≠ "")
                then emit "Role" (v1alpha1.RoleBinding.Role rb) else []))
  ∧ parser.ClusterRoleBindings p =
    (λ crb,
       {| rbacv1.ClusterRoleBinding.ObjectMeta :=
            {| metav1.ObjectMeta.Name :=
                 utils.GenerateName R (v1alpha1.Binding.Name b) "ClusterRole"
                   (v1alpha1.ClusterRoleBinding.ClusterRole crb);
               metav1.ObjectMeta.Namespace := "";
               metav1.ObjectMeta.UID := "";
               metav1.ObjectMeta.Labels := L;
               metav1.ObjectMeta.OwnerReferences := O;
               metav1.ObjectMeta.DeletionTimestamp := None;
               metav1.ObjectMeta.Finalizers := [] |};
          rbacv1.ClusterRoleBinding.Subjects := parser.Subjects p;
          rbacv1.ClusterRoleBinding.RoleRef :=
            {| rbacv1.RoleRef.APIGroup := "rbac.authorization.k8s.io";
               rbacv1.RoleRef.Kind := "ClusterRole";
               rbacv1.RoleRef.Name := v1alpha1.ClusterRoleBinding.ClusterRole crb |} |})
      <$> v1alpha1.Binding.ClusterRoleBindings b
  ∧ (∀ n, length (filter (λ rb, rbNamespace rb = n) (parser.RoleBindings p))
          = sum_list
              ((λ rb, length (filter (λ m, m = n)
                                (resolved (wNamespaces w)
                                   (v1alpha1.RoleBinding.NameSpaceSelector rb)
                                   (v1alpha1.RoleBinding.Namespaces rb)))
                      * roleFields rb)
                 <$> v1alpha1.Binding.RoleBindings b))
  ∧ length (parser.RoleBindings p)
    = sum_list
        ((λ rb, length (resolved (wNamespaces w)
                          (v1alpha1.RoleBinding.NameSpaceSelector rb)
                          (v1alpha1.RoleBinding.Namespaces rb))
                * roleFields rb)
           <$> v1alpha1.Binding.RoleBindings b)
  ∧ Forall (λ rb, rbacv1.RoleBinding.Subjects rb = parser.Subjects p)
      (parser.RoleBindings p)
  ∧ length (parser.ClusterRoleBindings p)
    = length (v1alpha1.Binding.ClusterRoleBindings b)
  ∧ Forall (λ crb, rbacv1.ClusterRoleBinding.Subjects crb = parser.Subjects p)
      (parser.ClusterRoleBindings p).
Proof.
  intros Hrun.
  destruct (Parse_spec b L O R w) as (p0 & err & w0 & Hrun' & _ & Hok & _).
  unfold returns in Hrun. rewrite Hrun in Hrun'. simplify_eq.
  destruct (Hok eq_refl) as (Hs & Hc & Hr).
  split; [done|]. split; [exact Hs|]. split; [done|]. split; [exact Hr|].
  split; [exact Hc|]. split; [|split; [|split; [|split]]].
  - intros n. rewrite Hr, (length_filter_bind (λ rb, rbNamespace rb = n)).
    f_equal. apply list_fmap_ext. intros _ rb _.
    apply (length_filter_roleBindingsOf (λ m, m = n)).
  - rewrite Hr.
    rewrite <- (filter_all (_ ≫= _)).
    rewrite (length_filter_bind (λ _, True)).
    f_equal. apply list_fmap_ext. intros _ rb _.
    rewrite (length_filter_roleBindingsOf (λ _, True)).
    by rewrite filter_all.
  - rewrite Hr. apply Forall_roleBindingsOf_subjects.
  - by rewrite Hc, length_fmap.
  - rewrite Hc. by apply Forall_fmap, Forall_forall.
Qed.

Lemma namespaces_of_subjectsOf cluster s :
  v1alpha1.Subject.Kind s = v1alpha1.ServiceAccount →
  rbacv1.Subject.Namespace <$> subjectsOf cluster s
  = matching cluster (v1alpha1.Subject.NameSpaceSelector s)
    ++ v1alpha1.Subject.Namespaces s.
Proof.
  intros Hk. unfold subjectsOf, resolved. rewrite Hk.
  rewrite !bool_decide_false, bool_decide_true by done.
  rewrite <- list_fmap_compose. apply list_fmap_id.
Qed.

Lemma namespaces_of_roleBindingsOf cluster subjects R B L O rb :
  rbNamespace <$> roleBindingsOf cluster subjects R B L O rb
  = mjoin (replicate (roleFields rb)
             (matching cluster (v1alpha1.RoleBinding.NameSpaceSelector rb)
              ++ v1alpha1.RoleBinding.Namespaces rb)).
Proof.
  unfold roleBindingsOf, roleFields, resolved. rewrite fmap_app.
  repeat case_bool_decide; simpl; rewrite <- ?list_fmap_compose, ?app_nil_r;
    try done; rewrite ?list_fmap_id; done.
Qed.

(** C6 (amended): the namespaces a ServiceAccount subject or a role binding
    spec is expanded in are the names its selector matches followed by its
    explicit list, as they come: a namespace is in that list exactly when it
    is matched or listed, and it is expanded once for every time it occurs. *)
Theorem C6_namespaces_are_matched_then_listed b L O R w p w' :
  returns (parser.Parse parser.new b L O R) w (p, None) w' →
  parser.Subjects p = v1alpha1.Binding.Subjects b ≫= subjectsOf (wNamespaces w)
  ∧ parser.RoleBindings p =
    v1alpha1.Binding.RoleBindings b
      ≫= roleBindingsOf (wNamespaces w) (parser.Subjects p) R
           (v1alpha1.Binding.Name b) L O
  ∧ (∀ s, v1alpha1.Subject.Kind s = v1alpha1.ServiceAccount →
          rbacv1.Subject.Namespace <$> subjectsOf (wNamespaces w) s
          = matching (wNamespaces w) (v1alpha1.Subject.NameSpaceSelector s)
            ++ v1alpha1.Subject.Namespaces s)
  ∧ (∀ rb, rbNamespace
             <$> roleBindingsOf (wNamespaces w) (parser.Subjects p) R
                   (v1alpha1.Binding.Name b) L O rb
           = mjoin (replicate (roleFields rb)
                      (matching (wNamespaces w)
                         (v1alpha1.RoleBinding.NameSpaceSelector rb)
                       ++ v1alpha1.RoleBinding.Namespaces rb)))
  ∧ (∀ ls explicit n,
       n ∈ resolved (wNamespaces w) ls explicit
       ↔ n ∈ matching (wNamespaces w) ls ∨ n ∈ explicit).
Proof.
  intros Hrun.
  destruct (Parse_spec b L O R w) as (p0 & err & w0 & Hrun' & _ & Hok & _).
  unfold returns in Hrun. rewrite Hrun in Hrun'. simplify_eq.
  destruct (Hok eq_refl) as (Hs & Hc & Hr).
  split; [done|]. split; [done|]. split; [|split].
  - intros s. apply namespaces_of_subjectsOf.
  - intros rb. apply namespaces_of_roleBindingsOf.
  - intros ls explicit n. unfold resolved. apply elem_of_app.
Qed.

(** C7 (amended): the name of every generated RoleBinding is [GenerateName]
    of the rule name, the binding name, the kind ["Role"] and the role or
    clusterRole field it comes from, the name of every generated
    ClusterRoleBinding is [GenerateName] of the rule name, the binding name,
    the kind ["ClusterRole"] and its clusterRole; and expanding the same
    binding in two clusters with the same namespaces gives the same parser
    contents (names, namespaces, subject lists). *)
Theorem C7_generated_names_are_reproducible b L O R w1 w2 p1 p2 w1' w2' :
  wNamespaces w1 = wNamespaces w2 →
  returns (parser.Parse parser.new b L O R) w1 (p1, None) w1' →
  returns (parser.Parse parser.new b L O R) w2 (p2, None) w2' →
  p1 = p2
  ∧ Forall
      (λ rb, ∃ spec role,
         spec ∈ v1alpha1.Binding.RoleBindings b
         ∧ (role = v1alpha1.RoleBinding.Role spec
            ∨ role = v1alpha1.RoleBinding.ClusterRole spec)
         ∧ metav1.ObjectMeta.Name (rbacv1.RoleBinding.ObjectMeta rb)
           = utils.GenerateName R (v1alpha1.Binding.Name b) "Role" role)
      (parser.RoleBindings p1)
  ∧ Forall
      (λ crb, ∃ spec,
         spec ∈ v1alpha1.Binding.ClusterRoleBindings b
         ∧ metav1.ObjectMeta.Name (rbacv1.ClusterRoleBinding.ObjectMeta crb)
           = utils.GenerateName R (v1alpha1.Binding.Name b) "ClusterRole"
               (v1alpha1.ClusterRoleBinding.ClusterRole spec))
      (parser.ClusterRoleBindings p1).
Proof.
  intros Hcl Hrun1 Hrun2.
  destruct (Parse_spec b L O R w1) as (q1 & e1 & v1 & Hq1 & _ & Hok1 & _).
  destruct (Parse_spec b L O R w2) as (q2 & e2 & v2 & Hq2 & _ & Hok2 & _).
  unfold returns in *. rewrite Hrun1 in Hq1. rewrite Hrun2 in Hq2. simplify_eq.
  destruct (Hok1 eq_refl) as (Hs1 & Hc1 & Hr1).
  destruct (Hok2 eq_refl) as (Hs2 & Hc2 & Hr2).
  split; [|split].
  - rewrite <- Hcl in *. rewrite <- Hs1 in Hs2.
    rewrite Hs2, <- Hc1 in Hc2. rewrite Hs2, <- Hr1 in Hr2.
    destruct q1, q2. simpl in *. congruence.
  - rewrite Hr1. apply Forall_bind, Forall_forall. intros spec Hspec.
    unfold roleBindingsOf. apply Forall_app.
    split; case_bool_decide; try apply Forall_nil_2;
      apply Forall_fmap, Forall_forall; intros n _; exists spec; eauto.
  - rewrite Hc1. apply Forall_fmap, Forall_forall. intros spec Hspec. eauto.
Qed.

(** C10 (amended): a selector that is not set, that is, whose match labels
    are the nil map and which has no match expression, resolves to no
    namespace, without asking the cluster, however many namespaces exist. *)
Theorem C10_unset_selector_resolves_to_nothing ls w :
  metav1.LabelSelector.MatchLabels ls = None →
  metav1.LabelSelector.MatchExpressions ls = [] →
  parser.retrieveNamespaces ls w = (Done ([], None), w).
Proof.
  intros Hl He. unfold parser.retrieveNamespaces. by rewrite Hl, He.
Qed.
End Parser.

(** *** The parser on the sample cluster *)

Section ParserExamples.
Import client world expansion.
#[local] Existing Instance sample.syntax.
#[local] Existing Instance sample.names.

(** The scenario of the specification. *)
Example Parse_dev :
  ∃ p,
    (parser.Parse parser.new sample.dev ∅ [] "r" sample.cluster).1 = Done (p, None)
    ∧ parser.Subjects p
      = [parser.serviceAccountSubject "sa1" "ns-1";
         parser.serviceAccountSubject "sa1" "ns-2"]
    ∧ (λ rb, (rbNamespace rb, metav1.ObjectMeta.Name (rbacv1.RoleBinding.ObjectMeta rb),
              rbacv1.RoleBinding.Subjects rb)) <$> parser.RoleBindings p
      = [("team-a", "r-dev-Role-edit", parser.Subjects p)].
Proof. eexists. vm_compute. done. Qed.

Lemma Parse_dev_returns :
  { pw | returns (parser.Parse parser.new sample.dev ∅ [] "r") sample.cluster
           (pw.1, None) pw.2 }.
Proof. eexists (_, _). vm_compute. reflexivity. Defined.

Lemma C5_witness :
  ∃ p w',
    returns (parser.Parse parser.new sample.dev ∅ [] "r") sample.cluster (p, None) w'
    ∧ length (parser.RoleBindings p) = 1
    ∧ Forall (λ rb, rbacv1.RoleBinding.Subjects rb = parser.Subjects p)
        (parser.RoleBindings p).
Proof.
  destruct Parse_dev_returns as [[p w'] Hrun]. simpl in Hrun.
  exists p, w'. split; [exact Hrun|].
  destruct (C5_role_bindings_per_namespace_and_field _ _ _ _ _ _ _ Hrun)
    as (_ & _ & _ & _ & _ & _ & Hlen & Hall & _).
  split; [|exact Hall]. rewrite Hlen. vm_compute. reflexivity.
Defined.

Lemma C6_witness :
  ∃ p w',
    returns (parser.Parse parser.new sample.dev ∅ [] "r") sample.cluster (p, None) w'
    ∧ parser.Subjects p
      = v1alpha1.Binding.Subjects sample.dev ≫= subjectsOf (wNamespaces sample.cluster).
Proof.
  destruct Parse_dev_returns as [[p w'] Hrun]. simpl in Hrun.
  exists p, w'. split; [exact Hrun|].
  exact (proj1 (C6_namespaces_are_matched_then_listed _ _ _ _ _ _ _ Hrun)).
Defined.

(** C5, counterexample: a spec that sets [role: edit] and
    [clusterRole: view] and lists the namespace [team-a] twice is expanded to
    four RoleBindings in [team-a], two per field and not one: the two of a
    field are the same object, so that the list has duplicates. *)
Lemma C5_counterexample_namespace_listed_twice :
  ∃ p,
    (parser.Parse parser.new sample.twice ∅ [] "r" sample.cluster).1 = Done (p, None)
    ∧ (λ rb, (rbNamespace rb,
              rbacv1.RoleRef.Kind (rbacv1.RoleBinding.RoleRef rb),
              rbacv1.RoleRef.Name (rbacv1.RoleBinding.RoleRef rb)))
        <$> parser.RoleBindings p
      = [("team-a", "ClusterRole", "view"); ("team-a", "ClusterRole", "view");
         ("team-a", "Role", "edit"); ("team-a", "Role", "edit")]
    ∧ parser.RoleBindings p !! 0 = parser.RoleBindings p !! 1
    ∧ parser.RoleBindings p !! 2 = parser.RoleBindings p !! 3
    ∧ ¬ NoDup (parser.RoleBindings p).
Proof.
  eexists. split; [vm_compute; reflexivity|]. split; [reflexivity|].
  split; [reflexivity|]. split; [reflexivity|].
  intros Hnd. apply NoDup_cons in Hnd as [Hnotin _]. apply Hnotin.
  apply list_elem_of_here.
Qed.

(** C6, counterexample: a ServiceAccount with the explicit namespace [ns-1]
    and a selector that matches [ns-1] and [ns-2] is expanded in [ns-1],
    [ns-2] and [ns-1] again: nothing removes the duplicate. *)
Lemma C6_counterexample_duplicate_namespace :
  ∃ p,
    (parser.Parse parser.new sample.overlap ∅ [] "r" sample.cluster).1
      = Done (p, None)
    ∧ rbacv1.Subject.Namespace <$> parser.Subjects p = ["ns-1"; "ns-2"; "ns-1"]
    ∧ ¬ NoDup (parser.Subjects p).
Proof.
  eexists. split; [vm_compute; reflexivity|]. split; [reflexivity|].
  intros Hnd. apply NoDup_cons in Hnd as [Hnotin _]. apply Hnotin.
  apply elem_of_cons. right. apply elem_of_cons. by left.
Qed.

Lemma C7_witness :
  ∃ p w',
    returns (parser.Parse parser.new sample.dev ∅ [] "r") sample.cluster (p, None) w'
    ∧ Forall
        (λ rb, ∃ spec role,
           spec ∈ v1alpha1.Binding.RoleBindings sample.dev
           ∧ (role = v1alpha1.RoleBinding.Role spec
              ∨ role = v1alpha1.RoleBinding.ClusterRole spec)
           ∧ metav1.ObjectMeta.Name (rbacv1.RoleBinding.ObjectMeta rb)
             = utils.GenerateName "r" (v1alpha1.Binding.Name sample.dev) "Role" role)
        (parser.RoleBindings p).
Proof.
  destruct Parse_dev_returns as [[p w'] Hrun]. simpl in Hrun.
  exists p, w'. split; [exact Hrun|].
  exact (proj1 (proj2 (C7_generated_names_are_reproducible _ _ _ _ _ _ _ _ _ _
                         eq_refl Hrun Hrun))).
Defined.

(** C7, counterexample: a spec whose role and clusterRole are both [edit]
    yields, in the one namespace [team-a], two different RoleBindings (one
    refers to the ClusterRole, the other to the Role) with the same name. *)
Lemma C7_counterexample_name_collision :
  ∃ p rb1 rb2,
    (parser.Parse parser.new sample.both ∅ [] "r" sample.cluster).1 = Done (p, None)
    ∧ parser.RoleBindings p = [rb1; rb2]
    ∧ rb1 ≠ rb2
    ∧ metav1.ObjectMeta.Name (rbacv1.RoleBinding.ObjectMeta rb1)
      = metav1.ObjectMeta.Name (rbacv1.RoleBinding.ObjectMeta rb2)
    ∧ rbNamespace rb1 = rbNamespace rb2.
Proof.
  eexists _, _, _. split; [vm_compute; reflexivity|].
  split; [reflexivity|]. split; [|split; reflexivity]. discriminate.
Qed.

Lemma C10_witness :
  parser.retrieveNamespaces metav1.LabelSelector.zero sample.cluster
  = (Done ([], None), sample.cluster).
Proof.
  exact (C10_unset_selector_resolves_to_nothing metav1.LabelSelector.zero
           sample.cluster eq_refl eq_refl).
Defined.

(** C10, counterexample: a selector with a match labels map that has no
    entry, and no match expression, resolves to every namespace of the
    cluster. *)
Lemma C10_counterexample_empty_matchLabels :
  metav1.LabelSelector.lenMatchLabels (sample.matchLabels (Some ∅)) = 0
  ∧ metav1.LabelSelector.MatchExpressions (sample.matchLabels (Some ∅)) = []
  ∧ (parser.retrieveNamespaces (sample.matchLabels (Some ∅)) sample.cluster).1
    = Done (["ns-1"; "ns-2"; "team-a"], None).
Proof. repeat split. Qed.
End ParserExamples.

(** ** The reconciler: what a pass writes *)

Section Generates.
Import client world.

Lemma keeps_bind_post {B C : Type} (R : relation World) `{!Transitive R}
    (Q : B → Prop) (c : M B) (f : B → M C) :
  keeps R c → post c Q → (∀ a, Q a → keeps R (f a)) → keeps R (c ≫= f).
Proof.
  intros Hc HQ Hf w. unfold mbind, M_bind.
  specialize (Hc w). specialize (HQ w).
  destruct (c w) as [[a|msg] w1]; simpl in *; [|done].
  etrans; [exact Hc | by apply Hf, (HQ a w1)].
Qed.

Lemma fresh_refl (A : Type) `{Object A} P w : fresh A P w w.
Proof. intros x Hx. left. by apply list_elem_of_fmap_2. Qed.

Lemma fresh_trans (A : Type) `{Object A} P w1 w2 w3 :
  fresh A P w1 w2 → fresh A P w2 w3 → fresh A P w1 w3.
Proof.
  intros H12 H23 x Hx. destruct (H23 x Hx) as [Hin|HP]; [|by right].
  apply list_elem_of_fmap in Hin as (y & -> & Hy). apply H12, Hy.
Qed.

Lemma fresh_same (A : Type) `{Object A} P w w' :
  objects (A := A) w' = objects w → fresh A P w w'.
Proof. intros Heq x Hx. left. rewrite Heq in Hx. by apply list_elem_of_fmap_2. Qed.

#[global] Instance generates_refl P : Reflexive (generates P).
Proof. intros w. repeat split; apply fresh_refl. Qed.

#[global] Instance generates_trans P : Transitive (generates P).
Proof.
  intros w1 w2 w3 (?&?&?&?&?) (?&?&?&?&?).
  repeat split; eapply fresh_trans; eauto.
Qed.

Lemma generates_same P w w' :
  wNamespaces w' = wNamespaces w → wServiceAccounts w' = wServiceAccounts w →
  wRoleBindings w' = wRoleBindings w →
  wClusterRoleBindings w' = wClusterRoleBindings w →
  wRBACRules w' = wRBACRules w →
  generates P w w'.
Proof. intros. repeat split; by apply fresh_same. Qed.

Lemma onlyRequests_generates P w w' : onlyRequests w w' → generates P w w'.
Proof. intros (?&?&?&?&?&_). by apply generates_same. Qed.

(** *** What the client operations do to the stores *)

Section Operations.
Context {A : Type} `{Stored A}.
Context (P : kind → descr → Prop).

Lemma elem_of_replaceKey (x y : A) l : y ∈ replaceKey x l → y ∈ l ∨ y = x.
Proof.
  induction l as [|z l IH]; simpl; [by left|].
  case_bool_decide.
  - intros [->|Hy]%elem_of_cons; [by right | left; by apply elem_of_cons; right].
  - intros [->|Hy]%elem_of_cons; [left; by apply elem_of_cons; left|].
    destruct (IH Hy) as [?|?]; [left; by apply elem_of_cons; right | by right].
Qed.

Lemma elem_of_removeKey k (y : A) l : y ∈ removeKey k l → y ∈ l.
Proof. unfold removeKey. by intros [_ ?]%list_elem_of_filter. Qed.

Lemma lookupKey_Some k (l : list A) x : lookupKey k l = Some x → x ∈ l ∧ keyOf x = k.
Proof.
  unfold lookupKey. intros Hh%head_Some_elem_of.
  apply list_elem_of_filter in Hh. tauto.
Qed.

Lemma generates_bind {B C : Type} (c : M B) (f : B → M C) :
  keeps (generates P) c → (∀ a, keeps (generates P) (f a)) →
  keeps (generates P) (c ≫= f).
Proof. apply keeps_bind, _. Qed.

Lemma generates_ret {B : Type} (a : B) : keeps (generates P) (mret a).
Proof. apply keeps_ret, _. Qed.

Lemma generates_read {B : Type} (f : World → B) : keeps (generates P) (read f).
Proof. apply keeps_read, _. Qed.

Lemma generates_panic {B : Type} msg : keeps (generates P) (panic (A := B) msg).
Proof. apply keeps_panic, _. Qed.

Lemma keeps_request : keeps (generates P) request.
Proof. intros w. apply onlyRequests_generates, request_onlyRequests. Qed.

Lemma keeps_Now : keeps (generates P) Now.
Proof. intros w. by apply generates_same. Qed.

Lemma keeps_Until t : keeps (generates P) (Until t).
Proof. apply generates_bind; [apply keeps_Now | intros; apply generates_ret]. Qed.

Lemma keeps_LogInfo msg : keeps (generates P) (LogInfo msg).
Proof. intros w. by apply generates_same. Qed.

Lemma keeps_LogError e msg : keeps (generates P) (LogError e msg).
Proof. intros w. by apply generates_same. Qed.

Lemma keeps_setObjects (l : World → list A) :
  (∀ w x, x ∈ l w → describe x ∈ describe <$> objects (A := A) w ∨ P tag (describe x)) →
  keeps (generates P) (modify (λ w, setObjects (l w) w)).
Proof. intros Hl w. apply generates_set. apply Hl. Qed.

Lemma keeps_Get k : keeps (generates P) (Get (A := A) k).
Proof.
  unfold Get. apply generates_bind; [apply keeps_request|]. intros [e|].
  - apply generates_ret.
  - apply generates_bind; [apply generates_read|]. intros l.
    destruct (lookupKey k l); apply generates_ret.
Qed.

Lemma keeps_List sel : keeps (generates P) (List (A := A) sel).
Proof.
  unfold List. apply generates_bind; [apply keeps_request|]. intros [e|].
  - apply generates_ret.
  - apply generates_bind; [apply generates_read|]. intros l. apply generates_ret.
Qed.

(** A request that replaces the store of [A] by [l'], where [l] is the store
    as it was read. *)
Lemma keeps_store (l l' : list A) w :
  objects w = l →
  (∀ x, x ∈ l' → describe x ∈ describe <$> l ∨ P tag (describe x)) →
  generates P w (modify (setObjects l') w).2.
Proof. intros <- Hl. by apply generates_set. Qed.

Lemma generates_Create (x : A) w :
  P tag (describe x) → generates P w (Create x w).2.
Proof.
  intros HP. unfold Create, mbind, M_bind.
  pose proof (request_onlyRequests w) as Hreq.
  destruct (request w) as [[[e|]|msg] w1]; simpl in *;
    try by apply onlyRequests_generates.
  unfold read. destruct (lookupKey (keyOf x) (objects w1)); simpl;
    [by apply onlyRequests_generates|].
  etrans; [by apply onlyRequests_generates|].
  apply generates_set. intros y [Hy| ->%list_elem_of_singleton]%elem_of_app;
    [left; by apply list_elem_of_fmap_2 | by right].
Qed.

Lemma generates_Update (x : A) w :
  P tag (describe x) → generates P w (Update x w).2.
Proof.
  intros HP. unfold Update, mbind, M_bind.
  pose proof (request_onlyRequests w) as Hreq.
  destruct (request w) as [[[e|]|msg] w1]; simpl in *;
    try by apply onlyRequests_generates.
  unfold read. destruct (lookupKey (keyOf x) (objects w1)) as [stored|]; simpl;
    [|by apply onlyRequests_generates].
  etrans; [by apply onlyRequests_generates|].
  apply generates_set. intros y Hy.
  assert (Hy' : y ∈ objects w1 ∨ y = applyUpdate stored x).
  { destruct (finalized _); [left; by eapply elem_of_removeKey|].
    by apply elem_of_replaceKey. }
  destruct Hy' as [Hy'| ->]; [left; by apply list_elem_of_fmap_2|].
  right. unfold describe. by rewrite meta_update.
Qed.

Lemma generates_Delete (x : A) w : generates P w (Delete x w).2.
Proof.
  unfold Delete, mbind, M_bind.
  pose proof (request_onlyRequests w) as Hreq.
  destruct (request w) as [[[e|]|msg] w1]; simpl in *;
    try by apply onlyRequests_generates.
  unfold read. destruct (lookupKey (keyOf x) (objects w1)) as [stored|] eqn:Hl; simpl;
    [|by apply onlyRequests_generates].
  etrans; [by apply onlyRequests_generates|].
  apply lookupKey_Some in Hl as [Hin _].
  case_bool_decide; simpl.
  - apply generates_set. intros y Hy%elem_of_removeKey. left.
    by apply list_elem_of_fmap_2.
  - apply generates_set. intros y [Hy| ->]%elem_of_replaceKey; left.
    + by apply list_elem_of_fmap_2.
    + apply list_elem_of_fmap. exists stored. split; [|done].
      unfold describe. by rewrite meta_set.
Qed.

Lemma keeps_Create (x : A) : P tag (describe x) → keeps (generates P) (Create x).
Proof. intros HP w. by apply generates_Create. Qed.

Lemma keeps_Update (x : A) : P tag (describe x) → keeps (generates P) (Update x).
Proof. intros HP w. by apply generates_Update. Qed.

Lemma keeps_Delete (x : A) : keeps (generates P) (Delete x).
Proof. intros w. apply generates_Delete. Qed.

Lemma keeps_createOrUpdate (x : A) :
  P tag (describe x) → keeps (generates P) (controller.createOrUpdate x).
Proof.
  intros HP. unfold controller.createOrUpdate.
  apply generates_bind; [by apply keeps_Create|]. intros [e|]; [|apply generates_ret].
  destruct (apierrors.IsAlreadyExists e); [|apply generates_ret].
  apply generates_bind; [by apply keeps_Update|]. intros [? ?]. apply generates_ret.
Qed.
End Operations.

(** *** What the reconciler does to the stores *)

Section Reconciler.
Context `{validation.LabelSyntax} `{utils.Names} `{constants.Labels}.
Context (P : kind → descr → Prop).
Context (L : gmap string string) (O : list metav1.OwnerReference.t).
Hypothesis P_namespace : ∀ n, P KNamespace ("", n, ∅, O).
Hypothesis P_serviceAccount : ∀ ns n, P KServiceAccount (ns, n, L, O).
Hypothesis P_roleBinding : ∀ ns n, P KRoleBinding (ns, n, L, O).
Hypothesis P_clusterRoleBinding : ∀ n, P KClusterRoleBinding ("", n, L, O).
Hypothesis P_rule : ∀ d, P KRBACRule d.

Ltac keeps_step :=
  lazymatch goal with
  | |- keeps _ (mret _) => apply generates_ret
  | |- keeps _ (read _) => apply generates_read
  | |- keeps _ (panic _) => apply generates_panic
  | |- keeps _ request => apply keeps_request
  | |- keeps _ Now => apply keeps_Now
  | |- keeps _ (Until _) => apply keeps_Until
  | |- keeps _ (LogInfo _) => apply keeps_LogInfo
  | |- keeps _ (LogError _ _) => apply keeps_LogError
  | |- keeps _ (Get _) => apply keeps_Get
  | |- keeps _ (List _) => apply keeps_List
  | |- keeps _ (Delete _) => apply keeps_Delete
  | |- keeps _ (Create _) => apply keeps_Create
  | |- keeps _ (Update _) => apply keeps_Update
  | |- keeps _ (controller.createOrUpdate _) => apply keeps_createOrUpdate
  | |- keeps _ (mbind _ _) => apply generates_bind; [|intros ?]
  | |- keeps _ (match ?x with _ => _ end) => destruct x
  end.

Lemma keeps_StatusUpdate x : keeps (generates P) (StatusUpdate x).
Proof.
  intros w. unfold StatusUpdate, mbind, M_bind.
  pose proof (request_onlyRequests w) as Hreq.
  destruct (request w) as [[[e|]|msg] w1]; simpl in *;
    try by apply onlyRequests_generates.
  unfold read. destruct (lookupKey (keyOf x) (wRBACRules w1)) as [stored|] eqn:Hl; simpl;
    [|by apply onlyRequests_generates].
  etrans; [by apply onlyRequests_generates|].
  apply lookupKey_Some in Hl as [Hin _].
  refine (generates_set (A := v1alpha1.RBACRule.t) P w1 (replaceKey _ _) _).
  intros y [Hy| ->]%elem_of_replaceKey; left.
  - by apply list_elem_of_fmap_2.
  - apply list_elem_of_fmap. by exists stored.
Qed.

Lemma keeps_slices_Delete s i j : keeps (generates P) (slices.Delete s i j).
Proof. unfold slices.Delete. repeat keeps_step. Qed.

Lemma keeps_checkNamespace name : keeps (generates P) (controller.checkNamespace name O).
Proof.
  unfold controller.checkNamespace. repeat keeps_step. apply P_namespace.
Qed.

Lemma keeps_createSA name ns : keeps (generates P) (controller.createSA name ns L O).
Proof. apply keeps_createOrUpdate, P_serviceAccount. Qed.

Lemma keeps_reconcileSubjects subjects :
  keeps (generates P) (controller.reconcileSubjects subjects L O).
Proof.
  induction subjects as [|s rest IH]; simpl; [apply generates_ret|].
  destruct (bool_decide _); [|done].
  apply generates_bind; [apply keeps_checkNamespace|]. intros [e|]; [by repeat keeps_step|].
  apply generates_bind; [apply keeps_createSA|]. intros [e|]; [by repeat keeps_step|].
  done.
Qed.

Lemma keeps_reconcileClusterRoleBindings crbs : ∀ rule,
  Forall (λ crb, P KClusterRoleBinding (describe crb)) crbs →
  keeps (generates P) (controller.reconcileClusterRoleBindings crbs rule).
Proof.
  induction crbs as [|crb rest IH]; intros rule Hall; simpl; [apply generates_ret|].
  apply Forall_cons in Hall as [Hcrb Hrest].
  apply generates_bind; [by apply keeps_createOrUpdate|]. intros [e|]; [by repeat keeps_step|].
  destruct (bool_decide _); [|by apply IH].
  apply generates_bind; [apply keeps_StatusUpdate|]. intros [rule' [e|]].
  - by repeat keeps_step.
  - by apply IH.
Qed.

Lemma keeps_reconcileRoleBindings rbs : ∀ rule,
  Forall (λ rb, P KRoleBinding (describe rb)) rbs →
  keeps (generates P) (controller.reconcileRoleBindings rbs rule).
Proof.
  induction rbs as [|rb rest IH]; intros rule Hall; simpl; [apply generates_ret|].
  apply Forall_cons in Hall as [Hrb Hrest].
  apply generates_bind; [by apply keeps_createOrUpdate|]. intros [e|]; [by repeat keeps_step|].
  destruct (bool_decide _); [|by apply IH].
  apply generates_bind; [apply keeps_StatusUpdate|]. intros [rule' [e|]].
  - by repeat keeps_step.
  - by apply IH.
Qed.

Lemma keeps_reconcileParsed p rule :
  Forall (λ crb, P KClusterRoleBinding (describe crb)) (parser.ClusterRoleBindings p) →
  Forall (λ rb, P KRoleBinding (describe rb)) (parser.RoleBindings p) →
  keeps (generates P) (controller.reconcileParsed p rule L O).
Proof.
  intros Hc Hr. unfold controller.reconcileParsed.
  apply generates_bind; [apply keeps_reconcileSubjects|]. intros [r|]; [apply generates_ret|].
  apply generates_bind; [by apply keeps_reconcileClusterRoleBindings|].
  intros [rule' [r|]]; [apply generates_ret|]. by apply keeps_reconcileRoleBindings.
Qed.

Lemma keeps_Parse b R : keeps (generates P) (parser.Parse parser.new b L O R).
Proof.
  intros w. destruct (Parse_spec b L O R w) as (p & err & w' & -> & Hw & _).
  by apply onlyRequests_generates.
Qed.

Lemma Parse_generated b R :
  post (parser.Parse parser.new b L O R)
    (λ r, Forall (λ crb, P KClusterRoleBinding (describe crb))
            (parser.ClusterRoleBindings r.1)
          ∧ Forall (λ rb, P KRoleBinding (describe rb)) (parser.RoleBindings r.1)).
Proof.
  intros w [p err] w' Hrun. simpl.
  destruct (Parse_spec b L O R w) as (p0 & err0 & w0 & Hrun' & _ & Hok & Hko).
  rewrite Hrun in Hrun'. simplify_eq.
  assert (Hrbs : ∀ l subjects,
    Forall (λ rb : rbacv1.RoleBinding.t, P KRoleBinding (describe rb))
      (l ≫= expansion.roleBindingsOf (wNamespaces w) subjects R
              (v1alpha1.Binding.Name b) L O)).
  { intros l subjects. apply Forall_bind, Forall_forall. intros spec _.
    unfold expansion.roleBindingsOf. apply Forall_app.
    split; case_bool_decide; try apply Forall_nil_2;
      apply Forall_fmap, Forall_forall; intros n _; apply P_roleBinding. }
  assert (Hcrbs : ∀ l subjects,
    Forall (λ crb : rbacv1.ClusterRoleBinding.t, P KClusterRoleBinding (describe crb))
      (parser.clusterRoleBinding subjects R (v1alpha1.Binding.Name b) L O <$> l)).
  { intros l subjects. apply Forall_fmap, Forall_forall. intros spec _.
    apply P_clusterRoleBinding. }
  destruct err0 as [e|].
  - destruct Hko as [(pre & s & post & _ & _ & _ & -> & ->)
                    |(pre & rb & post & _ & _ & -> & ->)]; [done| |]; auto.
  - destruct (Hok eq_refl) as (_ & -> & ->). auto.
Qed.

Lemma keeps_reconcileBindings bindings : ∀ rule,
  keeps (generates P) (controller.reconcileBindings bindings rule L O).
Proof.
  induction bindings as [|b rest IH]; intros rule; simpl; [apply generates_ret|].
  eapply keeps_bind_post; [apply _ | apply keeps_Parse | apply Parse_generated |].
  intros [p err] [Hc Hr]. simpl in *.
  apply generates_bind; [destruct err; by repeat keeps_step|]. intros _.
  apply generates_bind; [by apply keeps_reconcileParsed|].
  intros [rule' [r|]]; [apply generates_ret | apply IH].
Qed.

Lemma keeps_deleteServiceAccountItems items :
  keeps (generates P) (controller.deleteServiceAccountItems items).
Proof.
  induction items as [|sa rest IH]; simpl; [apply generates_ret|].
  apply generates_bind; [apply keeps_Delete|]. intros [e|]; [|done].
  destruct (negb _); [by repeat keeps_step | done].
Qed.

Lemma keeps_deleteServiceAccounts ls :
  keeps (generates P) (controller.deleteServiceAccounts ls).
Proof.
  unfold controller.deleteServiceAccounts.
  apply generates_bind; [apply keeps_List|]. intros [items|e].
  - apply keeps_deleteServiceAccountItems.
  - by repeat keeps_step.
Qed.

Lemma keeps_deleteRoleBindingItems items : ∀ rule,
  keeps (generates P) (controller.deleteRoleBindingItems items rule).
Proof.
  induction items as [|rb rest IH]; intros rule; simpl; [apply generates_ret|].
  apply generates_bind; [apply keeps_Delete|]. intros [e|]; [by repeat keeps_step|].
  apply generates_bind; [apply keeps_slices_Delete|]. intros s.
  apply generates_bind; [apply keeps_Update, P_rule|]. intros [rule' [e|]].
  - by repeat keeps_step.
  - apply IH.
Qed.

Lemma keeps_deleteClusterRoleBindingItems items : ∀ rule,
  keeps (generates P) (controller.deleteClusterRoleBindingItems items rule).
Proof.
  induction items as [|crb rest IH]; intros rule; simpl; [apply generates_ret|].
  apply generates_bind; [apply keeps_Delete|]. intros [e|]; [by repeat keeps_step|].
  apply generates_bind; [apply keeps_slices_Delete|]. intros s.
  apply generates_bind; [apply keeps_Update, P_rule|]. intros [rule' [e|]].
  - by repeat keeps_step.
  - apply IH.
Qed.

Lemma keeps_deleteBindings rule ls :
  keeps (generates P) (controller.deleteBindings rule ls).
Proof.
  unfold controller.deleteBindings.
  apply generates_bind.
  - destruct (bool_decide _); [|apply generates_ret].
    apply generates_bind; [apply keeps_List|]. intros [items|e].
    + apply keeps_deleteRoleBindingItems.
    + by repeat keeps_step.
  - intros [rule' [e|]]; [apply generates_ret|].
    destruct (bool_decide _); [|apply generates_ret].
    apply generates_bind; [apply keeps_List|]. intros [items|e].
    + apply keeps_deleteClusterRoleBindingItems.
    + by repeat keeps_step.
Qed.

Lemma keeps_reconcileDelete rule :
  keeps (generates P) (controller.reconcileDelete rule).
Proof.
  unfold controller.reconcileDelete.
  apply generates_bind; [apply keeps_LogInfo|]. intros _.
  apply generates_bind.
  - destruct (controllerutil.ContainsFinalizer _ _); [|apply generates_ret].
    apply generates_bind; [apply keeps_deleteBindings|]. intros [rule' [e|]].
    + by repeat keeps_step.
    + apply generates_bind; [apply keeps_deleteServiceAccounts|].
      intros [e|]; by repeat keeps_step.
  - intros [rule' [e|]]; [apply generates_ret|].
    apply generates_bind; [apply keeps_Update, P_rule|].
    intros [? [e|]]; by repeat keeps_step.
Qed.

Lemma keeps_setAndAfterNow t : keeps (generates P) (controller.setAndAfterNow t).
Proof. unfold controller.setAndAfterNow. by repeat keeps_step. Qed.

Lemma keeps_reconcileEnd rule : keeps (generates P) (controller.reconcileEnd rule).
Proof.
  unfold controller.reconcileEnd.
  apply generates_bind; [apply keeps_setAndAfterNow|]. intros [|].
  - by repeat keeps_step.
  - by repeat keeps_step.
Qed.
End Reconciler.

Section Reconcile.
Context `{validation.LabelSyntax} `{utils.Names} `{constants.Labels}.

Lemma Get_key {A : Type} `{Stored A} k :
  post (Get (A := A) k) (λ r, ∀ x, r = inl x → keyOf x = k).
Proof.
  intros w r w'. unfold Get, mbind, M_bind, request, read, mret, M_ret.
  destruct (wFaults w) as [|[e|] fs]; simpl;
    try destruct (lookupKey k _) eqn:Hl; intros [= <- _] x [= <-];
    by apply lookupKey_Some in Hl as [_ ?].
Qed.

Lemma Update_meta {A : Type} `{Stored A} (x : A) :
  post (Update x) (λ r, GetObjectMeta r.1 = GetObjectMeta x).
Proof.
  intros w r w'. unfold Update, mbind, M_bind, request, read, modify, mret, M_ret.
  destruct (wFaults w) as [|[e|] fs]; simpl;
    try destruct (lookupKey (keyOf x) _) eqn:Hl; intros [= <- _]; simpl;
    by rewrite ?meta_update.
Qed.

Lemma keeps_Reconcile req :
  keeps (generates (ownedBy req.2)) (controller.Reconcile req).
Proof.
  unfold controller.Reconcile.
  eapply keeps_bind_post; [apply _ | apply keeps_Get | apply Get_key |].
  intros [rule|e] Hkey.
  { specialize (Hkey rule eq_refl).
    assert (Hname : controller.ruleName rule = req.2) by (by rewrite <- Hkey).
    clear Hkey.
    eapply keeps_bind_post with (Q := λ r, controller.ruleName r.1 = req.2);
      [apply _ | | |].
    - destruct (_ && _); [|apply generates_ret].
      apply generates_bind; [by apply keeps_Update|].
      intros [rule' [e|]]; [|apply generates_ret].
      apply generates_bind; [apply keeps_LogError | intros; apply generates_ret].
    - intros w r w'. destruct (_ && _).
      + intros ([rule' err] & w1 & Hup & Hrest)%bind_returns.
        apply Update_meta in Hup. simpl in Hup.
        assert (Hr : r.1 = rule').
        { unfold returns, mbind, M_bind, LogError, modify, mret, M_ret in Hrest.
          destruct err; simpl in Hrest; by simplify_eq. }
        rewrite Hr. unfold controller.ruleName. rewrite Hup.
        unfold controllerutil.AddFinalizer. by destruct (controllerutil.ContainsFinalizer _ _).
      + by intros [<- _]%ret_returns.
    - intros [rule' err] Hn. simpl in Hn. destruct err as [e|]; [apply generates_ret|].
      destruct (bool_decide _).
      { apply generates_bind; [by apply keeps_reconcileDelete|].
        intros; apply generates_ret. }
      apply generates_bind; [apply keeps_setAndAfterNow|]. intros [|].
      { apply generates_bind; [apply keeps_Until|]. intros.
        apply generates_bind; [apply keeps_LogInfo|]. intros. apply generates_ret. }
      apply generates_bind.
      + apply keeps_reconcileBindings; intros; simpl;
          unfold controller.ownershipLabels, controller.controllerRef, labelsOf,
            ownersOf, controller.ruleName in *;
          simpl; by rewrite Hn.
      + intros [rule'' [r|]]; [apply generates_ret|]. by apply keeps_reconcileEnd. }
  destruct (apierrors.IsNotFound e); [|apply generates_ret].
  apply generates_bind; [apply keeps_LogInfo | intros; apply generates_ret].
Qed.

(** C4 (amended): whatever a pass of [Reconcile] for the rule named [req.2]
    creates or rewrites among ServiceAccounts, RoleBindings and
    ClusterRoleBindings carries exactly the ownership label with the name of
    the rule as its value, and an owner reference to the rule; a Namespace
    created on demand carries the owner reference and no label. *)
Theorem C4_generated_objects_carry_the_rule_name req w :
  generates (ownedBy req.2) w (controller.Reconcile req w).2.
Proof. apply keeps_Reconcile. Qed.
End Reconcile.
End Generates.

(** ** The reconciler: a rule that is not active yet *)

Section Pending.
Import client world.
Context `{validation.LabelSyntax} `{utils.Names} `{constants.Labels}.

Lemma bind_run {A B : Type} (c : M A) (f : A → M B) w :
  (c ≫= f) w
  = match c w with
    | (Done a, w') => f a w'
    | (Panic msg, w') => (Panic msg, w')
    end.
Proof. done. Qed.

Lemma ret_run {A : Type} (a : A) w : (mret a : M A) w = (Done a, w).
Proof. done. Qed.

Lemma read_run {A : Type} (f : World → A) w : read f w = (Done (f w), w).
Proof. done. Qed.

Ltac run := repeat (progress (rewrite ?bind_run, ?ret_run, ?read_run; cbv beta iota)).

Lemma request_None w :
  (∀ f, head (wFaults w) = Some f → f = None) →
  ∃ w1, request w = (Done None, w1) ∧ onlyRequests w w1
        ∧ wFaults w1 = tail (wFaults w).
Proof.
  intros Hf. unfold request. destruct (wFaults w) as [|f fs] eqn:Hw.
  - exists w. by rewrite Hw.
  - rewrite (Hf f eq_refl). eexists. split; [done|]. by split.
Qed.

Lemma keyOf_withMeta rule m :
  metav1.ObjectMeta.Name m = metav1.ObjectMeta.Name (v1alpha1.RBACRule.ObjectMeta rule) →
  metav1.ObjectMeta.Namespace m
  = metav1.ObjectMeta.Namespace (v1alpha1.RBACRule.ObjectMeta rule) →
  keyOf (v1alpha1.RBACRule.withMeta rule m) = keyOf rule.
Proof. intros Hn Hns. unfold keyOf. simpl. by rewrite Hn, Hns. Qed.

Lemma Sub_clamp (t u : time.Time) :
  time.Sub t u
  = Z.max (-9223372036854775808) (Z.min 9223372036854775807 (t - u)).
Proof.
  unfold time.Sub, time.minDuration, time.maxDuration.
  repeat case_bool_decide; lia.
Qed.

(** C9 (amended): a pass for a rule that is in the store, is not being
    deleted and whose startTime is set and later than the clock, when neither
    the read of the rule nor the write of its finalizer fails: it returns
    without error and without the requeue flag, logs that it waits, and asks
    to be run again after startTime minus the second reading of the clock
    (the one taken by [time.Until]); that difference is cut to the int64
    range of a Duration, so that the wake-up comes before startTime when
    startTime is more than 2^63-1 ns ahead, and is zero or negative when the
    clock passed startTime between the two readings. The Namespaces,
    ServiceAccounts, RoleBindings and ClusterRoleBindings of the cluster are
    left as they were. *)
Theorem C9_pending_rule_waits_until_startTime req rule w :
  lookupKey req (wRBACRules w) = Some rule →
  metav1.ObjectMeta.DeletionTimestamp (v1alpha1.RBACRule.ObjectMeta rule) = None →
  v1alpha1.RBACRuleSpec.StartTime (v1alpha1.RBACRule.Spec rule) ≠ time.zero →
  (wClock w (wTicks w)
   < v1alpha1.RBACRuleSpec.StartTime (v1alpha1.RBACRule.Spec rule))%Z →
  (∀ f, f ∈ take 2 (wFaults w) → f = None) →
  ∃ w',
    controller.Reconcile req w
    = (Done ({| ctrl.Result.Requeue := false;
                ctrl.Result.RequeueAfter :=
                  Z.max (-9223372036854775808)
                    (Z.min 9223372036854775807
                       (v1alpha1.RBACRuleSpec.StartTime (v1alpha1.RBACRule.Spec rule)
                        - wClock w (S (wTicks w)))) |},
             None), w')
    ∧ sameGenerated w w'
    ∧ wLog w'
      = wLog w ++ [logr.Info "Rule shouldn't be active yet , waiting for start time"].
Proof.
  intros Hrule Hdel Hset Hfuture Hfaults.
  set (start := v1alpha1.RBACRuleSpec.StartTime (v1alpha1.RBACRule.Spec rule)) in *.
  destruct (request_None w) as (w1 & Hreq1 & Hw1 & Hf1).
  { intros f Hf. apply Hfaults. destruct (wFaults w); simplify_eq/=. apply list_elem_of_here. }
  assert (Hgate : ∀ (r : v1alpha1.RBACRule.t) v,
    v1alpha1.RBACRule.Spec r = v1alpha1.RBACRule.Spec rule →
    metav1.ObjectMeta.DeletionTimestamp (v1alpha1.RBACRule.ObjectMeta r) = None →
    wClock v = wClock w → wTicks v = wTicks w → wLog v = wLog w → sameGenerated w v →
    ∃ w',
      (if bool_decide (metav1.ObjectMeta.DeletionTimestamp
                         (v1alpha1.RBACRule.ObjectMeta r) ≠ None)
       then err ← controller.reconcileDelete r; mret (ctrl.noRequeue, err)
       else
         pending ← controller.setAndAfterNow
                     (v1alpha1.RBACRuleSpec.StartTime (v1alpha1.RBACRule.Spec r));
         if (pending : bool) then
           period ← Until (v1alpha1.RBACRuleSpec.StartTime (v1alpha1.RBACRule.Spec r));
           LogInfo "Rule shouldn't be active yet , waiting for start time";;
           mret (ctrl.requeueAfter period, None)
         else
           '(RBACRule, ret) ←
             controller.reconcileBindings
               (v1alpha1.RBACRuleSpec.Bindings (v1alpha1.RBACRule.Spec r))
               r (controller.ownershipLabels r) (controller.controllerRef r);
           match ret with
           | Some r => mret r
           | None => controller.reconcileEnd RBACRule
           end) v
      = (Done ({| ctrl.Result.Requeue := false;
                  ctrl.Result.RequeueAfter :=
                    Z.max (-9223372036854775808)
                      (Z.min 9223372036854775807 (start - wClock w (S (wTicks w)))) |},
               None), w')
      ∧ sameGenerated w w'
      ∧ wLog w'
        = wLog w ++ [logr.Info "Rule shouldn't be active yet , waiting for start time"]).
  { intros r v Hspec Hd Hclock Hticks Hlog Hsame.
    rewrite bool_decide_false by (by rewrite Hd; intros ?).
    rewrite Hspec. fold start.
    unfold controller.setAndAfterNow, time.IsZeroValue.
    rewrite bool_decide_false by done.
    unfold Until, Now, LogInfo, modify, mbind, M_bind, mret, M_ret, time.After. simpl.
    rewrite Hclock, Hticks, bool_decide_true by done. simpl.
    rewrite Hclock, Hlog, Sub_clamp. eexists. split; [done|]. split; [exact Hsame | done]. }
  assert (Hlog1 : wLog w1 = wLog w) by apply Hw1.
  unfold controller.Reconcile, Get.
  run. rewrite Hreq1. run.
  assert (Hr1 : wRBACRules w1 = wRBACRules w) by apply Hw1.
  change (objects (A := v1alpha1.RBACRule.t) w1) with (wRBACRules w1).
  rewrite Hr1, Hrule. run.
  rewrite Hdel, bool_decide_true by done.
  assert (Hsame1 : sameGenerated w w1).
  { destruct Hw1 as (?&?&?&?&_). by repeat split. }
  destruct (controllerutil.ContainsFinalizer _ _) eqn:Hfin; cbn [andb negb].
  - run. apply Hgate; try done; apply Hw1.
  - destruct (request_None w1) as (w2 & Hreq2 & Hw2 & _).
    { intros f Hf. apply Hfaults. rewrite Hf1 in Hf.
      destruct (wFaults w) as [|f0 [|f1 fs]]; simplify_eq/=.
      apply list_elem_of_further, list_elem_of_here. }
    set (rule' := v1alpha1.RBACRule.withMeta rule _).
    assert (Hkey : keyOf rule' = req).
    { apply lookupKey_Some in Hrule as [_ <-]. apply keyOf_withMeta;
        unfold controllerutil.AddFinalizer; by rewrite Hfin. }
    unfold Update. run. rewrite Hreq2. run.
    assert (Hr2 : wRBACRules w2 = wRBACRules w) by (rewrite <- Hr1; apply Hw2).
    change (objects (A := v1alpha1.RBACRule.t) w2) with (wRBACRules w2).
    rewrite Hkey, Hr2, Hrule.
    assert (Hnf : finalized (applyUpdate rule rule') = false).
    { unfold finalized. simpl. unfold controllerutil.AddFinalizer. rewrite Hfin.
      simpl. by rewrite Hdel. }
    rewrite Hnf. unfold modify. run.
    apply Hgate; simpl.
    + done.
    + unfold controllerutil.AddFinalizer. by rewrite Hfin.
    + etrans; [apply Hw2 | apply Hw1].
    + etrans; [apply Hw2 | apply Hw1].
    + etrans; [apply Hw2 | apply Hw1].
    + destruct Hw2 as (?&?&?&?&_), Hsame1 as (?&?&?&?). repeat split; simpl; congruence.
Qed.

(** What the end of a pass does with [endTime]: a set [endTime] that the
    clock has not reached deletes nothing; the pass logs that the rule will
    be scheduled for deletion and asks, without the requeue flag, to be run
    again after [endTime] minus the second reading of the clock, cut to the
    int64 range of a Duration. Nothing but the clock and the log changes. *)
Lemma reconcileEnd_future rule w :
  v1alpha1.RBACRuleSpec.EndTime (v1alpha1.RBACRule.Spec rule) ≠ time.zero →
  (wClock w (wTicks w)
   < v1alpha1.RBACRuleSpec.EndTime (v1alpha1.RBACRule.Spec rule))%Z →
  controller.reconcileEnd rule w
  = (Done ({| ctrl.Result.Requeue := false;
              ctrl.Result.RequeueAfter :=
                Z.max (-9223372036854775808)
                  (Z.min 9223372036854775807
                     (v1alpha1.RBACRuleSpec.EndTime (v1alpha1.RBACRule.Spec rule)
                      - wClock w (S (wTicks w)))) |},
           None),
     setLog (wLog w ++ [logr.Info "Rule will be scheduled for deletion"])
       (setTicks (S (S (wTicks w))) w)).
Proof.
  intros Hset Hfuture.
  unfold controller.reconcileEnd, controller.setAndAfterNow, time.IsZeroValue.
  rewrite bool_decide_false by done.
  unfold Until, Now, LogInfo, modify, time.After. run.
  rewrite bool_decide_true by done. run. simpl. by rewrite Sub_clamp.
Qed.

(** An [endTime] that is not set is before every reading of the clock: the
    pass goes on to delete the rule. *)
Lemma reconcileEnd_unset rule w :
  v1alpha1.RBACRuleSpec.EndTime (v1alpha1.RBACRule.Spec rule) = time.zero →
  (0 < wClock w (wTicks w))%Z →
  controller.reconcileEnd rule w
  = (err ← Delete rule;
     match err with
     | Some e => LogError e "error deleting resource";; mret (ctrl.noRequeue, None)
     | None => mret (ctrl.noRequeue, None)
     end) (setTicks (S (wTicks w)) w).
Proof.
  intros Hunset Hnow.
  unfold controller.reconcileEnd, controller.setAndAfterNow, time.IsZeroValue.
  rewrite Hunset, bool_decide_true by done.
  unfold Now, time.Before, time.zero. run. by rewrite bool_decide_true.
Qed.
End Pending.

(** ** The reconciler on the sample cluster *)

Section ReconcilerExamples.
Import client world expansion sample.
#[local] Existing Instance sample.syntax.
#[local] Existing Instance sample.names.
#[local] Existing Instance sample.ownership.

(** The value the sweep selects is never the value put on the generated
    objects. *)
Lemma length_append (a b : string) :
  String.length (a +:+ b) = String.length a + String.length b.
Proof. induction a as [|c a IH]; simpl; [done | by rewrite IH]. Qed.

Lemma sweep_value_differs (rule : v1alpha1.RBACRule.t) :
  strings.Join [controller.ruleName rule; controller.ruleNamespace rule] "-"
  ≠ controller.ruleName rule.
Proof.
  intros Heq. apply (f_equal String.length) in Heq. simpl in Heq.
  rewrite !length_append in Heq. simpl in Heq. lia.
Qed.

(** C1: a rule that binds a user and a ServiceAccount is reconciled, then
    deleted; the next pass succeeds and removes the finalizer, so that the
    rule is gone, while every ServiceAccount, RoleBinding and
    ClusterRoleBinding generated for it is still there with its ownership
    label: the sweep selects the value ["r-"], the objects carry ["r"]. *)
Theorem C1_deletion_pass_leaves_the_labelled_objects :
  let created := (controller.Reconcile request (install (rule [access] 0%Z 5000%Z))).2 in
  let deleting := (Delete (rule [access] 0%Z 5000%Z) created).2 in
  let swept := controller.Reconcile request deleting in
  metav1.ObjectMeta.DeletionTimestamp
    <$> (v1alpha1.RBACRule.ObjectMeta <$> wRBACRules deleting) = [Some 1002%Z]
  ∧ controller.sweepSelector (rule [access] 0%Z 5000%Z)
    = labels.SelectorFromSet {[ constants.RBACRuleLabel := "r-" ]}
  ∧ swept.1 = Done (ctrl.noRequeue, None)
  ∧ wRBACRules swept.2 = []
  ∧ labelled (wServiceAccounts swept.2)
    = [("team-a", "sa1", Some "r"); ("fresh", "sa1", Some "r")]
  ∧ labelled (wRoleBindings swept.2) = [("team-a", "r-b-Role-edit", Some "r")]
  ∧ labelled (wClusterRoleBindings swept.2) = [("", "r-b-ClusterRole-view", Some "r")].
Proof. vm_compute. repeat split. Qed.

(** C3: a rule without startTime and without endTime is reconciled once: the
    pass ends by deleting the rule, which from then on carries a deletion
    timestamp. *)
Theorem C3_rule_without_endTime_is_deleted :
  let out := controller.Reconcile request (install (rule [] 0%Z 0%Z)) in
  v1alpha1.RBACRuleSpec.EndTime (v1alpha1.RBACRule.Spec (rule [] 0%Z 0%Z)) = time.zero
  ∧ out.1 = Done (ctrl.noRequeue, None)
  ∧ (λ r, metav1.ObjectMeta.DeletionTimestamp (v1alpha1.RBACRule.ObjectMeta r))
      <$> wRBACRules out.2 = [Some 1001%Z].
Proof. vm_compute. repeat split. Qed.

(** C4, counterexample: the pass creates the namespace [fresh] for a
    ServiceAccount; the namespace carries no ownership label. *)
Lemma C4_counterexample_namespace_without_label :
  let out := controller.Reconcile request (install (rule [access] 0%Z 5000%Z)) in
  labelled (wNamespaces (install (rule [access] 0%Z 5000%Z)))
  = [("", "ns-1", None); ("", "ns-2", None); ("", "team-a", None)]
  ∧ labelled (wNamespaces out.2)
    = [("", "ns-1", None); ("", "ns-2", None); ("", "team-a", None);
       ("", "fresh", None)].
Proof. vm_compute. repeat split. Qed.


Lemma C9_witness :
  ∃ w',
    controller.Reconcile request (install (rule [access] 1010%Z 5000%Z))
    = (Done ({| ctrl.Result.Requeue := false; ctrl.Result.RequeueAfter := 9%Z |},
             None), w')
    ∧ sameGenerated (install (rule [access] 1010%Z 5000%Z)) w'
    ∧ wLog w' = [logr.Info "Rule shouldn't be active yet , waiting for start time"].
Proof.
  apply (C9_pending_rule_waits_until_startTime request (rule [access] 1010%Z 5000%Z)
           (install (rule [access] 1010%Z 5000%Z))).
  - reflexivity.
  - reflexivity.
  - discriminate.
  - vm_compute. reflexivity.
  - intros f Hf. vm_compute in Hf. by apply elem_of_nil in Hf.
Defined.

(** C9, counterexample: a startTime 10^19 ns after the zero time, read at the
    clock times 1000 and 1001: the remaining duration does not fit a
    Duration, and the pass asks to be run again after 2^63-1 ns, which is
    before startTime. *)
Lemma C9_counterexample_wake_up_before_startTime :
  let start := 10000000000000000000%Z in
  let w := install (rule [access] start (start + 5000)%Z) in
  let out := controller.Reconcile request w in
  (wClock w (wTicks w) < start)%Z
  ∧ out.1
    = Done ({| ctrl.Result.Requeue := false;
               ctrl.Result.RequeueAfter := 9223372036854775807%Z |}, None)
  ∧ (start - wClock w (S (wTicks w)) = 9999999999999998999)%Z
  ∧ (9223372036854775807 < start - wClock w (S (wTicks w)))%Z.
Proof. vm_compute. repeat split. Qed.
End ReconcilerExamples.

(** * Further properties *)

Ltac runs := repeat (progress (rewrite ?bind_run, ?ret_run, ?read_run; cbv beta iota)).

(** ** Operations that always end *)

Section Ensures.
Import client world store.

Lemma ensures_ret {A : Type} (Q : A → Prop) a : Q a → ensures (mret a) Q.
Proof. intros HQ w. by exists a, w. Qed.

Lemma ensures_bind {A B : Type} (Q1 : A → Prop) (Q : B → Prop) (c : M A) (f : A → M B) :
  ensures c Q1 → (∀ a, Q1 a → ensures (f a) Q) → ensures (c ≫= f) Q.
Proof.
  intros Hc Hf w. destruct (Hc w) as (a & w1 & Hrun & Ha).
  destruct (Hf a Ha w1) as (b & w2 & Hrun2 & Hb).
  exists b, w2. by rewrite bind_run, Hrun.
Qed.

Lemma ensures_weaken {A : Type} (Q1 Q : A → Prop) (c : M A) :
  ensures c Q1 → (∀ a, Q1 a → Q a) → ensures c Q.
Proof. intros Hc HQ w. destruct (Hc w) as (a & w' & Hrun & Ha). eauto. Qed.

Lemma ensures_post {A : Type} (Q : A → Prop) (c : M A) :
  ensures c (λ _, True) → post c Q → ensures c Q.
Proof. intros Hc HQ w. destruct (Hc w) as (a & w' & Hrun & _). eauto. Qed.

Lemma ensures_drop {A : Type} (Q : A → Prop) (c : M A) :
  ensures c Q → ensures c (λ _, True).
Proof. intros Hc. by eapply ensures_weaken. Qed.

Ltac ends :=
  intros w; unfold request, modify; runs;
  repeat (case_match; simplify_eq; runs); eauto.

Lemma LogInfo_ends msg : ensures (LogInfo msg) (λ _, True).
Proof. unfold LogInfo. ends. Qed.

Lemma LogError_ends e msg : ensures (LogError e msg) (λ _, True).
Proof. unfold LogError. ends. Qed.

Lemma Now_ends : ensures Now (λ _, True).
Proof. intros w. unfold Now. eauto. Qed.

Context {A : Type} `{Object A}.

Lemma Get_ends k : ensures (Get (A := A) k) (λ _, True).
Proof. unfold Get. ends. Qed.

Lemma List_ends sel : ensures (List (A := A) sel) (λ _, True).
Proof. unfold List. ends. Qed.

Lemma Create_ends (x : A) : ensures (Create x) (λ _, True).
Proof. unfold Create. ends. Qed.

Lemma Update_ends (x : A) : ensures (Update x) (λ _, True).
Proof. unfold Update. ends. Qed.

Lemma Delete_ends (x : A) : ensures (Delete x) (λ _, True).
Proof. unfold Delete. ends. Qed.

Lemma createOrUpdate_ends (x : A) : ensures (controller.createOrUpdate x) (λ _, True).
Proof.
  unfold controller.createOrUpdate.
  eapply ensures_bind; [apply Create_ends|]. intros [e|] _; [|by apply ensures_ret].
  destruct (apierrors.IsAlreadyExists e); [|by apply ensures_ret].
  eapply ensures_bind; [apply Update_ends|]. intros [? ?] _. by apply ensures_ret.
Qed.
End Ensures.

(** ** The parser *)

Section ParserMore.
Import client world expansion store shape.
Context `{validation.LabelSyntax} `{utils.Names}.

Lemma Parse_ends b L O R : ensures (parser.Parse parser.new b L O R) (λ _, True).
Proof.
  intros w. destruct (Parse_spec b L O R w) as (p & err & w' & Hrun & _).
  by exists (p, err), w'.
Qed.

(** X1: [Parse] only reads: for every binding and every cluster it ends
    normally, and nothing but the list of pending request failures differs
    afterwards. *)
Theorem Parse_only_reads b L O R w :
  ∃ p err w',
    parser.Parse parser.new b L O R w = (Done (p, err), w') ∧ onlyRequests w w'.
Proof.
  destruct (Parse_spec b L O R w) as (p & err & w' & Hrun & Hw & _).
  by exists p, err, w'.
Qed.

(** X2: [retrieveNamespaces] answers with an error exactly when the
    selector is set and either cannot be converted or the list request
    fails. *)
Theorem retrieveNamespaces_fails_iff ls w :
  (∃ ns e w', parser.retrieveNamespaces ls w = (Done (ns, Some e), w'))
  ↔ (0 < length (metav1.LabelSelector.MatchExpressions ls)
     ∨ metav1.LabelSelector.MatchLabels ls ≠ None)
    ∧ ((∃ e, metav1.LabelSelectorAsSelector ls = inr e)
       ∨ (∃ e fs, wFaults w = Some e :: fs)).
Proof.
  unfold parser.retrieveNamespaces.
  destruct (bool_decide (0 < _) || bool_decide _) eqn:Hg.
  - apply orb_true_iff in Hg.
    assert (Hguard : 0 < length (metav1.LabelSelector.MatchExpressions ls)
                     ∨ metav1.LabelSelector.MatchLabels ls ≠ None).
    { destruct Hg as [Hg|Hg]; apply bool_decide_eq_true in Hg; auto. }
    destruct (metav1.LabelSelectorAsSelector ls) as [sel|e].
    + unfold List. runs. unfold request.
      destruct (wFaults w) as [|[e|] fs] eqn:Hf; runs;
        (split; [intros (? & ? & ? & ?) | intros (_ & [[? ?]|(? & ? & ?)])];
         simplify_eq; eauto 10).
    + split; [|by eauto]. intros _. split; [done|]. left. eauto.
  - apply orb_false_iff in Hg as [Hg1 Hg2].
    apply bool_decide_eq_false in Hg1, Hg2.
    split; [intros (? & ? & ? & [=])|]. intros ([?|?] & _); done.
Qed.

Lemma subjectsOf_emitted cluster (l : list v1alpha1.Subject.t) :
  Forall emitted (l ≫= subjectsOf cluster).
Proof.
  apply Forall_bind, Forall_forall. intros s _. unfold compose, subjectsOf.
  repeat case_bool_decide;
    first [ apply Forall_nil_2
          | apply Forall_singleton; left; by auto
          | apply Forall_fmap, Forall_forall; intros n _; right; by auto ].
Qed.

(** X3: [Parse] always ends, and whatever the binding declares and however
    the expansion ends, the subjects of the parser are users and groups of
    the RBAC API group without a namespace, and ServiceAccounts of the core
    group; a declared subject of any other kind leaves no trace. *)
Theorem Parse_subject_kinds b L O R :
  ensures (parser.Parse parser.new b L O R)
    (λ r, Forall emitted (parser.Subjects r.1)).
Proof.
  intros w.
  destruct (Parse_spec b L O R w) as (p & err & w' & Hrun & _ & Hok & Hko).
  exists (p, err), w'. split; [done|]. simpl. destruct err as [e|].
  - destruct Hko as [(pre & s & post & _ & _ & -> & _)
                    |(pre & rb & post & _ & -> & _)]; [done| |];
      apply subjectsOf_emitted.
  - destruct (Hok eq_refl) as (-> & _). apply subjectsOf_emitted.
Qed.

Lemma retrieveNamespaces_unset ls w :
  unset ls → parser.retrieveNamespaces ls w = (Done ([], None), w).
Proof. intros [Hl He]. unfold parser.retrieveNamespaces. by rewrite Hl, He. Qed.

Lemma matching_unset cluster ls : unset ls → matching cluster ls = [].
Proof. intros [Hl He]. unfold matching. by rewrite Hl, He. Qed.

Lemma subjectsOf_unset cluster s :
  (v1alpha1.Subject.Kind s = v1alpha1.ServiceAccount →
   unset (v1alpha1.Subject.NameSpaceSelector s)) →
  subjectsOf cluster s = subjectsOf [] s.
Proof.
  intros Hs. unfold subjectsOf, resolved. repeat case_bool_decide; try done.
  by rewrite !matching_unset by auto.
Qed.

Lemma roleBindingsOf_unset cluster subjects R B L O rb :
  unset (v1alpha1.RoleBinding.NameSpaceSelector rb) →
  roleBindingsOf cluster subjects R B L O rb = roleBindingsOf [] subjects R B L O rb.
Proof. intros Hs. unfold roleBindingsOf, resolved. by rewrite !matching_unset. Qed.

Lemma parseSubjects_unset subjects : ∀ p L O w,
  Forall (λ s, v1alpha1.Subject.Kind s = v1alpha1.ServiceAccount →
               unset (v1alpha1.Subject.NameSpaceSelector s)) subjects →
  parser.parseSubjects p subjects L O w
  = (Done (parser.appendSubjects p (subjects ≫= subjectsOf []), None), w).
Proof.
  induction subjects as [|s rest IH]; intros p L O w Hall.
  - simpl. by rewrite appendSubjects_nil.
  - apply Forall_cons in Hall as [Hs Hrest].
    cbn [parser.parseSubjects]. rewrite bind_cons, <- appendSubjects_app.
    unfold subjectsOf at 1, resolved. repeat case_bool_decide.
    + by apply IH.
    + by apply IH.
    + rewrite bind_run, retrieveNamespaces_unset by auto.
      cbv beta iota. rewrite foldl_appendSubjects, IH by done.
      by rewrite matching_unset by auto.
    + rewrite appendSubjects_nil. by apply IH.
Qed.

Lemma parseRBs_unset R B L O RBs : ∀ p w,
  Forall (λ rb, unset (v1alpha1.RoleBinding.NameSpaceSelector rb)) RBs →
  parser.parseRBs p R B RBs L O w
  = (Done ({| parser.Subjects := parser.Subjects p;
              parser.RoleBindings :=
                parser.RoleBindings p
                ++ (RBs ≫= roleBindingsOf [] (parser.Subjects p) R B L O);
              parser.ClusterRoleBindings := parser.ClusterRoleBindings p |},
           None), w).
Proof.
  induction RBs as [|rb rest IH]; intros p w Hall.
  - simpl. rewrite app_nil_r. by destruct p.
  - apply Forall_cons in Hall as [Hrb Hrest].
    cbn [parser.parseRBs]. rewrite bind_run, retrieveNamespaces_unset by done.
    cbv beta iota. rewrite IH by done. rewrite bind_cons.
    unfold roleBindingsOf at 2, resolved. rewrite matching_unset by done.
    repeat case_bool_decide; rewrite ?emitRoleBindings_spec; simpl;
      rewrite ?app_nil_r, <- ?app_assoc; done.
Qed.

(** X4: a binding none of whose ServiceAccount subjects and role binding
    specs sets a selector is expanded without asking the cluster: [Parse]
    cannot fail, leaves the world as it is (pending request failures
    included), and its result is the one it would give in a cluster without
    namespaces. *)
Theorem Parse_without_selectors b L O R w :
  Forall (λ s, v1alpha1.Subject.Kind s = v1alpha1.ServiceAccount →
               unset (v1alpha1.Subject.NameSpaceSelector s))
    (v1alpha1.Binding.Subjects b) →
  Forall (λ rb, unset (v1alpha1.RoleBinding.NameSpaceSelector rb))
    (v1alpha1.Binding.RoleBindings b) →
  ∃ p,
    parser.Parse parser.new b L O R w = (Done (p, None), w)
    ∧ parser.Subjects p = v1alpha1.Binding.Subjects b ≫= subjectsOf []
    ∧ parser.ClusterRoleBindings p
      = (parser.clusterRoleBinding (parser.Subjects p) R (v1alpha1.Binding.Name b) L O
           <$> v1alpha1.Binding.ClusterRoleBindings b)
    ∧ parser.RoleBindings p
      = v1alpha1.Binding.RoleBindings b
          ≫= roleBindingsOf [] (parser.Subjects p) R (v1alpha1.Binding.Name b) L O.
Proof.
  intros Hsub Hrbs. unfold parser.Parse.
  assert (Hs : (if bool_decide (0 < length (v1alpha1.Binding.Subjects b))
                then parser.parseSubjects parser.new (v1alpha1.Binding.Subjects b) L O
                else mret (parser.new, None)) w
               = (Done (parser.appendSubjects parser.new
                          (v1alpha1.Binding.Subjects b ≫= subjectsOf []), None), w)).
  { case_bool_decide as Hlen; [by apply parseSubjects_unset|].
    destruct (v1alpha1.Binding.Subjects b); simpl in *; [done | lia]. }
  rewrite bind_run, Hs. cbv beta iota. clear Hs.
  set (subs := v1alpha1.Binding.Subjects b ≫= subjectsOf []).
  set (p2 := if bool_decide (0 < length (v1alpha1.Binding.ClusterRoleBindings b))
             then _ else _).
  assert (Hp2 : p2 = {| parser.Subjects := subs; parser.RoleBindings := [];
                        parser.ClusterRoleBindings :=
                          parser.clusterRoleBinding subs R (v1alpha1.Binding.Name b) L O
                            <$> v1alpha1.Binding.ClusterRoleBindings b |}).
  { subst p2. case_bool_decide as Hlen; [by rewrite parseCRBs_spec|].
    destruct (v1alpha1.Binding.ClusterRoleBindings b); simpl in *; [done | lia]. }
  rewrite Hp2. clear Hp2 p2.
  case_bool_decide as Hlen.
  - rewrite parseRBs_unset by done. eexists. split; [done|]. done.
  - eexists. split; [done|]. simpl.
    destruct (v1alpha1.Binding.RoleBindings b); simpl in *; [done | lia].
Qed.
End ParserMore.

(** ** Create-or-update *)

Section Upsert.
Import client world store.
Context {A : Type} `{Stored A} `{!Laws A}.

Lemma request_quiet w : wFaults w = [] → request w = (Done None, w).
Proof. intros Hf. unfold request. by rewrite Hf. Qed.

Lemma lookupKey_app_None k (l : list A) x :
  lookupKey k l = None → lookupKey k (l ++ [x]) = lookupKey k [x].
Proof.
  unfold lookupKey. rewrite filter_app. intros Hh.
  destruct (filter _ l); [done | discriminate].
Qed.

Lemma lookupKey_singleton (x : A) : lookupKey (keyOf x) [x] = Some x.
Proof. unfold lookupKey. rewrite filter_cons, decide_True by done. done. Qed.

Lemma lookupKey_singleton_ne k (x : A) : k ≠ keyOf x → lookupKey k [x] = None.
Proof.
  intros Hk. unfold lookupKey. rewrite filter_cons, decide_False by done. done.
Qed.

Lemma lookupKey_replaceKey (x : A) l :
  is_Some (lookupKey (keyOf x) l) → lookupKey (keyOf x) (replaceKey x l) = Some x.
Proof.
  unfold lookupKey. induction l as [|y l IH]; simpl.
  - by intros [? ?].
  - rewrite filter_cons. case_bool_decide as Hk.
    + intros _. rewrite filter_cons, decide_True by done. done.
    + rewrite decide_False by done. intros Hs.
      rewrite filter_cons, decide_False by done. by apply IH.
Qed.

Lemma lookupKey_replaceKey_ne k (x : A) l :
  k ≠ keyOf x → lookupKey k (replaceKey x l) = lookupKey k l.
Proof.
  intros Hk. unfold lookupKey. induction l as [|y l IH]; simpl; [done|].
  case_bool_decide as Hy.
  - rewrite !filter_cons, !decide_False by congruence. done.
  - rewrite !filter_cons. destruct (decide (keyOf y = k)); simpl; by rewrite ?IH.
Qed.

Lemma replaceKey_id (x : A) l : lookupKey (keyOf x) l = Some x → replaceKey x l = l.
Proof.
  unfold lookupKey. induction l as [|y l IH]; simpl; [done|].
  rewrite filter_cons. case_bool_decide as Hk.
  - rewrite decide_True by done. by intros [= ->].
  - rewrite decide_False by done. intros Hl. by rewrite IH.
Qed.

Lemma keyOf_applyUpdate (s x : A) : keyOf (applyUpdate s x) = keyOf x.
Proof. unfold keyOf. by rewrite meta_update. Qed.

Lemma finalized_applyUpdate (s x : A) :
  metav1.ObjectMeta.DeletionTimestamp (GetObjectMeta x) = None →
  finalized (applyUpdate s x) = false.
Proof. intros Hd. unfold finalized. by rewrite meta_update, Hd. Qed.

Lemma createOrUpdate_spec (x : A) w :
  wFaults w = [] →
  metav1.ObjectMeta.DeletionTimestamp (GetObjectMeta x) = None →
  ∃ w',
    controller.createOrUpdate x w = (Done None, w')
    ∧ lookupKey (keyOf x) (objects w')
      = Some (match lookupKey (keyOf x) (objects w) with
              | Some stored => applyUpdate stored x
              | None => x
              end)
    ∧ (∀ k, k ≠ keyOf x → lookupKey k (objects (A := A) w') = lookupKey k (objects w))
    ∧ wFaults w' = [].
Proof.
  intros Hf Hd. unfold controller.createOrUpdate, Create. runs.
  rewrite request_quiet by done. runs.
  destruct (lookupKey (keyOf x) (objects w)) as [stored|] eqn:Hl; runs.
  - cbn [apierrors.IsAlreadyExists]. unfold Update. runs.
    rewrite request_quiet by done. runs. rewrite Hl.
    rewrite finalized_applyUpdate by done. unfold modify. runs.
    eexists. split; [done|]. rewrite objects_set, faults_set.
    split; [|split; [|done]].
    + rewrite <- (keyOf_applyUpdate stored x). apply lookupKey_replaceKey.
      rewrite keyOf_applyUpdate. by rewrite Hl.
    + intros k Hk. apply lookupKey_replaceKey_ne. by rewrite keyOf_applyUpdate.
  - unfold modify. runs. eexists. split; [done|]. rewrite objects_set, faults_set.
    split; [|split; [|done]].
    + rewrite lookupKey_app_None by done. apply lookupKey_singleton.
    + intros k Hk. unfold lookupKey. rewrite filter_app, filter_cons, decide_False by done.
      by rewrite filter_nil, app_nil_r.
Qed.

(** X11: create-or-update, the body of [createSA], [createCRB] and
    [createCR], is an upsert: when no request fails and the object is not
    being deleted, it succeeds, the store then answers the object's key with
    the object (as an update leaves it, when the key was taken), and every
    other key as before. *)
Theorem createOrUpdate_upserts (x : A) w :
  wFaults w = [] →
  metav1.ObjectMeta.DeletionTimestamp (GetObjectMeta x) = None →
  ∃ w',
    controller.createOrUpdate x w = (Done None, w')
    ∧ lookupKey (keyOf x) (objects w')
      = Some (match lookupKey (keyOf x) (objects w) with
              | Some stored => applyUpdate stored x
              | None => x
              end)
    ∧ (∀ k, k ≠ keyOf x → lookupKey k (objects (A := A) w') = lookupKey k (objects w))
    ∧ wFaults w' = [].
Proof. apply createOrUpdate_spec. Qed.

(** X12: for a kind whose updates replace the stored object, a second
    create-or-update of the same object changes nothing. *)
Theorem createOrUpdate_twice (x : A) w :
  wFaults w = [] →
  metav1.ObjectMeta.DeletionTimestamp (GetObjectMeta x) = None →
  (∀ stored, applyUpdate stored x = x) →
  ∃ w',
    controller.createOrUpdate x w = (Done None, w')
    ∧ controller.createOrUpdate x w' = (Done None, w').
Proof.
  intros Hf Hd Hup.
  destruct (createOrUpdate_spec x w Hf Hd) as (w' & Hrun & Hl & _ & Hf').
  exists w'. split; [done|].
  assert (Hx : lookupKey (keyOf x) (objects w') = Some x).
  { destruct (lookupKey (keyOf x) (objects w)); by rewrite ?Hup in Hl. }
  clear Hrun Hl.
  unfold controller.createOrUpdate, Create. runs.
  rewrite request_quiet by done. runs. rewrite Hx. runs.
  cbn [apierrors.IsAlreadyExists]. unfold Update. runs.
  rewrite request_quiet by done. runs. rewrite Hx, Hup.
  rewrite <- (Hup x) at 1. rewrite finalized_applyUpdate by done.
  unfold modify. runs. by rewrite replaceKey_id, set_objects.
Qed.
End Upsert.

(** ** A binding that cannot be expanded *)

Section Applied.
Import client world expansion store applying.
Context `{validation.LabelSyntax} `{utils.Names} `{constants.Labels}.













End Applied.

(** ** The reconciler *)

Section Slices.
Lemma Index_notin (s : list string) v : v ∉ s → slices.Index s v = (-1)%Z.
Proof.
  induction s as [|x s IH]; simpl; [done|].
  intros Hnotin. apply not_elem_of_cons in Hnotin as [Hne Hs].
  rewrite bool_decide_false by done. rewrite IH by done. done.
Qed.

Lemma Index_in (s : list string) v : v ∈ s → (0 ≤ slices.Index s v)%Z.
Proof.
  induction s as [|x s IH]; simpl; [by intros ?%elem_of_nil|].
  case_bool_decide; [lia|]. intros [?|Hin]%elem_of_cons; [done|].
  specialize (IH Hin). rewrite bool_decide_false by lia. lia.
Qed.

Lemma Index_missing_iff (s : list string) v : slices.Index s v = (-1)%Z ↔ v ∉ s.
Proof.
  split; [|apply Index_notin]. intros Hi Hin. apply Index_in in Hin. lia.
Qed.

Lemma Index_found (s : list string) v : slices.Index s v ≠ (-1)%Z → v ∈ s.
Proof.
  intros Hi. destruct (decide (v ∈ s)) as [|Hn]; [done|].
  by apply Index_notin in Hn.
Qed.
End Slices.

Section ReconcilerMore.
Import client world expansion store bookkeeping.
Context `{validation.LabelSyntax} `{utils.Names} `{constants.Labels}.

Lemma sweepSelector_spec (rule : v1alpha1.RBACRule.t) (ls : gmap string string) :
  labels.Matches (controller.sweepSelector rule) ls = true
  ↔ ls !! constants.RBACRuleLabel
    = Some (controller.ruleName rule +:+ "-" +:+ controller.ruleNamespace rule).
Proof.
  unfold controller.sweepSelector, labels.SelectorFromSet.
  rewrite map_to_list_singleton. simpl.
  unfold labels.requirementMatches, labels.hasValue. simpl.
  destruct (ls !! constants.RBACRuleLabel) as [v|]; simpl.
  - rewrite andb_true_r, bool_decide_eq_true, list_elem_of_singleton.
    split; [by intros -> | by intros [= ->]].
  - split; discriminate.
Qed.

(** X5: the deletion sweep selects exactly the label sets whose ownership
    label has the value [Name-Namespace]. *)
Theorem sweepSelector_matches (rule : v1alpha1.RBACRule.t) (ls : gmap string string) :
  labels.Matches (controller.sweepSelector rule) ls = true
  ↔ ls !! constants.RBACRuleLabel
    = Some (controller.ruleName rule +:+ "-" +:+ controller.ruleNamespace rule).
Proof. apply sweepSelector_spec. Qed.

(** X6: the labels [Reconcile] puts on the objects it generates for a
    rule are never selected by the deletion sweep of that rule. *)
Theorem sweepSelector_misses_ownershipLabels (rule : v1alpha1.RBACRule.t) :
  labels.Matches (controller.sweepSelector rule) (controller.ownershipLabels rule)
  = false.
Proof.
  apply not_true_is_false. rewrite sweepSelector_spec.
  unfold controller.ownershipLabels. rewrite lookup_singleton_eq.
  intros [= Heq]. apply (f_equal String.length) in Heq.
  rewrite !length_append in Heq. simpl in Heq. lia.
Qed.

(** X7: a pass for a rule that is not in the store succeeds, says so in the
    log, and writes nothing. *)
Theorem Reconcile_rule_not_found req w :
  lookupKey req (wRBACRules w) = None →
  (∀ f, head (wFaults w) = Some f → f = None) →
  ∃ w',
    controller.Reconcile req w = (Done (ctrl.noRequeue, None), w')
    ∧ sameGenerated w w'
    ∧ wRBACRules w' = wRBACRules w
    ∧ wLog w' = wLog w ++ [logr.Info "Rule might been deleted"].
Proof.
  intros Hnone Hf.
  destruct (request_None w Hf) as (w1 & Hreq & Hw1 & _).
  unfold controller.Reconcile, Get. runs. rewrite Hreq. runs.
  change (objects (A := v1alpha1.RBACRule.t) w1) with (wRBACRules w1).
  assert (Hr : wRBACRules w1 = wRBACRules w) by apply Hw1.
  rewrite Hr, Hnone. runs. simpl apierrors.IsNotFound. cbv iota.
  unfold LogInfo, modify. runs. eexists. split; [done|].
  destruct Hw1 as (?&?&?&?&?&?&?&Hlog).
  split; [by split; [|split; [|split]]|]. split; [done|]. simpl. by rewrite Hlog.
Qed.

(** X8: when the read of the rule itself fails, the pass stops there: a
    failure that counts as not-found is a success with a line in the log, any
    other failure is handed to the caller, and nothing is written. *)
Theorem Reconcile_read_failure req w e fs :
  wFaults w = Some e :: fs →
  controller.Reconcile req w
  = if apierrors.IsNotFound e
    then (Done (ctrl.noRequeue, None),
          setLog (wLog w ++ [logr.Info "Rule might been deleted"]) (setFaults fs w))
    else (Done (ctrl.noRequeue, Some e), setFaults fs w).
Proof.
  intros Hf. unfold controller.Reconcile, Get. runs. unfold request. rewrite Hf. runs.
  destruct (apierrors.IsNotFound e); [|done].
  unfold LogInfo, modify. by runs.
Qed.

(** X9: when the write that attaches the finalizer fails, the pass returns
    that error after logging it; no object is read or written after it. *)
Theorem Reconcile_finalizer_write_failure req rule w e fs :
  lookupKey req (wRBACRules w) = Some rule →
  metav1.ObjectMeta.DeletionTimestamp (v1alpha1.RBACRule.ObjectMeta rule) = None →
  controllerutil.ContainsFinalizer (v1alpha1.RBACRule.ObjectMeta rule)
    controller.RBACRuleFinalizer = false →
  wFaults w = None :: Some e :: fs →
  controller.Reconcile req w
  = (Done (ctrl.noRequeue, Some e),
     setLog (wLog w ++ [logr.Error e "failed to add finalizer"]) (setFaults fs w)).
Proof.
  intros Hrule Hdel Hfin Hf.
  unfold controller.Reconcile, Get. runs. unfold request at 1. rewrite Hf. runs.
  change (objects (A := v1alpha1.RBACRule.t) (setFaults (Some e :: fs) w))
    with (wRBACRules w).
  rewrite Hrule. runs. rewrite Hdel, Hfin, bool_decide_true by done.
  cbn [andb negb]. unfold Update. runs. unfold request. simpl wFaults. runs.
  unfold LogError, modify. by runs.
Qed.

(** X10: with nothing recorded in the status, [deleteBindings] asks for no
    list and deletes nothing, whatever the cluster holds. *)
Theorem deleteBindings_empty_status rule ls w :
  controller.statusRoleBindings rule = [] →
  controller.statusClusterRoleBindings rule = [] →
  controller.deleteBindings rule ls w = (Done (rule, None), w).
Proof.
  intros Hrb Hcrb. unfold controller.deleteBindings.
  rewrite Hrb, bool_decide_false by (simpl; lia). runs.
  by rewrite Hcrb, bool_decide_false by (simpl; lia).
Qed.

(** X13: after a [checkNamespace] in which no request fails the namespace
    exists; a namespace that was there is left as it was, and a missing one
    is added behind the others. *)
Theorem checkNamespace_ensures name O w :
  wFaults w = [] →
  ∃ w',
    controller.checkNamespace name O w = (Done None, w')
    ∧ is_Some (lookupKey ("", name) (wNamespaces w'))
    ∧ (is_Some (lookupKey ("", name) (wNamespaces w)) → w' = w)
    ∧ wNamespaces w `prefix_of` wNamespaces w'.
Proof.
  intros Hf. unfold controller.checkNamespace, Get. runs.
  rewrite request_quiet by done. runs.
  change (objects (A := corev1.Namespace.t) w) with (wNamespaces w).
  destruct (lookupKey ("", name) (wNamespaces w)) as [ns|] eqn:Hl; runs.
  - exists w. split; [done|]. split; [by eexists|]. split; [done|]. reflexivity.
  - cbn [apierrors.IsNotFound]. unfold Create. runs. rewrite request_quiet by done. runs.
    change (objects (A := corev1.Namespace.t) w) with (wNamespaces w).
    set (created := {| corev1.Namespace.ObjectMeta := _ |}).
    change (keyOf created) with ("", name). rewrite Hl. unfold modify. runs.
    eexists. split; [done|]. simpl.
    split; [|split].
    + rewrite lookupKey_app_None by done.
      change ("", name) with (keyOf created). rewrite lookupKey_singleton. by eexists.
    + by intros [? ?].
    + by apply prefix_app_r.
Qed.

Lemma checkNamespace_ends name O :
  ensures (controller.checkNamespace name O) (λ _, True).
Proof.
  unfold controller.checkNamespace.
  eapply ensures_bind; [apply Get_ends|]. intros [ns|e] _; [by apply ensures_ret|].
  destruct (apierrors.IsNotFound e); [apply Create_ends | by apply ensures_ret].
Qed.

(** X14: [deleteServiceAccounts] takes a not-found answer to a delete for
    a success: the loop over the listed accounts always ends, and never with
    a not-found error. *)
Theorem deleteServiceAccountItems_tolerates_not_found items :
  ensures (controller.deleteServiceAccountItems items)
    (λ err, ∀ e, err = Some e → apierrors.IsNotFound e = false).
Proof.
  induction items as [|sa rest IH]; simpl.
  - apply ensures_ret. discriminate.
  - eapply ensures_bind; [apply Delete_ends|]. intros [e|] _; [|done].
    destruct (apierrors.IsNotFound e) eqn:Hnf; simpl; [done|].
    eapply ensures_bind; [apply LogError_ends|]. intros _ _.
    apply ensures_ret. by intros ? [= <-].
Qed.

(** X16: after a RoleBinding was deleted, the removal of its status entry
    panics whenever the bare name of the RoleBinding is not in the status. *)
Theorem deleteRoleBindingItems_panics rb rest rule w w1 :
  Delete rb w = (Done None, w1) →
  metav1.ObjectMeta.Name (rbacv1.RoleBinding.ObjectMeta rb)
    ∉ controller.statusRoleBindings rule →
  controller.deleteRoleBindingItems (rb :: rest) rule w
  = (Panic "slice bounds out of range", w1).
Proof.
  intros Hdel Hnotin. cbn [controller.deleteRoleBindingItems].
  rewrite bind_run, Hdel. cbv beta iota.
  rewrite Index_notin by done. unfold slices.Delete.
  rewrite bool_decide_false by lia. done.
Qed.

(** X17: after a ClusterRoleBinding was deleted, the removal of its status
    entry panics whenever its name is not in the status. *)
Theorem deleteClusterRoleBindingItems_panics crb rest rule w w1 :
  Delete crb w = (Done None, w1) →
  metav1.ObjectMeta.Name (rbacv1.ClusterRoleBinding.ObjectMeta crb)
    ∉ controller.statusClusterRoleBindings rule →
  controller.deleteClusterRoleBindingItems (crb :: rest) rule w
  = (Panic "slice bounds out of range", w1).
Proof.
  intros Hdel Hnotin. cbn [controller.deleteClusterRoleBindingItems].
  rewrite bind_run, Hdel. cbv beta iota.
  rewrite Index_notin by done. unfold slices.Delete.
  rewrite bool_decide_false by lia. done.
Qed.

(** X18: a deletion pass generates nothing: afterwards every Namespace,
    ServiceAccount, RoleBinding and ClusterRoleBinding of the cluster has the
    name, namespace, labels and owners of one that was there before. *)
Theorem reconcileDelete_generates_nothing rule :
  keeps (generates (λ k _, k = KRBACRule)) (controller.reconcileDelete rule).
Proof. by apply keeps_reconcileDelete. Qed.

(** *** The status of the rule *)

#[local] Instance extends_refl : Reflexive extends.
Proof. intros r. by split; [|split; [|split]]. Qed.

#[local] Instance extends_trans : Transitive extends.
Proof.
  intros r1 r2 r3 (?&?&?&?) (?&?&?&?).
  split; [by etrans|]. split; [by etrans|]. split; auto.
Qed.

Lemma StatusUpdate_status x :
  ensures (StatusUpdate x)
    (λ r, v1alpha1.RBACRule.Status r.1 = v1alpha1.RBACRule.Status x).
Proof.
  intros w. unfold StatusUpdate. runs. unfold request.
  destruct (wFaults w) as [|[e|] fs]; runs;
    try destruct (lookupKey _ _); unfold modify; runs; eauto.
Qed.

Lemma extends_append_crb rule name r :
  slices.Index (controller.statusClusterRoleBindings rule) name = (-1)%Z →
  v1alpha1.RBACRule.Status r
  = v1alpha1.RBACRule.Status
      (controller.withClusterRoleBindings rule
         (controller.statusClusterRoleBindings rule ++ [name])) →
  extends rule r ∧ name ∈ controller.statusClusterRoleBindings r.
Proof.
  intros Hi%Index_missing_iff Hs.
  unfold extends, controller.statusClusterRoleBindings, controller.statusRoleBindings in *.
  rewrite Hs. simpl. split; [split; [|split; [|split]]|].
  - by apply prefix_app_r.
  - done.
  - intros Hnd. apply NoDup_app. split; [done|]. split; [|apply NoDup_singleton].
    intros x Hx ->%list_elem_of_singleton. done.
  - done.
  - apply elem_of_app. right. by apply list_elem_of_singleton.
Qed.

Lemma extends_append_rb rule name r :
  slices.Index (controller.statusRoleBindings rule) name = (-1)%Z →
  v1alpha1.RBACRule.Status r
  = v1alpha1.RBACRule.Status
      (controller.withRoleBindings rule (controller.statusRoleBindings rule ++ [name])) →
  extends rule r ∧ name ∈ controller.statusRoleBindings r.
Proof.
  intros Hi%Index_missing_iff Hs.
  unfold extends, controller.statusClusterRoleBindings, controller.statusRoleBindings in *.
  rewrite Hs. simpl. split; [split; [|split; [|split]]|].
  - done.
  - by apply prefix_app_r.
  - done.
  - intros Hnd. apply NoDup_app. split; [done|]. split; [|apply NoDup_singleton].
    intros x Hx ->%list_elem_of_singleton. done.
  - apply elem_of_app. right. by apply list_elem_of_singleton.
Qed.

Lemma reconcileClusterRoleBindings_records crbs : ∀ rule,
  ensures (controller.reconcileClusterRoleBindings crbs rule)
    (λ r, extends rule r.1
          ∧ asksRetry r.2
          ∧ (r.2 = None →
             ∀ crb, crb ∈ crbs →
                    clusterRoleBindingId crb ∈ controller.statusClusterRoleBindings r.1)).
Proof.
  induction crbs as [|crb rest IH]; intros rule; simpl.
  - apply ensures_ret. split; [done|]. split; [by intros ?? [=]|].
    by intros _ ? ?%elem_of_nil.
  - eapply ensures_bind; [apply createOrUpdate_ends|]. intros [e|] _.
    { eapply ensures_bind; [apply LogError_ends|]. intros _ _. apply ensures_ret.
      split; [done|]. split; [|done]. intros ?? [= <- <-]. by left. }
    assert (Hgo : ∀ r, extends rule r →
      clusterRoleBindingId crb ∈ controller.statusClusterRoleBindings r →
      ensures (controller.reconcileClusterRoleBindings rest r)
        (λ r', extends rule r'.1 ∧ asksRetry r'.2
               ∧ (r'.2 = None → ∀ c, c ∈ crb :: rest →
                    clusterRoleBindingId c ∈ controller.statusClusterRoleBindings r'.1))).
    { intros r Hext Hin. eapply ensures_weaken; [apply IH|].
      intros [r' ret] (Hext' & Hretry & Hall). simpl in *.
      split; [by etrans|]. split; [done|].
      intros Hret c [->|Hc]%elem_of_cons; [|by apply Hall].
      destruct Hext' as ([k ->] & _). apply elem_of_app. by left. }
    case_bool_decide as Hi.
    + eapply ensures_bind; [apply StatusUpdate_status|]. intros [r [e|]] Hs; simpl in Hs.
      * eapply ensures_bind; [apply LogError_ends|]. intros _ _. apply ensures_ret.
        destruct (extends_append_crb rule _ r Hi Hs) as [Hext _].
        split; [done|]. split; [|done]. intros ?? [= <- <-]. right. by split; [|eexists].
      * destruct (extends_append_crb rule _ r Hi Hs) as [Hext Hin]. by apply Hgo.
    + apply Hgo; [done|]. by apply Index_found.
Qed.

Lemma reconcileRoleBindings_records rbs : ∀ rule,
  ensures (controller.reconcileRoleBindings rbs rule)
    (λ r, extends rule r.1
          ∧ asksRetry r.2
          ∧ (r.2 = None →
             ∀ rb, rb ∈ rbs → roleBindingId rb ∈ controller.statusRoleBindings r.1)).
Proof.
  induction rbs as [|rb rest IH]; intros rule; simpl.
  - apply ensures_ret. split; [done|]. split; [by intros ?? [=]|].
    by intros _ ? ?%elem_of_nil.
  - eapply ensures_bind; [apply createOrUpdate_ends|]. intros [e|] _.
    { eapply ensures_bind; [apply LogError_ends|]. intros _ _. apply ensures_ret.
      split; [done|]. split; [|done]. intros ?? [= <- <-]. by left. }
    assert (Hgo : ∀ r, extends rule r →
      roleBindingId rb ∈ controller.statusRoleBindings r →
      ensures (controller.reconcileRoleBindings rest r)
        (λ r', extends rule r'.1 ∧ asksRetry r'.2
               ∧ (r'.2 = None → ∀ c, c ∈ rb :: rest →
                    roleBindingId c ∈ controller.statusRoleBindings r'.1))).
    { intros r Hext Hin. eapply ensures_weaken; [apply IH|].
      intros [r' ret] (Hext' & Hretry & Hall). simpl in *.
      split; [by etrans|]. split; [done|].
      intros Hret c [->|Hc]%elem_of_cons; [|by apply Hall].
      destruct Hext' as (_ & [k ->] & _). apply elem_of_app. by left. }
    fold (roleBindingId rb). case_bool_decide as Hi.
    + eapply ensures_bind; [apply StatusUpdate_status|]. intros [r [e|]] Hs; simpl in Hs.
      * eapply ensures_bind; [apply LogError_ends|]. intros _ _. apply ensures_ret.
        destruct (extends_append_rb rule _ r Hi Hs) as [Hext _].
        split; [done|]. split; [|done]. intros ?? [= <- <-]. right. by split; [|eexists].
      * destruct (extends_append_rb rule _ r Hi Hs) as [Hext Hin]. by apply Hgo.
    + apply Hgo; [done|]. by apply Index_found.
Qed.

Lemma reconcileSubjects_asksRetry subjects L O :
  ensures (controller.reconcileSubjects subjects L O) asksRetry.
Proof.
  induction subjects as [|s rest IH]; simpl.
  - apply ensures_ret. by intros ?? [=].
  - destruct (bool_decide _); [|done].
    eapply ensures_bind; [apply checkNamespace_ends|]. intros [e|] _.
    { eapply ensures_bind; [apply LogError_ends|]. intros _ _. apply ensures_ret.
      intros ?? [= <- <-]. by left. }
    eapply ensures_bind; [apply createOrUpdate_ends|]. intros [e|] _; [|done].
    eapply ensures_bind; [apply LogError_ends|]. intros _ _. apply ensures_ret.
    intros ?? [= <- <-]. by left.
Qed.

Lemma reconcileParsed_spec p rule L O :
  ensures (controller.reconcileParsed p rule L O)
    (λ r, extends rule r.1
          ∧ asksRetry r.2
          ∧ (r.2 = None →
             (∀ crb, crb ∈ parser.ClusterRoleBindings p →
                clusterRoleBindingId crb ∈ controller.statusClusterRoleBindings r.1)
             ∧ (∀ rb, rb ∈ parser.RoleBindings p →
                  roleBindingId rb ∈ controller.statusRoleBindings r.1))).
Proof.
  unfold controller.reconcileParsed.
  eapply ensures_bind; [apply reconcileSubjects_asksRetry|]. intros [res|] Hretry.
  { apply ensures_ret. by split. }
  eapply ensures_bind; [apply reconcileClusterRoleBindings_records|].
  intros [r1 [res|]] (Hext1 & Hretry1 & Hall1); simpl in *.
  { apply ensures_ret. by split. }
  eapply ensures_weaken; [apply reconcileRoleBindings_records|].
  intros [r2 ret] (Hext2 & Hretry2 & Hall2); simpl in *.
  split; [by etrans|]. split; [done|]. intros Hret. split; [|by apply Hall2].
  intros crb Hcrb. destruct Hext2 as ([k ->] & _).
  apply elem_of_app. left. by apply Hall1.
Qed.

(** X19: the status bookkeeping of one binding. The three loops always
    end; the status lists of the rule are only appended to and stay free of
    duplicates; an early return asks for a retry or carries an error; and
    when the loops run to their end, the status holds the name of every
    ClusterRoleBinding and the namespace/name of every RoleBinding of the
    parser. *)
Theorem reconcileParsed_records p rule L O :
  ensures (controller.reconcileParsed p rule L O)
    (λ r, extends rule r.1
          ∧ asksRetry r.2
          ∧ (r.2 = None →
             (∀ crb, crb ∈ parser.ClusterRoleBindings p →
                clusterRoleBindingId crb ∈ controller.statusClusterRoleBindings r.1)
             ∧ (∀ rb, rb ∈ parser.RoleBindings p →
                  roleBindingId rb ∈ controller.statusRoleBindings r.1))).
Proof. apply reconcileParsed_spec. Qed.

Lemma reconcileBindings_spec bindings : ∀ rule L O,
  ensures (controller.reconcileBindings bindings rule L O)
    (λ r, extends rule r.1 ∧ asksRetry r.2).
Proof.
  induction bindings as [|b rest IH]; intros rule L O; simpl.
  - apply ensures_ret. split; [done|]. by intros ?? [=].
  - eapply ensures_bind; [apply Parse_ends|]. intros [p err] _.
    eapply ensures_bind with (Q1 := λ _, True).
    { destruct err; [apply LogError_ends | by apply ensures_ret]. }
    intros _ _.
    eapply ensures_bind; [apply reconcileParsed_spec|].
    intros [r1 [res|]] (Hext1 & Hretry1 & _); simpl in *.
    { apply ensures_ret. by split. }
    eapply ensures_weaken; [apply IH|]. intros [r2 ret] [Hext2 Hretry2]. simpl in *.
    split; [by etrans | done].
Qed.

(** X20: the loop over the bindings of a rule always ends, the status lists
    are only appended to and stay free of duplicates, and an early return
    asks for a retry after the fixed delay or carries an error. *)
Theorem reconcileBindings_records bindings rule L O :
  ensures (controller.reconcileBindings bindings rule L O)
    (λ r, extends rule r.1 ∧ asksRetry r.2).
Proof. apply reconcileBindings_spec. Qed.

(** *** A pass that is not a deletion always ends *)

Lemma AddFinalizer_DeletionTimestamp m f :
  metav1.ObjectMeta.DeletionTimestamp (controllerutil.AddFinalizer m f)
  = metav1.ObjectMeta.DeletionTimestamp m.
Proof. unfold controllerutil.AddFinalizer. by destruct (controllerutil.ContainsFinalizer m f). Qed.

Lemma setAndAfterNow_ends t : ensures (controller.setAndAfterNow t) (λ _, True).
Proof.
  unfold controller.setAndAfterNow. destruct (time.IsZeroValue t); [by apply ensures_ret|].
  eapply ensures_bind; [apply Now_ends|]. intros now _. by apply ensures_ret.
Qed.

Lemma Until_ends t : ensures (Until t) (λ _, True).
Proof.
  unfold Until. eapply ensures_bind; [apply Now_ends|]. intros now _. by apply ensures_ret.
Qed.

Lemma reconcileEnd_ends rule : ensures (controller.reconcileEnd rule) (λ _, True).
Proof.
  unfold controller.reconcileEnd.
  eapply ensures_bind; [apply setAndAfterNow_ends|]. intros [|] _.
  - eapply ensures_bind; [apply Until_ends|]. intros period _.
    eapply ensures_bind; [apply LogInfo_ends|]. intros _ _. by apply ensures_ret.
  - eapply ensures_bind; [apply Now_ends|]. intros now _.
    destruct (time.Before _ now); [|by apply ensures_ret].
    eapply ensures_bind; [apply Delete_ends|]. intros [e|] _; [|by apply ensures_ret].
    eapply ensures_bind; [apply LogError_ends|]. intros _ _. by apply ensures_ret.
Qed.

Lemma Get_rule_lookup k w :
  ∃ r w', Get (A := v1alpha1.RBACRule.t) k w = (Done r, w')
          ∧ ∀ x, r = inl x → lookupKey k (wRBACRules w) = Some x.
Proof.
  unfold Get. runs. unfold request.
  destruct (wFaults w) as [|[e|] fs]; runs; simpl;
    try destruct (lookupKey k _) eqn:Hl; runs;
    eexists _, _; (split; [done|]); intros x [= <-]; done.
Qed.

(** X21: a pass can only panic while it deletes: for a rule that the store
    holds without a deletion timestamp, and for a rule the store does not
    hold, [Reconcile] ends normally, whatever the cluster holds and whichever
    requests fail. *)
Theorem Reconcile_ends_unless_deleting req w :
  (∀ rule, lookupKey req (wRBACRules w) = Some rule →
           metav1.ObjectMeta.DeletionTimestamp (v1alpha1.RBACRule.ObjectMeta rule) = None) →
  ∃ r w', controller.Reconcile req w = (Done r, w').
Proof.
  intros Hlive. unfold controller.Reconcile. rewrite bind_run.
  destruct (Get_rule_lookup req w) as (r & w1 & -> & Hr).
  cbv beta iota. destruct r as [rule|e].
  - specialize (Hlive rule (Hr rule eq_refl)).
    match goal with
    | |- ∃ r w', ?c w1 = _ =>
        assert (Hc : ensures c (λ _, True)); [|destruct (Hc w1) as (a & w' & ? & _); eauto]
    end.
    eapply ensures_bind
      with (Q1 := λ r, metav1.ObjectMeta.DeletionTimestamp
                         (v1alpha1.RBACRule.ObjectMeta r.1) = None).
    + destruct (_ && _); [|by apply ensures_ret].
      eapply ensures_bind.
      { apply ensures_post; [apply Update_ends | apply Update_meta]. }
      intros [rule' err] Hmeta. simpl in Hmeta.
      assert (Hd : metav1.ObjectMeta.DeletionTimestamp
                     (v1alpha1.RBACRule.ObjectMeta rule') = None).
      { by rewrite Hmeta, AddFinalizer_DeletionTimestamp. }
      destruct err as [e|]; [|by apply ensures_ret].
      eapply ensures_bind; [apply LogError_ends|]. intros _ _. by apply ensures_ret.
    + intros [rule' err] Hd. simpl in Hd.
      destruct err as [e|]; [by apply ensures_ret|].
      rewrite bool_decide_false by (by rewrite Hd; intros ?).
      eapply ensures_bind; [apply setAndAfterNow_ends|]. intros [|] _.
      * eapply ensures_bind; [apply Until_ends|]. intros period _.
        eapply ensures_bind; [apply LogInfo_ends|]. intros _ _. by apply ensures_ret.
      * eapply ensures_bind; [eapply ensures_drop, reconcileBindings_spec|].
        intros [rule'' [ret|]] _; [by apply ensures_ret | apply reconcileEnd_ends].
  - destruct (apierrors.IsNotFound e); runs; [|eauto].
    unfold LogInfo, modify. runs. eauto.
Qed.
End ReconcilerMore.

(** ** The sweep and the status *)

Section SweepStatus.
Import client world store sweeping.
Context `{validation.LabelSyntax} `{utils.Names} `{constants.Labels}.






#[local] Instance statusKept_refl : Reflexive statusKept.
Proof. intros w r Hr. by exists r. Qed.

#[local] Instance statusKept_trans : Transitive statusKept.
Proof.
  intros w1 w2 w3 H12 H23 r3 Hr3.
  destruct (H23 r3 Hr3) as (r2 & Hr2 & Hk2 & Hs2).
  destruct (H12 r2 Hr2) as (r1 & Hr1 & Hk1 & Hs1).
  exists r1. split; [done|]. split; congruence.
Qed.











Lemma kept_removeKey k : keeps statusKept (modify (λ w, setRBACRules (removeKey k (wRBACRules w)) w)).
Proof. intros w r Hr. simpl in Hr. apply elem_of_removeKey in Hr. by exists r. Qed.









End SweepStatus.

(** ** The validating webhook *)

Section Webhook.
Import client world.

(** X23: [ValidateCreate] accepts a rule exactly when, at the time it
    reads, the rule starts no earlier than now and ends no earlier than it
    starts; it leaves every store as it is. *)
Theorem ValidateCreate_accepts_iff rule w :
  ∃ err w',
    webhook.ValidateCreate (runtime.RBACRule rule) w = (Done err, w')
    ∧ (err = None
       ↔ (wClock w (wTicks w) ≤ v1alpha1.RBACRuleSpec.StartTime (v1alpha1.RBACRule.Spec rule)
          ∧ v1alpha1.RBACRuleSpec.StartTime (v1alpha1.RBACRule.Spec rule)
            ≤ v1alpha1.RBACRuleSpec.EndTime (v1alpha1.RBACRule.Spec rule))%Z)
    ∧ sameGenerated w w'
    ∧ wRBACRules w' = wRBACRules w.
Proof.
  unfold webhook.ValidateCreate, LogInfo, modify, Now, time.After. runs. simpl.
  repeat case_bool_decide; runs; eexists _, _; (split; [done|]);
    (split; [split; [intros; simplify_eq; lia | intros; (done || lia)]|]);
    by split.
Qed.

(** X24: at any time after the zero time, [ValidateCreate] refuses a rule
    whose startTime or endTime is not set. *)
Theorem ValidateCreate_refuses_unset_times rule w :
  (time.zero < wClock w (wTicks w))%Z →
  v1alpha1.RBACRuleSpec.StartTime (v1alpha1.RBACRule.Spec rule) = time.zero
  ∨ v1alpha1.RBACRuleSpec.EndTime (v1alpha1.RBACRule.Spec rule) = time.zero →
  ∃ e w', webhook.ValidateCreate (runtime.RBACRule rule) w = (Done (Some e), w').
Proof.
  intros Hnow Hunset.
  unfold webhook.ValidateCreate, LogInfo, modify, Now, time.After. runs. simpl.
  unfold time.zero in *.
  repeat case_bool_decide; runs; try (by eauto); lia.
Qed.
End Webhook.

(** ** Namespaces are never removed *)

Section Namespaces.
Import client world store.
Context `{validation.LabelSyntax} `{utils.Names} `{constants.Labels}.

#[local] Instance namespacesGrow_refl : Reflexive namespacesGrow.
Proof. intros w. unfold namespacesGrow. reflexivity. Qed.

#[local] Instance namespacesGrow_trans : Transitive namespacesGrow.
Proof. intros w1 w2 w3. unfold namespacesGrow. apply transitivity. Qed.

Lemma grow_same w w' : wNamespaces w' = wNamespaces w → namespacesGrow w w'.
Proof. unfold namespacesGrow. by intros ->. Qed.

Lemma grow_bind {B C : Type} (c : M B) (f : B → M C) :
  keeps namespacesGrow c → (∀ a, keeps namespacesGrow (f a)) →
  keeps namespacesGrow (c ≫= f).
Proof. apply keeps_bind, _. Qed.

Lemma grow_ret {B : Type} (a : B) : keeps namespacesGrow (mret a).
Proof. apply keeps_ret, _. Qed.

Lemma grow_read {B : Type} (f : World → B) : keeps namespacesGrow (read f).
Proof. apply keeps_read, _. Qed.

Lemma grow_panic {B : Type} msg : keeps namespacesGrow (panic (A := B) msg).
Proof. apply keeps_panic, _. Qed.

Lemma grow_request : keeps namespacesGrow request.
Proof. intros w. apply grow_same. unfold request. by destruct (wFaults w). Qed.

Lemma grow_Now : keeps namespacesGrow Now.
Proof. intros w. by apply grow_same. Qed.

Lemma grow_LogInfo msg : keeps namespacesGrow (LogInfo msg).
Proof. intros w. by apply grow_same. Qed.

Lemma grow_LogError e msg : keeps namespacesGrow (LogError e msg).
Proof. intros w. by apply grow_same. Qed.

Lemma grow_set {A : Type} `{Apart A} (l : list A) :
  keeps namespacesGrow (modify (setObjects l)).
Proof. intros w. apply grow_same. apply namespaces_set. Qed.

Lemma grow_setRBACRules l : keeps namespacesGrow (modify (setRBACRules l)).
Proof. intros w. by apply grow_same. Qed.

Lemma grow_slices_Delete s i j : keeps namespacesGrow (slices.Delete s i j).
Proof.
  unfold slices.Delete. repeat case_bool_decide; first [apply grow_ret | apply grow_panic].
Qed.

Ltac grow :=
  lazymatch goal with
  | |- keeps _ (mret _) => apply grow_ret
  | |- keeps _ (read _) => apply grow_read
  | |- keeps _ (panic _) => apply grow_panic
  | |- keeps _ request => apply grow_request
  | |- keeps _ Now => apply grow_Now
  | |- keeps _ (LogInfo _) => apply grow_LogInfo
  | |- keeps _ (LogError _ _) => apply grow_LogError
  | |- keeps _ (modify (setObjects _)) => apply grow_set
  | |- keeps _ (modify (setRBACRules _)) => apply grow_setRBACRules
  | |- keeps _ (slices.Delete _ _ _) => apply grow_slices_Delete
  | |- keeps _ (mbind _ _) => apply grow_bind; [|intros ?]
  | |- keeps _ (match ?x with _ => _ end) => destruct x
  | |- keeps _ (let _ := _ in _) => cbv zeta
  end.

Lemma grow_Get {A : Type} `{Object A} k : keeps namespacesGrow (Get (A := A) k).
Proof. unfold Get. repeat grow. Qed.

Lemma grow_List {A : Type} `{Object A} sel : keeps namespacesGrow (List (A := A) sel).
Proof. unfold List. repeat grow. Qed.

Lemma grow_Create {A : Type} `{Apart A} (x : A) : keeps namespacesGrow (Create x).
Proof. unfold Create. repeat grow. Qed.

Lemma grow_Update {A : Type} `{Apart A} (x : A) : keeps namespacesGrow (Update x).
Proof. unfold Update. repeat grow. Qed.

Lemma grow_Delete {A : Type} `{Apart A} (x : A) : keeps namespacesGrow (Delete x).
Proof. unfold Delete. repeat grow. Qed.

Lemma grow_StatusUpdate x : keeps namespacesGrow (StatusUpdate x).
Proof. unfold StatusUpdate. repeat grow. Qed.

Lemma grow_createOrUpdate {A : Type} `{Apart A} (x : A) :
  keeps namespacesGrow (controller.createOrUpdate x).
Proof.
  unfold controller.createOrUpdate.
  apply grow_bind; [apply grow_Create|]. intros [e|]; [|apply grow_ret].
  destruct (apierrors.IsAlreadyExists e); [|apply grow_ret].
  apply grow_bind; [apply grow_Update|]. intros [? ?]. apply grow_ret.
Qed.

Lemma grow_Create_namespace (x : corev1.Namespace.t) : keeps namespacesGrow (Create x).
Proof.
  intros w. unfold Create. runs. unfold request.
  destruct (wFaults w) as [|[e|] fs]; runs; simpl;
    try destruct (lookupKey _ _); unfold modify; runs; unfold namespacesGrow; simpl;
    first [by apply prefix_app_r | reflexivity].
Qed.

Lemma grow_checkNamespace name O : keeps namespacesGrow (controller.checkNamespace name O).
Proof.
  unfold controller.checkNamespace.
  apply grow_bind; [apply grow_Get|]. intros [ns|e]; [apply grow_ret|].
  destruct (apierrors.IsNotFound e); [apply grow_Create_namespace | apply grow_ret].
Qed.

Lemma grow_reconcileSubjects subjects L O :
  keeps namespacesGrow (controller.reconcileSubjects subjects L O).
Proof.
  induction subjects as [|s rest IH]; simpl; [apply grow_ret|].
  destruct (bool_decide _); [|done].
  apply grow_bind; [apply grow_checkNamespace|]. intros [e|]; [by repeat grow|].
  apply grow_bind; [apply grow_createOrUpdate|]. intros [e|]; [by repeat grow | done].
Qed.

Lemma grow_reconcileClusterRoleBindings crbs : ∀ rule,
  keeps namespacesGrow (controller.reconcileClusterRoleBindings crbs rule).
Proof.
  induction crbs as [|crb rest IH]; intros rule; simpl; [apply grow_ret|].
  apply grow_bind; [apply grow_createOrUpdate|]. intros [e|]; [by repeat grow|].
  destruct (bool_decide _); [|done].
  apply grow_bind; [apply grow_StatusUpdate|]. intros [rule' [e|]]; [by repeat grow | done].
Qed.

Lemma grow_reconcileRoleBindings rbs : ∀ rule,
  keeps namespacesGrow (controller.reconcileRoleBindings rbs rule).
Proof.
  induction rbs as [|rb rest IH]; intros rule; simpl; [apply grow_ret|].
  apply grow_bind; [apply grow_createOrUpdate|]. intros [e|]; [by repeat grow|].
  destruct (bool_decide _); [|done].
  apply grow_bind; [apply grow_StatusUpdate|]. intros [rule' [e|]]; [by repeat grow | done].
Qed.

Lemma grow_reconcileBindings bindings : ∀ rule L O,
  keeps namespacesGrow (controller.reconcileBindings bindings rule L O).
Proof.
  induction bindings as [|b rest IH]; intros rule L O; simpl; [apply grow_ret|].
  apply grow_bind.
  { intros w. destruct (Parse_spec b L O (controller.ruleName rule) w)
      as (p & err & w' & -> & Hw & _). apply grow_same, Hw. }
  intros [p err]. apply grow_bind; [destruct err; by repeat grow|]. intros _.
  apply grow_bind.
  { unfold controller.reconcileParsed.
    apply grow_bind; [apply grow_reconcileSubjects|]. intros [r|]; [apply grow_ret|].
    apply grow_bind; [apply grow_reconcileClusterRoleBindings|].
    intros [rule' [r|]]; [apply grow_ret | apply grow_reconcileRoleBindings]. }
  intros [rule' [r|]]; [apply grow_ret | apply IH].
Qed.

Lemma grow_deleteServiceAccountItems items :
  keeps namespacesGrow (controller.deleteServiceAccountItems items).
Proof.
  induction items as [|sa rest IH]; simpl; [apply grow_ret|].
  apply grow_bind; [apply grow_Delete|]. intros [e|]; [|done].
  destruct (negb _); [by repeat grow | done].
Qed.

Lemma grow_deleteRoleBindingItems items : ∀ rule,
  keeps namespacesGrow (controller.deleteRoleBindingItems items rule).
Proof.
  induction items as [|rb rest IH]; intros rule; simpl; [apply grow_ret|].
  apply grow_bind; [apply grow_Delete|]. intros [e|]; [by repeat grow|].
  apply grow_bind; [apply grow_slices_Delete|]. intros s.
  apply grow_bind; [apply grow_Update|]. intros [rule' [e|]]; [by repeat grow | done].
Qed.

Lemma grow_deleteClusterRoleBindingItems items : ∀ rule,
  keeps namespacesGrow (controller.deleteClusterRoleBindingItems items rule).
Proof.
  induction items as [|crb rest IH]; intros rule; simpl; [apply grow_ret|].
  apply grow_bind; [apply grow_Delete|]. intros [e|]; [by repeat grow|].
  apply grow_bind; [apply grow_slices_Delete|]. intros s.
  apply grow_bind; [apply grow_Update|]. intros [rule' [e|]]; [by repeat grow | done].
Qed.

Lemma grow_reconcileDelete rule : keeps namespacesGrow (controller.reconcileDelete rule).
Proof.
  unfold controller.reconcileDelete.
  apply grow_bind; [apply grow_LogInfo|]. intros _.
  apply grow_bind.
  - destruct (controllerutil.ContainsFinalizer _ _); [|apply grow_ret].
    apply grow_bind.
    { unfold controller.deleteBindings. apply grow_bind.
      - destruct (bool_decide _); [|apply grow_ret].
        apply grow_bind; [apply grow_List|]. intros [items|e];
          [apply grow_deleteRoleBindingItems | by repeat grow].
      - intros [rule' [e|]]; [apply grow_ret|].
        destruct (bool_decide _); [|apply grow_ret].
        apply grow_bind; [apply grow_List|]. intros [items|e];
          [apply grow_deleteClusterRoleBindingItems | by repeat grow]. }
    intros [rule' [e|]]; [by repeat grow|].
    apply grow_bind.
    { unfold controller.deleteServiceAccounts.
      apply grow_bind; [apply grow_List|]. intros [items|e];
        [apply grow_deleteServiceAccountItems | by repeat grow]. }
    intros [e|]; by repeat grow.
  - intros [rule' [e|]]; [apply grow_ret|].
    apply grow_bind; [apply grow_Update|]. intros [rule'' [e|]]; by repeat grow.
Qed.

(** X22: no pass removes or changes a namespace, not even the deletion pass
    of the rule for which the namespace was created: whatever the cluster
    holds and however the pass ends, the namespaces of the cluster are the
    ones before the pass, in their order, with the created ones behind
    them. *)
Theorem Reconcile_keeps_namespaces req :
  keeps namespacesGrow (controller.Reconcile req).
Proof.
  unfold controller.Reconcile.
  apply grow_bind; [apply grow_Get|]. intros [rule|e].
  - apply grow_bind.
    + destruct (_ && _); [|apply grow_ret].
      apply grow_bind; [apply grow_Update|]. intros [rule' [e|]]; by repeat grow.
    + intros [rule' [e|]]; [apply grow_ret|].
      destruct (bool_decide _).
      { apply grow_bind; [apply grow_reconcileDelete|]. intros. apply grow_ret. }
      assert (Hnow : ∀ t, keeps namespacesGrow (controller.setAndAfterNow t)).
      { intros t. unfold controller.setAndAfterNow.
        destruct (time.IsZeroValue t); by repeat grow. }
      assert (Huntil : ∀ t, keeps namespacesGrow (Until t)).
      { intros t. unfold Until. by repeat grow. }
      apply grow_bind; [apply Hnow|]. intros [|].
      { apply grow_bind; [apply Huntil|]. intros. by repeat grow. }
      apply grow_bind; [apply grow_reconcileBindings|].
      intros [rule'' [r|]]; [apply grow_ret|].
      unfold controller.reconcileEnd.
      apply grow_bind; [apply Hnow|]. intros [|].
      { apply grow_bind; [apply Huntil|]. intros. by repeat grow. }
      apply grow_bind; [apply grow_Now|]. intros now.
      destruct (time.Before _ now); [|apply grow_ret].
      apply grow_bind; [apply grow_Delete|]. intros [e|]; by repeat grow.
  - destruct (apierrors.IsNotFound e); by repeat grow.
Qed.
End Namespaces.

(** ** The sweep of the ServiceAccounts *)

Section Sweep.
Import client world store shape.

Lemma filter_keys_nil (l : list corev1.ServiceAccount.t) :
  filter (λ sa, keyOf sa ∉ keyOf <$> ([] : list corev1.ServiceAccount.t)) l = l.
Proof.
  induction l as [|x l IH]; [done|].
  rewrite filter_cons, decide_True by (simpl; apply not_elem_of_nil). by rewrite IH.
Qed.

Lemma filter_keys_absent (x : corev1.ServiceAccount.t)
    (items l : list corev1.ServiceAccount.t) :
  lookupKey (keyOf x) l = None →
  filter (λ sa, keyOf sa ∉ keyOf <$> x :: items) l
  = filter (λ sa, keyOf sa ∉ keyOf <$> items) l.
Proof.
  unfold lookupKey. induction l as [|y l IH]; [done|].
  rewrite filter_cons. destruct (decide (keyOf y = keyOf x)) as [|Hne]; [done|].
  intros Hl. rewrite !filter_cons, IH by done.
  destruct (decide (keyOf y ∉ keyOf <$> items)) as [Hy|Hy].
  - rewrite decide_True; [done|]. rewrite fmap_cons, not_elem_of_cons. done.
  - rewrite decide_False; [done|]. rewrite fmap_cons, not_elem_of_cons. tauto.
Qed.

Lemma filter_keys_removed (x : corev1.ServiceAccount.t)
    (items l : list corev1.ServiceAccount.t) :
  filter (λ sa, keyOf sa ∉ keyOf <$> items) (removeKey (keyOf x) l)
  = filter (λ sa, keyOf sa ∉ keyOf <$> x :: items) l.
Proof.
  unfold removeKey. induction l as [|y l IH]; [done|].
  rewrite !filter_cons. destruct (decide (keyOf y ≠ keyOf x)) as [Hne|Heq].
  - rewrite filter_cons, IH.
    destruct (decide (keyOf y ∉ keyOf <$> items)) as [Hy|Hy].
    + rewrite decide_True; [done|]. rewrite fmap_cons, not_elem_of_cons. done.
    + rewrite decide_False; [done|]. rewrite fmap_cons, not_elem_of_cons. tauto.
  - rewrite IH, decide_False; [done|].
    rewrite fmap_cons, not_elem_of_cons. intros [? _]. done.
Qed.

Lemma deleteServiceAccountItems_removes (items : list corev1.ServiceAccount.t) : ∀ w,
  wFaults w = [] →
  Forall unprotected (wServiceAccounts w) →
  controller.deleteServiceAccountItems items w
  = (Done None,
     setServiceAccounts
       (filter (λ sa, keyOf sa ∉ keyOf <$> items) (wServiceAccounts w)) w).
Proof.
  induction items as [|x rest IH]; intros w Hf Hall.
  - simpl controller.deleteServiceAccountItems. rewrite ret_run, filter_keys_nil.
    by destruct w.
  - cbn [controller.deleteServiceAccountItems]. unfold Delete. runs.
    rewrite request_quiet by done. runs.
    change (objects (A := corev1.ServiceAccount.t) w) with (wServiceAccounts w).
    destruct (lookupKey (keyOf x) (wServiceAccounts w)) as [stored|] eqn:Hl; runs.
    + apply lookupKey_Some in Hl as [Hin _].
      rewrite Forall_forall in Hall. specialize (Hall stored Hin) as Hst.
      unfold unprotected in Hst.
      change (GetObjectMeta stored) with (corev1.ServiceAccount.ObjectMeta stored).
      rewrite Hst, bool_decide_true by done. unfold modify. runs.
      rewrite IH.
      * simpl. rewrite filter_keys_removed. by destruct w.
      * done.
      * simpl. apply Forall_forall. intros y Hy%elem_of_removeKey. by apply Hall.
    + cbn [apierrors.IsNotFound negb]. rewrite IH by done.
      by rewrite filter_keys_absent.
Qed.

(** X15: when no request fails and no ServiceAccount has a finalizer,
    [deleteServiceAccounts] succeeds, removes the ServiceAccounts that have
    the namespace and name of a selected one, touches nothing else, and
    leaves no ServiceAccount that the selector matches. *)
Theorem deleteServiceAccounts_sweeps ls w :
  wFaults w = [] →
  Forall unprotected (wServiceAccounts w) →
  let selected :=
    filter (λ sa, labels.Matches ls
                    (metav1.ObjectMeta.Labels (corev1.ServiceAccount.ObjectMeta sa)) = true)
      (wServiceAccounts w) in
  ∃ w',
    controller.deleteServiceAccounts ls w = (Done None, w')
    ∧ w' = setServiceAccounts
             (filter (λ sa, keyOf sa ∉ keyOf <$> selected) (wServiceAccounts w)) w
    ∧ Forall (λ sa, labels.Matches ls
                      (metav1.ObjectMeta.Labels (corev1.ServiceAccount.ObjectMeta sa))
                    = false)
        (wServiceAccounts w').
Proof.
  intros Hf Hall selected. unfold controller.deleteServiceAccounts, List. runs.
  rewrite request_quiet by done. runs.
  change (objects (A := corev1.ServiceAccount.t) w) with (wServiceAccounts w).
  rewrite deleteServiceAccountItems_removes by done.
  eexists. split; [done|]. split; [reflexivity|]. simpl.
  apply Forall_forall. intros sa [Hkey Hin]%list_elem_of_filter.
  apply not_true_is_false. intros Hm. apply Hkey.
  apply list_elem_of_fmap_2. apply list_elem_of_filter. by split.
Qed.
End Sweep.

(** ** A deletion pass that has nothing to sweep *)

Section Release.
Import client world store shape.
Context `{validation.LabelSyntax} `{utils.Names} `{constants.Labels}.

Lemma lookupKey_removeKey {A : Type} `{Object A} k (l : list A) :
  lookupKey k (removeKey k l) = None.
Proof.
  unfold lookupKey, removeKey. induction l as [|x l IH]; [done|].
  rewrite filter_cons. destruct (decide (keyOf x ≠ k)) as [Hne|Heq]; [|done].
  by rewrite filter_cons, decide_False.
Qed.

(** X27: the deletion pass of a rule whose status records nothing, whose
    only finalizer is the one of the controller and which is being deleted,
    in a cluster where no request fails and no ServiceAccount has a
    finalizer: the pass succeeds and the rule is gone from the store; the
    RoleBindings, ClusterRoleBindings and Namespaces of the cluster are left
    as they were, whatever their labels. *)
Theorem reconcileDelete_releases_rule rule stored w :
  wFaults w = [] →
  lookupKey (keyOf rule) (wRBACRules w) = Some stored →
  is_Some (metav1.ObjectMeta.DeletionTimestamp (v1alpha1.RBACRule.ObjectMeta rule)) →
  metav1.ObjectMeta.Finalizers (v1alpha1.RBACRule.ObjectMeta rule)
  = [controller.RBACRuleFinalizer] →
  controller.statusRoleBindings rule = [] →
  controller.statusClusterRoleBindings rule = [] →
  Forall unprotected (wServiceAccounts w) →
  ∃ w',
    controller.reconcileDelete rule w = (Done None, w')
    ∧ lookupKey (keyOf rule) (wRBACRules w') = None
    ∧ wRoleBindings w' = wRoleBindings w
    ∧ wClusterRoleBindings w' = wClusterRoleBindings w
    ∧ wNamespaces w' = wNamespaces w.
Proof.
  intros Hf Hstored Hdel Hfin Hrb Hcrb Hall.
  unfold controller.reconcileDelete, LogInfo, modify. runs.
  unfold controllerutil.ContainsFinalizer. rewrite Hfin.
  rewrite bool_decide_true by (apply list_elem_of_singleton; done).
  unfold controller.deleteBindings. runs.
  rewrite Hrb, bool_decide_false by (simpl; lia). runs.
  rewrite Hcrb, bool_decide_false by (simpl; lia). runs.
  unfold controller.deleteServiceAccounts, List. runs.
  rewrite request_quiet by done. runs.
  rewrite deleteServiceAccountItems_removes by done. runs.
  unfold Update. runs. rewrite request_quiet by done. runs.
  match goal with
  | |- context [lookupKey ?k (objects (A := v1alpha1.RBACRule.t) ?w0)] =>
      change (objects (A := v1alpha1.RBACRule.t) w0) with (wRBACRules w);
      change k with (keyOf rule)
  end.
  rewrite Hstored.
  match goal with
  | |- context [finalized ?x] =>
      assert (Hgone : finalized x = true)
  end.
  { unfold finalized, controllerutil.RemoveFinalizer. simpl. rewrite Hfin.
    rewrite bool_decide_true by done.
    rewrite filter_cons, decide_False by (intros Hne; by apply Hne). done. }
  rewrite Hgone. unfold modify. runs.
  eexists. split; [done|]. simpl. split; [apply lookupKey_removeKey|]. done.
Qed.
End Release.

(** ** The further properties on the sample cluster *)

Section MoreExamples.
Import client world expansion store sample.
#[local] Existing Instance sample.syntax.
#[local] Existing Instance sample.names.
#[local] Existing Instance sample.ownership.






Lemma Parse_without_selectors_witness :
  ∃ p,
    parser.Parse parser.new access ∅ [] "r" cluster = (Done (p, None), cluster)
    ∧ parser.Subjects p = v1alpha1.Binding.Subjects access ≫= subjectsOf []
    ∧ parser.ClusterRoleBindings p
      = (parser.clusterRoleBinding (parser.Subjects p) "r" (v1alpha1.Binding.Name access) ∅ []
           <$> v1alpha1.Binding.ClusterRoleBindings access)
    ∧ parser.RoleBindings p
      = v1alpha1.Binding.RoleBindings access
          ≫= roleBindingsOf [] (parser.Subjects p) "r" (v1alpha1.Binding.Name access) ∅ [].
Proof.
  apply (Parse_without_selectors access ∅ [] "r" cluster).
  - repeat first [apply Forall_nil_2 | apply Forall_cons_2]; intros _; split; reflexivity.
  - repeat first [apply Forall_nil_2 | apply Forall_cons_2]; split; reflexivity.
Defined.

Lemma Reconcile_rule_not_found_witness :
  ∃ w',
    controller.Reconcile request cluster = (Done (ctrl.noRequeue, None), w')
    ∧ sameGenerated cluster w'
    ∧ wRBACRules w' = wRBACRules cluster
    ∧ wLog w' = wLog cluster ++ [logr.Info "Rule might been deleted"].
Proof.
  apply (Reconcile_rule_not_found request cluster).
  - reflexivity.
  - intros f Hf. vm_compute in Hf. discriminate Hf.
Defined.

Lemma Reconcile_read_failure_witness :
  controller.Reconcile request (setFaults [Some (ErrRequest "timeout")] cluster)
  = (Done (ctrl.noRequeue, Some (ErrRequest "timeout")), setFaults [] cluster).
Proof.
  apply (Reconcile_read_failure request
           (setFaults [Some (ErrRequest "timeout")] cluster) (ErrRequest "timeout") []).
  reflexivity.
Defined.

Lemma Reconcile_finalizer_write_failure_witness :
  controller.Reconcile request
    (setFaults [None; Some (ErrRequest "conflict")] (install (rule [access] 0%Z 5000%Z)))
  = (Done (ctrl.noRequeue, Some (ErrRequest "conflict")),
     setLog [logr.Error (ErrRequest "conflict") "failed to add finalizer"]
       (setFaults [] (install (rule [access] 0%Z 5000%Z)))).
Proof.
  apply (Reconcile_finalizer_write_failure request (rule [access] 0%Z 5000%Z)
           (setFaults [None; Some (ErrRequest "conflict")]
              (install (rule [access] 0%Z 5000%Z)))
           (ErrRequest "conflict") []).
  - vm_compute. reflexivity.
  - reflexivity.
  - vm_compute. reflexivity.
  - reflexivity.
Defined.

Lemma deleteBindings_empty_status_witness :
  controller.deleteBindings (terminating [] [])
    (controller.sweepSelector (terminating [] []))
    (setClusterRoleBindings [sweptClusterRoleBinding] (install (terminating [] [])))
  = (Done (terminating [] [], None),
     setClusterRoleBindings [sweptClusterRoleBinding] (install (terminating [] []))).
Proof.
  apply (deleteBindings_empty_status (terminating [] [])
           (controller.sweepSelector (terminating [] []))
           (setClusterRoleBindings [sweptClusterRoleBinding]
              (install (terminating [] [])))).
  - reflexivity.
  - reflexivity.
Defined.

Lemma createOrUpdate_upserts_witness :
  ∃ w',
    controller.createOrUpdate sweptRoleBinding cluster = (Done None, w')
    ∧ lookupKey (keyOf sweptRoleBinding) (objects w')
      = Some (match lookupKey (keyOf sweptRoleBinding) (objects cluster) with
              | Some stored => applyUpdate stored sweptRoleBinding
              | None => sweptRoleBinding
              end)
    ∧ (∀ k, k ≠ keyOf sweptRoleBinding →
            lookupKey k (objects (A := rbacv1.RoleBinding.t) w')
            = lookupKey k (objects cluster))
    ∧ wFaults w' = [].
Proof.
  apply (createOrUpdate_upserts sweptRoleBinding cluster).
  - reflexivity.
  - reflexivity.
Defined.

Lemma createOrUpdate_twice_witness :
  ∃ w',
    controller.createOrUpdate sweptRoleBinding cluster = (Done None, w')
    ∧ controller.createOrUpdate sweptRoleBinding w' = (Done None, w').
Proof.
  apply (createOrUpdate_twice sweptRoleBinding cluster).
  - reflexivity.
  - reflexivity.
  - intros stored. reflexivity.
Defined.

Lemma checkNamespace_ensures_witness :
  ∃ w',
    controller.checkNamespace "fresh" [] cluster = (Done None, w')
    ∧ is_Some (lookupKey ("", "fresh") (wNamespaces w'))
    ∧ (is_Some (lookupKey ("", "fresh") (wNamespaces cluster)) → w' = cluster)
    ∧ wNamespaces cluster `prefix_of` wNamespaces w'.
Proof.
  apply (checkNamespace_ensures "fresh" [] cluster). reflexivity.
Defined.

Lemma deleteRoleBindingItems_panics_witness :
  controller.deleteRoleBindingItems [sweptRoleBinding] (terminating ["team-a/rb-1"] [])
    (setRoleBindings [sweptRoleBinding] cluster)
  = (Panic "slice bounds out of range", setRoleBindings [] cluster).
Proof.
  apply (deleteRoleBindingItems_panics sweptRoleBinding []
           (terminating ["team-a/rb-1"] [])
           (setRoleBindings [sweptRoleBinding] cluster)
           (setRoleBindings [] cluster)).
  - vm_compute. reflexivity.
  - intros Hin. apply list_elem_of_singleton in Hin. discriminate Hin.
Defined.

Lemma deleteClusterRoleBindingItems_panics_witness :
  controller.deleteClusterRoleBindingItems [sweptClusterRoleBinding]
    (terminating [] ["crb-2"])
    (setClusterRoleBindings [sweptClusterRoleBinding] cluster)
  = (Panic "slice bounds out of range", setClusterRoleBindings [] cluster).
Proof.
  apply (deleteClusterRoleBindingItems_panics sweptClusterRoleBinding []
           (terminating [] ["crb-2"])
           (setClusterRoleBindings [sweptClusterRoleBinding] cluster)
           (setClusterRoleBindings [] cluster)).
  - vm_compute. reflexivity.
  - intros Hin. apply list_elem_of_singleton in Hin. discriminate Hin.
Defined.

Lemma deleteServiceAccounts_sweeps_witness :
  ∃ w',
    controller.deleteServiceAccounts (controller.sweepSelector (terminating [] []))
      (setServiceAccounts
         [{| corev1.ServiceAccount.ObjectMeta := sweptMeta "team-a" "sa1" |};
          {| corev1.ServiceAccount.ObjectMeta := sweptMeta "team-a" "sa2" |}]
         cluster)
    = (Done None, w')
    ∧ wServiceAccounts w' = []
    ∧ Forall (λ sa, labels.Matches (controller.sweepSelector (terminating [] []))
                      (metav1.ObjectMeta.Labels (corev1.ServiceAccount.ObjectMeta sa))
                    = false)
        (wServiceAccounts w').
Proof.
  destruct (deleteServiceAccounts_sweeps (controller.sweepSelector (terminating [] []))
              (setServiceAccounts
                 [{| corev1.ServiceAccount.ObjectMeta := sweptMeta "team-a" "sa1" |};
                  {| corev1.ServiceAccount.ObjectMeta := sweptMeta "team-a" "sa2" |}]
                 cluster))
    as (w' & Hrun & Hw & Hall).
  - reflexivity.
  - repeat first [apply Forall_nil_2 | apply Forall_cons_2]; reflexivity.
  - exists w'. split; [exact Hrun|]. split; [|exact Hall].
    rewrite Hw. vm_compute. reflexivity.
Defined.

Lemma Reconcile_ends_unless_deleting_witness :
  ∃ r w',
    controller.Reconcile request (install (rule [access; broken] 0%Z 5000%Z))
    = (Done r, w').
Proof.
  apply (Reconcile_ends_unless_deleting request
           (install (rule [access; broken] 0%Z 5000%Z))).
  intros r Hr. vm_compute in Hr. injection Hr as <-. reflexivity.
Defined.

Lemma ValidateCreate_refuses_unset_times_witness :
  ∃ e w',
    webhook.ValidateCreate (runtime.RBACRule (rule [access] 2000%Z 0%Z)) cluster
    = (Done (Some e), w').
Proof.
  apply (ValidateCreate_refuses_unset_times (rule [access] 2000%Z 0%Z) cluster).
  - reflexivity.
  - right. reflexivity.
Defined.

Lemma reconcileEnd_future_witness :
  controller.reconcileEnd (rule [access] 0%Z 5000%Z) cluster
  = (Done ({| ctrl.Result.Requeue := false; ctrl.Result.RequeueAfter := 3999%Z |},
           None),
     setLog [logr.Info "Rule will be scheduled for deletion"] (setTicks 2 cluster)).
Proof.
  apply (reconcileEnd_future (rule [access] 0%Z 5000%Z) cluster).
  - discriminate.
  - reflexivity.
Defined.

Lemma reconcileEnd_unset_witness :
  controller.reconcileEnd (rule [access] 0%Z 0%Z) cluster
  = (err ← Delete (rule [access] 0%Z 0%Z);
     match err with
     | Some e => LogError e "error deleting resource";; mret (ctrl.noRequeue, None)
     | None => mret (ctrl.noRequeue, None)
     end) (setTicks 1 cluster).
Proof.
  apply (reconcileEnd_unset (rule [access] 0%Z 0%Z) cluster).
  - reflexivity.
  - reflexivity.
Defined.

Lemma reconcileDelete_releases_rule_witness :
  ∃ w',
    controller.reconcileDelete (terminating [] [])
      (setRoleBindings [sweptRoleBinding] (install (terminating [] [])))
    = (Done None, w')
    ∧ lookupKey (keyOf (terminating [] [])) (wRBACRules w') = None
    ∧ wRoleBindings w' = [sweptRoleBinding]
    ∧ wClusterRoleBindings w' = []
    ∧ wNamespaces w' = wNamespaces cluster.
Proof.
  apply (reconcileDelete_releases_rule (terminating [] []) (terminating [] [])
           (setRoleBindings [sweptRoleBinding] (install (terminating [] [])))).
  - reflexivity.
  - vm_compute. reflexivity.
  - eexists. reflexivity.
  - reflexivity.
  - reflexivity.
  - reflexivity.
  - apply Forall_nil_2.
Defined.
End MoreExamples.
